(** * Wikipedia-Template-Parser: a shallow embedding of
      [wikipedia_template_parser/__init__.py] and the properties of its
      template extraction engine.

    Python strings are modelled by [string]; a character is a code point in
    0..255.  Exceptions are modelled by the [result] type.  A Python [dict]
    is an association list without duplicate keys, kept in insertion order.
    Python floats are IEEE 754 binary64 numbers, modelled by the Standard
    Library's [spec_float] with precision 53 and maximal exponent 1024.
    The builtins ([int], [float], [str], [strip], [split], ...) follow
    Python 3; on Python 2, which the module also supports, [str] of a float
    keeps 12 significant digits. *)

From Stdlib Require Import String Ascii List ZArith NArith Lia Bool.
From Stdlib Require Import DecimalString.
From Stdlib Require DecimalPos DecimalN.
From Stdlib Require Import Floats.SpecFloat.
Import ListNotations.
Local Open Scope string_scope.

(** ** Exceptions *)

Inductive exn : Type :=
| ValueError
| KeyError
| IndexError
| ParserError
| ImportError
| OtherError.

Inductive result (A : Type) : Type :=
| Ok (a : A)
| Raise (e : exn).
Arguments Ok {A} a.
Arguments Raise {A} e.

Definition bind {A B : Type} (r : result A) (k : A -> result B) : result B :=
  match r with
  | Ok a => k a
  | Raise e => Raise e
  end.

Notation "x <- c ;; k" := (bind c (fun x => k))
  (at level 61, c at next level, right associativity).

(** ** Strings *)

Module Str.

Definition eqb_ascii (a b : ascii) : bool := Ascii.eqb a b.

(** [str.isspace] on the code points below 256. *)
Definition is_space (c : ascii) : bool :=
  let n := N_of_ascii c in
  (((9 <=? n) && (n <=? 13)) || ((28 <=? n) && (n <=? 32))
   || (n =? 133) || (n =? 160))%N.

Definition is_digit (c : ascii) : bool :=
  let n := N_of_ascii c in ((48 <=? n) && (n <=? 57))%N.

Fixpoint mem (c : ascii) (s : string) : bool :=
  match s with
  | EmptyString => false
  | String d r => eqb_ascii c d || mem c r
  end.

(** [s.lstrip(chars)], [s.rstrip(chars)] and [s.strip(chars)], the set of
    characters given by a predicate. *)
Fixpoint lstrip_by (p : ascii -> bool) (s : string) : string :=
  match s with
  | EmptyString => EmptyString
  | String c r => if p c then lstrip_by p r else s
  end.

Fixpoint rstrip_by (p : ascii -> bool) (s : string) : string :=
  match s with
  | EmptyString => EmptyString
  | String c r =>
      match rstrip_by p r with
      | EmptyString => if p c then EmptyString else String c EmptyString
      | r' => String c r'
      end
  end.

Definition strip_by (p : ascii -> bool) (s : string) : string :=
  rstrip_by p (lstrip_by p s).

(** [s.strip()] *)
Definition strip (s : string) : string := strip_by is_space s.

(** [s.strip(chars)] *)
Definition strip_chars (chars s : string) : string :=
  strip_by (fun c => mem c chars) s.

(** [s.split(sep)] for a one-character separator. *)
Fixpoint split (sep : ascii) (s : string) : list string :=
  match s with
  | EmptyString => [EmptyString]
  | String c r =>
      if eqb_ascii c sep then EmptyString :: split sep r
      else match split sep r with
           | h :: t => String c h :: t
           | [] => [String c EmptyString]
           end
  end.

(** [s.split(sep, 1)] for a one-character separator: [None] stands for the
    one-element list (no separator in [s]), [Some (a, b)] for [[a, b]]. *)
Fixpoint split1 (sep : ascii) (s : string) : option (string * string) :=
  match s with
  | EmptyString => None
  | String c r =>
      if eqb_ascii c sep then Some (EmptyString, r)
      else match split1 sep r with
           | Some (a, b) => Some (String c a, b)
           | None => None
           end
  end.

(** [s.split()]: the maximal runs of characters that are not white space. *)
Fixpoint split_ws (s : string) : list string :=
  match s with
  | EmptyString => []
  | String c r =>
      if is_space c then split_ws r
      else match r with
           | EmptyString => [String c EmptyString]
           | String c' _ =>
               if is_space c' then String c EmptyString :: split_ws r
               else match split_ws r with
                    | h :: t => String c h :: t
                    | [] => [String c EmptyString]
                    end
           end
  end.

(** [sep.join(l)] *)
Fixpoint join (sep : string) (l : list string) : string :=
  match l with
  | [] => EmptyString
  | [x] => x
  | x :: r => x ++ sep ++ join sep r
  end.

(** The longest prefix of [s] whose characters satisfy [p], and the rest. *)
Fixpoint span (p : ascii -> bool) (s : string) : string * string :=
  match s with
  | EmptyString => (EmptyString, EmptyString)
  | String c r =>
      if p c then let '(a, b) := span p r in (String c a, b)
      else (EmptyString, s)
  end.

(** [s.startswith(p)] *)
Definition startswith (s p : string) : bool := String.prefix p s.

(** [sub in s] *)
Fixpoint contains (sub s : string) : bool :=
  if String.prefix sub s then true
  else match s with
       | EmptyString => false
       | String _ r => contains sub r
       end.

Fixpoint map (f : ascii -> ascii) (s : string) : string :=
  match s with
  | EmptyString => EmptyString
  | String c r => String (f c) (map f r)
  end.

(** [s.replace(a, b)] for one-character [a] and [b]. *)
Definition replace (a b : ascii) (s : string) : string :=
  map (fun c => if eqb_ascii c a then b else c) s.

Definition lower_ascii (c : ascii) : ascii :=
  let n := N_of_ascii c in
  if (((65 <=? n) && (n <=? 90))
      || ((192 <=? n) && (n <=? 222) && negb (n =? 215)))%N
  then ascii_of_N (n + 32) else c.

(** [s.lower()] on the code points below 256. *)
Definition lower (s : string) : string := map lower_ascii s.

(** The slices [s[i:]], [s[:i]] and [s[i:-j]] for non-negative [i], [j]. *)
Fixpoint drop (n : nat) (s : string) : string :=
  match n, s with
  | O, _ => s
  | S n', String _ r => drop n' r
  | S _, EmptyString => EmptyString
  end.

Fixpoint take (n : nat) (s : string) : string :=
  match n, s with
  | S n', String c r => String c (take n' r)
  | _, _ => EmptyString
  end.

Definition slice_inner (i j : nat) (s : string) : string :=
  take (String.length s - i - j) (drop i s).

(** [str(n)] for a non-negative integer. *)
Definition of_N (n : N) : string := NilZero.string_of_uint (N.to_uint n).

Definition of_nat (n : nat) : string := of_N (N.of_nat n).

End Str.

(** ** Dictionaries *)

Section Dict.
Context {K V : Type}.
Variable keq : K -> K -> bool.

Definition dict := list (K * V).

(** [d.get(k)] *)
Fixpoint dict_get (k : K) (d : dict) : option V :=
  match d with
  | [] => None
  | (k', v) :: r => if keq k k' then Some v else dict_get k r
  end.

(** [d[k]] *)
Definition dict_item (k : K) (d : dict) : result V :=
  match dict_get k d with
  | Some v => Ok v
  | None => Raise KeyError
  end.

(** [d[k] = v]: an existing key keeps its place, a new key goes last. *)
Fixpoint dict_set (k : K) (v : V) (d : dict) : dict :=
  match d with
  | [] => [(k, v)]
  | (k', v') :: r =>
      if keq k k' then (k', v) :: r else (k', v') :: dict_set k v r
  end.

Definition dict_remove (k : K) (d : dict) : dict :=
  filter (fun kv => negb (keq k (fst kv))) d.

(** [del d[k]] *)
Definition dict_del (k : K) (d : dict) : result dict :=
  match dict_get k d with
  | Some _ => Ok (dict_remove k d)
  | None => Raise KeyError
  end.

Definition dict_keys (d : dict) : list K := List.map fst d.

End Dict.
Arguments dict K V : clear implicits.

Definition sdict := dict string string.
Definition sget := @dict_get string string String.eqb.
Definition sset := @dict_set string string String.eqb.

(** ** The template tokenizer ([data_from_templates], lines 203-213) *)

Record occurrence : Type := mk_occurrence {
  name : string;
  data : sdict
}.

(** One round of [for key_value in key_values]: the state is the anonymous
    counter and the dictionary. *)
Definition tokenize_step (st : nat * sdict) (key_value : string) : nat * sdict :=
  let '(anon_counter, data) := st in
  match Str.split1 "=" key_value with
  | Some (key, value) =>
      (anon_counter, sset (Str.strip key) (Str.strip value) data)
  | None =>
      let anon_counter := S anon_counter in
      let key := "anon_" ++ Str.of_nat anon_counter in
      (anon_counter, sset (Str.strip key) (Str.strip key_value) data)
  end.

Definition tokenize (template_string : string) : string * sdict :=
  let parts := Str.split "|" template_string in
  let name := Str.strip (hd EmptyString parts) in
  let key_values := tl parts in
  (name, snd (fold_left tokenize_step key_values (0, []))).

(** ** Regular expressions

    The patterns of the module are sequences of single characters, greedy
    repetitions of a character class and one capturing group.  [exec] is a
    backtracking matcher for such sequences: a repetition first tries to
    take one more character and, when the rest of the pattern then fails,
    stops where it stands.  It returns the text of group 1 and the length of
    the match. *)

Module Re.

Inductive atom : Type :=
| Lit (c : ascii)          (* the character [c] *)
| NotIn (cs : string).     (* a character outside the set: a negated class *)

Inductive item : Type :=
| One (a : atom)
| Many (min : nat) (a : atom)   (* [a+] is [Many 1 a], [a*] is [Many 0 a] *)
| GroupOpen
| GroupClose.

Definition regex := list item.

Definition accepts (a : atom) (c : ascii) : bool :=
  match a with
  | Lit d => Str.eqb_ascii c d
  | NotIn cs => negb (Str.mem c cs)
  end.

Definition capture (in_group : bool) (captured : string) (c : ascii) : string :=
  if in_group then captured ++ String c EmptyString else captured.

Fixpoint exec (p : regex) (in_group : bool) (captured : string) (len : nat)
  (s : string) {struct p} : option (string * nat) :=
  match p with
  | [] => Some (captured, len)
  | GroupOpen :: p' => exec p' true EmptyString len s
  | GroupClose :: p' => exec p' false captured len s
  | One a :: p' =>
      match s with
      | String c r =>
          if accepts a c
          then exec p' in_group (capture in_group captured c) (S len) r
          else None
      | EmptyString => None
      end
  | Many min a :: p' =>
      (fix many (count : nat) (captured : string) (len : nat) (s : string)
         {struct s} : option (string * nat) :=
         let stop :=
           if Nat.leb min count then exec p' in_group captured len s else None in
         match s with
         | String c r =>
             if accepts a c then
               match many (S count) (capture in_group captured c) (S len) r with
               | Some m => Some m
               | None => stop
               end
             else stop
         | EmptyString => stop
         end) 0 captured len s
  end.

Definition matcher := string -> option (string * nat).

(** A match of the pattern that starts at the head of [s]. *)
Definition match_at (p : regex) : matcher := exec p false EmptyString 0.

(** The pattern of line 33: two opening brackets, group 1 of one or more
    characters other than a pipe or a closing bracket, two closing
    brackets. *)
Definition link_plain : regex :=
  [One (Lit "["); One (Lit "[");
   GroupOpen; Many 1 (NotIn "|]"); GroupClose;
   One (Lit "]"); One (Lit "]")].

(** The pattern of line 35: two opening brackets, one or more characters
    other than a pipe or a closing bracket, a pipe, group 1 of one or more
    characters other than a closing bracket, two closing brackets. *)
Definition link_renamed : regex :=
  [One (Lit "["); One (Lit "["); Many 1 (NotIn "|]"); One (Lit "|");
   GroupOpen; Many 1 (NotIn "]"); GroupClose;
   One (Lit "]"); One (Lit "]")].

(** [CURLY] (line 172): two opening braces, group 1 of any number of
    characters other than a closing brace, two closing braces. *)
Definition curly : regex :=
  [One (Lit "{"); One (Lit "{");
   GroupOpen; Many 0 (NotIn "}"); GroupClose;
   One (Lit "}"); One (Lit "}")].

(** [re.sub(pattern, r'\1', s)] for a pattern that matches no empty text:
    the text is read from left to right; at a position where the pattern
    matches, group 1 is written and the scan resumes after the match
    ([skip] counts the characters of the match still to pass over);
    elsewhere the character is copied. *)
Fixpoint sub_group1 (m : matcher) (skip : nat) (s : string) : string :=
  match s with
  | EmptyString => EmptyString
  | String c r =>
      match skip with
      | S k => sub_group1 m k r
      | O =>
          match m s with
          | Some (g, n) => g ++ sub_group1 m (n - 1) r
          | None => String c (sub_group1 m 0 r)
          end
      end
  end.

(** [pattern.finditer(s)] for a pattern that matches no empty text: start,
    end and group 1 of the successive non-overlapping matches. *)
Fixpoint finditer (m : matcher) (pos skip : nat) (s : string)
  : list (nat * nat * string) :=
  match s with
  | EmptyString => []
  | String c r =>
      match skip with
      | S k => finditer m (S pos) k r
      | O =>
          match m s with
          | Some (g, n) => (pos, pos + n, g) :: finditer m (S pos) (n - 1) r
          | None => finditer m (S pos) 0 r
          end
      end
  end.

End Re.

(** ** [clean_wiki_links] *)

Definition clean_wiki_links (s : string) : string :=
  let s := Re.sub_group1 (Re.match_at Re.link_plain) 0 s in
  let s := Re.sub_group1 (Re.match_at Re.link_renamed) 0 s in
  s.

(** ** [clean_ref]

    [pq(s)] parses a string into a markup tree (pyquery over lxml); the
    parser is outside the module and is a parameter below.  [contents()]
    lists the text and element children of a node in document order. *)

#[warnings="-register-all"]
Inductive node : Type :=
| Text (s : string)
| Element (tag : string) (children : list node).

(** [clean_ref(el)] for an element [el]: [pq(el).contents()] are the children
    of [el]. *)
Fixpoint clean_ref_element (el : node) : string :=
  match el with
  | Text s => Str.strip s
  | Element _ children =>
      Str.join " "
        ((fix walk (l : list node) : list string :=
            match l with
            | [] => []
            | Text t :: r => Str.strip t :: walk r
            | (Element tag _ as e) :: r =>
                if String.eqb tag "ref" then walk r
                else clean_ref_element e :: walk r
            end) children)
  end.

(** ** The nested-template escaper ([data_from_templates], lines 195-201) *)

Definition escape_step (template_string : string) (m : nat * nat * string)
  : string :=
  let '(start, stop, group1) := m in
  Str.take start template_string ++ "{{" ++ Str.replace "|" "~" group1 ++ "}}"
  ++ Str.drop stop template_string.

(** [CURLY.search] (line 195) finds a match exactly when [finditer] lists
    one; the matches are those of the string as it is before the loop. *)
Definition escape_nested (template_string : string) : string :=
  match Re.finditer (Re.match_at Re.curly) 0 0 template_string with
  | [] => template_string
  | matches => fold_left escape_step matches template_string
  end.

(** ** Python numbers: [int(s)], [float(s)] and [str] of a float *)

Module Num.

Definition float := spec_float.
Definition prec : Z := 53.
Definition emax : Z := 1024.

Definition fadd : float -> float -> float := SFadd prec emax.
Definition fdiv : float -> float -> float := SFdiv prec emax.
Definition fneg : float -> float := SFopp.

(** The float nearest to [m * 10^e] (ties to even), [m] positive. *)
Definition of_decimal (sign : bool) (m : positive) (e : Z) : float :=
  match e with
  | Zneg p =>
      SFdiv prec emax (S754_finite sign m 0)
            (S754_finite false (Pos.pow 10 p) 0)
  | _ => binary_round prec emax sign (m * Z.to_pos (10 ^ e)) 0
  end.

Definition of_Z (n : Z) : float :=
  match n with
  | Z0 => S754_zero false
  | Zpos p => of_decimal false p 0
  | Zneg p => of_decimal true p 0
  end.

(** The literals [60.0] and [3600.0]. *)
Definition f60 : float := of_Z 60.
Definition f3600 : float := of_Z 3600.

(** An underscore of a numeric string must stand between two digits; the
    string is then read without its underscores. *)
Fixpoint strip_underscores (prev_digit : bool) (s : string) : option string :=
  match s with
  | EmptyString => Some EmptyString
  | String c r =>
      if Str.eqb_ascii c "_" then
        match r with
        | String d _ =>
            if prev_digit && Str.is_digit d then strip_underscores false r
            else None
        | EmptyString => None
        end
      else
        match strip_underscores (Str.is_digit c) r with
        | Some r' => Some (String c r')
        | None => None
        end
  end.

Definition digit_value (c : ascii) : N := (N_of_ascii c - 48)%N.

(** Value and length of a string of decimal digits. *)
Fixpoint digits_value (acc : N) (s : string) : option N :=
  match s with
  | EmptyString => Some acc
  | String c r =>
      if Str.is_digit c then digits_value (10 * acc + digit_value c)%N r
      else None
  end.

Definition split_sign (s : string) : bool * string :=
  match s with
  | String "-" r => (true, r)
  | String "+" r => (false, r)
  | _ => (false, s)
  end.

(** The characters that [int] and [float] skip at both ends of a string:
    the ASCII white space (tab to carriage return, and the space), and the
    two other white space characters below 256 that have no ASCII code.
    The separators U+001C to U+001F, which [str.strip] removes, are not
    among them. *)
Definition is_number_space (c : ascii) : bool :=
  let n := N_of_ascii c in
  (((9 <=? n) && (n <=? 13)) || (n =? 32) || (n =? 133) || (n =? 160))%N.

Definition strip_number (s : string) : string :=
  Str.strip_by is_number_space s.

(** [int(s)] in base 10; [ValueError] on a malformed literal. *)
Definition py_int (s : string) : result Z :=
  match strip_underscores false (strip_number s) with
  | None => Raise ValueError
  | Some t =>
      let '(neg, digits) := split_sign t in
      match digits with
      | EmptyString => Raise ValueError
      | _ =>
          match digits_value 0 digits with
          | Some n => Ok (if neg then Z.opp (Z.of_N n) else Z.of_N n)
          | None => Raise ValueError
          end
      end
  end.

(** The exponent part of a float literal: empty, or [e] or [E], an optional
    sign and at least one digit. *)
Definition exponent_value (s : string) : option Z :=
  match s with
  | EmptyString => Some 0%Z
  | String c r =>
      if Str.eqb_ascii (Str.lower_ascii c) "e" then
        let '(neg, digits) := split_sign r in
        match digits with
        | EmptyString => None
        | _ =>
            match digits_value 0 digits with
            | Some n => Some (if neg then Z.opp (Z.of_N n) else Z.of_N n)
            | None => None
            end
        end
      else None
  end.

(** [float(s)]: white space is stripped; then an optional sign and either
    [inf], [infinity] or [nan] in any case, or a decimal literal with at
    least one digit in its integer or fraction part.  The value is the
    nearest binary64 number.  [ValueError] otherwise. *)
Definition py_float (s : string) : result float :=
  match strip_underscores false (strip_number s) with
  | None => Raise ValueError
  | Some t =>
      let '(neg, body) := split_sign t in
      let word := Str.lower body in
      if String.eqb word "inf" || String.eqb word "infinity"
      then Ok (S754_infinity neg)
      else if String.eqb word "nan" then Ok S754_nan
      else
        let '(int_part, rest) := Str.span Str.is_digit body in
        let '(frac_part, rest) :=
          match rest with
          | String "." r => Str.span Str.is_digit r
          | _ => (EmptyString, rest)
          end in
        match (int_part ++ frac_part)%string with
        | EmptyString => Raise ValueError
        | digits =>
            match digits_value 0 digits, exponent_value rest with
            | Some m, Some e =>
                match m with
                | N0 => Ok (S754_zero neg)
                | Npos p =>
                    Ok (of_decimal neg p
                          (e - Z.of_nat (String.length frac_part)))
                end
            | _, _ => Raise ValueError
            end
        end
  end.

(** *** [str(x)] for a float [x]

    Python 3 prints the shortest decimal string that reads back as [x],
    and among those the one nearest to [x]; the exponent form is used
    when the decimal point would fall more than 16 places to the right of
    the first digit or 4 or more places to its left. *)

Definition float_eqb (a b : float) : bool :=
  match a, b with
  | S754_zero s1, S754_zero s2 => Bool.eqb s1 s2
  | S754_infinity s1, S754_infinity s2 => Bool.eqb s1 s2
  | S754_nan, S754_nan => true
  | S754_finite s1 m1 e1, S754_finite s2 m2 e2 =>
      Bool.eqb s1 s2 && Pos.eqb m1 m2 && Z.eqb e1 e2
  | _, _ => false
  end.

(** [x = num / den] for the finite positive [m * 2^e]. *)
Definition ratio (m : positive) (e : Z) : Z * Z :=
  match e with
  | Zneg p => (Zpos m, 2 ^ Zpos p)
  | _ => (Zpos m * 2 ^ e, 1)
  end%Z.

(** [10^p <= num / den] *)
Definition ge_pow10 (num den p : Z) : bool :=
  match p with
  | Zneg q => (den <=? num * 10 ^ Zpos q)
  | _ => (10 ^ p * den <=? num)
  end%Z.

Fixpoint raise_log10 (fuel : nat) (num den p : Z) : Z :=
  match fuel with
  | O => p
  | S f => if ge_pow10 num den (p + 1) then raise_log10 f num den (p + 1)
           else p
  end.

(** The [p] with [10^p <= num / den < 10^(p+1)]. *)
Definition floor_log10 (num den : Z) : Z :=
  let l := (Z.log2 num - Z.log2 den)%Z in
  raise_log10 8 num den (((l - 1) * 30103) / 100000 - 2)%Z.

(** The decimal [d * 10^k] with [ndigits] digits that reads back as
    [S754_finite s m e] and is nearest to it, if there is one. *)
Definition candidate (s : bool) (m : positive) (e : Z) (ndigits : Z)
  : option (Z * Z) :=
  let '(num, den) := ratio m e in
  let k := (floor_log10 num den - (ndigits - 1))%Z in
  let '(n, d) :=
    match k with
    | Zneg q => (num * 10 ^ Zpos q, den)
    | _ => (num, den * 10 ^ k)
    end%Z in
  let lo := (n / d)%Z in
  let rem := (n mod d)%Z in
  let hi := (lo + 1)%Z in
  let back (c : Z) :=
    match c with
    | Zpos c' => float_eqb (of_decimal s c' k) (S754_finite s m e)
    | _ => false
    end in
  match back lo, back hi with
  | true, true =>
      match (2 * rem ?= d)%Z with
      | Lt => Some (lo, k)
      | Gt => Some (hi, k)
      | Eq => Some (if Z.even lo then lo else hi, k)
      end
  | true, false => Some (lo, k)
  | false, true => Some (hi, k)
  | false, false => None
  end.

Fixpoint shortest (fuel : nat) (s : bool) (m : positive) (e : Z)
  (ndigits : Z) : Z * Z :=
  match candidate s m e ndigits with
  | Some dk => dk
  | None =>
      match fuel with
      | O => (Zpos m, 0%Z)
      | S f => shortest f s m e (ndigits + 1)
      end
  end.

Fixpoint zeros (n : nat) : string :=
  match n with
  | O => EmptyString
  | S k => String "0" (zeros k)
  end.

Definition is_zero_char (c : ascii) : bool := Str.eqb_ascii c "0".

(** The digits of [d * 10^k] without trailing zeros, and the position of
    the decimal point relative to the first digit. *)
Definition digits_and_point (d k : Z) : string * Z :=
  let all := Str.of_N (Z.to_N d) in
  let digits := Str.rstrip_by is_zero_char all in
  (digits, (Z.of_nat (String.length all) + k)%Z).

Definition exponent_text (x : Z) : string :=
  let a := Str.of_N (Z.to_N (Z.abs x)) in
  let a := match a with
           | String _ EmptyString => String "0" a
           | _ => a
           end in
  ((if (x <? 0)%Z then "e-" else "e+") ++ a)%string.

Definition format_digits (digits : string) (decpt : Z) : string :=
  let n := Z.of_nat (String.length digits) in
  (if ((decpt <=? -4) || (16 <? decpt))%Z then
     match digits with
     | String c EmptyString => String c (exponent_text (decpt - 1))
     | String c r => String c ("." ++ r ++ exponent_text (decpt - 1))
     | EmptyString => EmptyString
     end
   else if (decpt <=? 0)%Z then
     "0." ++ zeros (Z.to_nat (- decpt)) ++ digits
   else if (n <=? decpt)%Z then
     digits ++ zeros (Z.to_nat (decpt - n)) ++ ".0"
   else
     Str.take (Z.to_nat decpt) digits ++ "." ++ Str.drop (Z.to_nat decpt) digits
  )%string.

(** [str(x)] *)
Definition float_str (x : float) : string :=
  match x with
  | S754_nan => "nan"
  | S754_infinity s => if s then "-inf" else "inf"
  | S754_zero s => if s then "-0.0" else "0.0"
  | S754_finite s m e =>
      let '(d, k) := shortest 17 s m e 1 in
      let '(digits, decpt) := digits_and_point d k in
      ((if s then "-" else EmptyString) ++ format_digits digits decpt)%string
  end.

End Num.

(** ** [extract_data_from_coord] *)

(** Keys of the template dictionary once positional parameters have been
    renumbered: the strings written in the template, or integers. *)
Inductive key : Type :=
| KStr (s : string)
| KInt (n : Z).

Definition key_eqb (a b : key) : bool :=
  match a, b with
  | KStr s, KStr t => String.eqb s t
  | KInt n, KInt m => Z.eqb n m
  | _, _ => false
  end.

Definition tdict := dict key string.
Definition tget := @dict_get key string key_eqb.
Definition titem := @dict_item key string key_eqb.
Definition tset := @dict_set key string key_eqb.
Definition tdel := @dict_del key string key_eqb.
Definition sitem := @dict_item string string String.eqb.
Definition sdel := @dict_del string string String.eqb.

Definition optionalpars : list string :=
  ["dim"; "globe"; "region"; "scale"; "source"; "type"; "display"].

(** The test of lines 95-96 over the whole list of optional parameters. *)
Definition is_optional (k v : string) : bool :=
  existsb (fun op => Str.contains op v || Str.contains op k) optionalpars.

(** [todel.add(k)] *)
Definition set_add (k : string) (s : list string) : list string :=
  if existsb (String.eqb k) s then s else s ++ [k].

(** Lines 93-98: one round of [for k, v in template.items()]. *)
Definition todel_step (todel : list string) (kv : string * string)
  : list string :=
  if is_optional (fst kv) (snd kv) then set_add (fst kv) todel else todel.

Definition todel_of (template : sdict) : list string :=
  fold_left todel_step template [].

(** Lines 100-101. *)
Fixpoint del_all (todel : list string) (template : sdict) : result sdict :=
  match todel with
  | [] => Ok template
  | k :: r => template <- sdel k template ;; del_all r template
  end.

Definition drop_optional (template : sdict) : result sdict :=
  del_all (todel_of template) template.

Definition anon_number (p : string) : result Z :=
  Num.py_int (Str.strip_chars "anon_" p).

(** Lines 104-106. *)
Fixpoint renumber (anonpars : list string) (template : tdict) : result tdict :=
  match anonpars with
  | [] => Ok template
  | ap :: r =>
      v <- titem (KStr ap) template ;;
      n <- anon_number ap ;;
      let template := tset (KInt n) v template in
      template <- tdel (KStr ap) template ;;
      renumber r template
  end.

Fixpoint map_result {A B : Type} (f : A -> result B) (l : list A)
  : result (list B) :=
  match l with
  | [] => Ok []
  | x :: r => y <- f x ;; ys <- map_result f r ;; Ok (y :: ys)
  end.

(** [min(l)] *)
Definition py_min (l : list Z) : result Z :=
  match l with
  | [] => Raise ValueError
  | x :: r => Ok (fold_left Z.min r x)
  end.

(** The variables assigned by lines 112-139. *)
Record dms : Type := mk_dms {
  gglat : Num.float; mmlat : Num.float; sslat : Num.float; dirlat : string;
  gglong : Num.float; mmlong : Num.float; sslong : Num.float; dirlong : string
}.

Definition fzero : Num.float := Num.of_Z 0.

(** [float(template[startpar+i])] *)
Definition read_num (template : tdict) (startpar i : Z) : result Num.float :=
  v <- titem (KInt (startpar + i)) template ;;
  Num.py_float v.

(** [str(template[startpar+i])] *)
Definition read_txt (template : tdict) (startpar i : Z) : result string :=
  titem (KInt (startpar + i)) template.

(** Lines 112-139: the first positional parameter is always read; the others
    by the number of positional parameters. *)
Definition read_dms (template : tdict) (startpar : Z) (parcount : nat)
  : result dms :=
  let num := read_num template startpar in
  let txt := read_txt template startpar in
  gglat <- num 0%Z ;;
  match parcount with
  | 2 =>
      gglong <- num 1%Z ;;
      Ok (mk_dms gglat fzero fzero EmptyString gglong fzero fzero EmptyString)
  | 4 =>
      dirlat <- txt 1%Z ;;
      gglong <- num 2%Z ;;
      dirlong <- txt 3%Z ;;
      Ok (mk_dms gglat fzero fzero dirlat gglong fzero fzero dirlong)
  | 6 =>
      mmlat <- num 1%Z ;;
      dirlat <- txt 2%Z ;;
      gglong <- num 3%Z ;;
      mmlong <- num 4%Z ;;
      dirlong <- txt 5%Z ;;
      Ok (mk_dms gglat mmlat fzero dirlat gglong mmlong fzero dirlong)
  | 8 =>
      mmlat <- num 1%Z ;;
      sslat <- num 2%Z ;;
      dirlat <- txt 3%Z ;;
      gglong <- num 4%Z ;;
      mmlong <- num 5%Z ;;
      sslong <- num 6%Z ;;
      dirlong <- txt 7%Z ;;
      Ok (mk_dms gglat mmlat sslat dirlat gglong mmlong sslong dirlong)
  | _ => Ok (mk_dms gglat fzero fzero EmptyString fzero fzero fzero EmptyString)
  end.

(** [gg + mm/60.0 + ss/3600.0] (lines 141-142). *)
Definition decimal_degrees (gg mm ss : Num.float) : Num.float :=
  Num.fadd (Num.fadd gg (Num.fdiv mm Num.f60)) (Num.fdiv ss Num.f3600).

(** Lines 144-147. *)
Definition signed (dir negative : string) (deg : Num.float) : Num.float :=
  if String.eqb dir negative then Num.fneg deg else deg.

(** Lines 141-151. *)
Definition coord_of_dms (f : dms) : sdict :=
  let coord := [("lat", EmptyString); ("lon", EmptyString)] in
  let deglat := decimal_degrees (gglat f) (mmlat f) (sslat f) in
  let deglong := decimal_degrees (gglong f) (mmlong f) (sslong f) in
  let deglat := signed (dirlat f) "S" deglat in
  let deglong := signed (dirlong f) "W" deglong in
  let coord := sset "lat" (Num.float_str deglat) coord in
  let coord := sset "lon" (Num.float_str deglong) coord in
  coord.

Definition with_str_keys (template : sdict) : tdict :=
  List.map (fun kv => (KStr (fst kv), snd kv)) template.

(** Lines 103-110, on the dictionary left by lines 93-101: the renumbered
    dictionary, [startpar] and [parcount]. *)
Definition positional_view (template : sdict) : result (tdict * Z * nat) :=
  let anonpars :=
    filter (fun tpar => Str.contains "anon_" tpar) (dict_keys template) in
  template <- renumber anonpars (with_str_keys template) ;;
  parsnums <- map_result anon_number anonpars ;;
  let parcount := List.length anonpars in
  startpar <- py_min parsnums ;;
  Ok (template, startpar, parcount).

(** Lines 103-151. *)
Definition resolve_positional (template : sdict) : result sdict :=
  view <- positional_view template ;;
  let '(template, startpar, parcount) := view in
  f <- read_dms template startpar parcount ;;
  Ok (coord_of_dms f).

Definition extract_data_from_coord (template : sdict) : result sdict :=
  template <- drop_optional template ;;
  resolve_positional template.

(** ** The collaborators outside the module

    The markup scanner ([mwparserfromhell]), the markup parser behind [pq]
    ([pyquery] over [lxml]), the DMS parser ([coordinates.parseDMS]) and the
    remote API are not part of the module: the functions that call them take
    them as parameters. *)

(** [name.lower().replace('_', ' ')] (line 214). *)
Definition cleaned (name : string) : string :=
  Str.replace "_" " " (Str.lower name).

(** Lines 157-159: the values of the wanted fields, [''] for a field that
    the dictionary lacks. *)
Definition looked_up (data : sdict) (coords_fiels : list (list string))
  : list string :=
  let wanted_fields := List.concat coords_fiels in
  List.map (fun field => match sget field data with
                         | Some v => v
                         | None => EmptyString
                         end) wanted_fields.

(** [any(values)] *)
Definition any_value (values : list string) : bool :=
  existsb (fun v => negb (String.eqb v EmptyString)) values.

(** [parseDMS( *values )] *)
Definition dms_parser : Type := list string -> result (list sdict).

Record listing : Type := mk_listing {
  embeddedin : list string;          (* the titles of ['query']['embeddedin'] *)
  query_continue : option string     (* ['query-continue']['embeddedin']['eicontinue'] *)
}.

Section Collaborators.

(** [mwparserfromhell.parse(content).filter_templates()], each template as
    its text, delimiters included. *)
Variable filter_templates : string -> list string.

(** The root element of [pq(s)] for a string [s]. *)
Variable fromstring : string -> result node.

(** [from coordinates import parseDMS] (line 155): the function that the
    import binds, or the exception that the import raises. *)
Variable import_parseDMS : result dms_parser.

(** [get_wikitext_from_api(page, lang)] *)
Variable get_wikitext_from_api : string -> string -> result string.

(** The answer to the [embeddedin] request for a template, a language and
    an optional continuation token. *)
Variable embeddedin_request :
  string -> string -> option string -> result listing.

(** *** [clean_ref] on a string *)
Definition clean_ref (s : string) : result string :=
  text <- fromstring s ;;
  Ok (clean_ref_element text).

(** The order in which [data_from_templates] applies the two cleaners
    (lines 192 and 194). *)
Definition normalize (s : string) : result string :=
  s <- clean_ref s ;;
  Ok (clean_wiki_links s).

(** *** [augment_data_with_coords]

    The dictionary is updated in place, so the function returns the
    dictionary it leaves behind, its return value ([False] or [None]) and
    the records it has logged.  The import of line 155 comes first, outside
    the [try]: when it raises, so does the function. *)

(** The body of the [try] (lines 165-167), with the dictionary as it stands
    when the body ends or raises. *)
Definition augment_try (parseDMS : dms_parser) (data : sdict)
  (values : list string) : sdict * result unit :=
  match parseDMS values with
  | Raise e => (data, Raise e)
  | Ok parsed =>
      match parsed with
      | [] => (data, Raise IndexError)
      | coords_data :: _ =>
          match sitem "dec-long" coords_data with
          | Raise e => (data, Raise e)
          | Ok lon =>
              let data := sset "lon" lon data in
              match sitem "dec-lat" coords_data with
              | Raise e => (data, Raise e)
              | Ok lat => (sset "lat" lat data, Ok tt)
              end
          end
      end
  end.

Definition augment_data_with_coords
  (data : sdict) (coords_fiels : list (list string))
  : result (sdict * option bool * list string) :=
  parseDMS <- import_parseDMS ;;
  let values := looked_up data coords_fiels in
  if negb (any_value values)
  then Ok (data, Some false, [])
  else
    match augment_try parseDMS data values with
    | (data, Ok _) => Ok (data, None, [])
    | (data, Raise _) => Ok (data, None, ["Can't find coordinates"])
    end.

(** *** [data_from_templates] *)

Definition extra_coords_t := option (dict string (list (list string))).

(** One round of the loop of lines 190-221; the result is the occurrence
    appended to [store] and the records logged. *)
Definition process_template (extra_coords : extra_coords_t)
  (template_string : string) : result (occurrence * list string) :=
  let template_string := Str.slice_inner 2 2 template_string in
  template_string <- clean_ref template_string ;;
  let template_string := clean_wiki_links template_string in
  let template_string := escape_nested template_string in
  let '(name, data) := tokenize template_string in
  let cleaned_name := cleaned name in
  data <- (if String.eqb cleaned_name "coord"
           then extract_data_from_coord data else Ok data) ;;
  r <- match extra_coords with
       | Some ((_ :: _) as groups) =>
           match dict_get String.eqb cleaned_name groups with
           | Some fields =>
               r <- augment_data_with_coords data fields ;;
               Ok (fst (fst r), snd r)
           | None => Ok (data, [])
           end
       | _ => Ok (data, [])
       end ;;
  Ok (mk_occurrence name (fst r), snd r).

Fixpoint process_all (extra_coords : extra_coords_t) (spans : list string)
  (store : list occurrence) (log : list string)
  : result (list occurrence * list string) :=
  match spans with
  | [] => Ok (store, log)
  | template_string :: rest =>
      r <- process_template extra_coords template_string ;;
      process_all extra_coords rest (store ++ [fst r]) (log ++ snd r)
  end.

Definition data_from_templates (page lang : string)
  (extra_coords : extra_coords_t) (wikitext : option string)
  : result (list occurrence * list string) :=
  text <- match wikitext with
          | None => get_wikitext_from_api page lang
          | Some w => Ok w
          end ;;
  let content := Str.join " " (Str.split_ws text) in
  process_all extra_coords (filter_templates content) [] [].

(** *** [pages_with_template] *)

(** Lines 242-253; the literals of lines 246 and 247 stand next to each other
    with no comma and make one string. *)
Definition skip_page : list string :=
  ["user:";
   "utente:";
   "user_talk:" ++ "discussioni_utente:";
   "template:";
   "template_talk:";
   "discussioni_template:"].

(** The condition of line 270. *)
Definition kept (title : string) : bool :=
  negb (existsb (Str.startswith (Str.lower title)) skip_page).

(** [fuel] bounds the depth of the recursion, as the interpreter does. *)
Fixpoint pages_with_template (fuel : nat) (template lang : string)
  (eicontinue : option string) (skip_users_and_templates : bool)
  : result (list string) :=
  match fuel with
  | O => Raise OtherError
  | S fuel =>
      let token := match eicontinue with
                   | Some EmptyString => None
                   | t => t
                   end in
      res <- embeddedin_request template lang token ;;
      let titles :=
        if skip_users_and_templates
        then filter kept (embeddedin res)
        else embeddedin res in
      match query_continue res with
      | Some (String _ _ as eicontinue) =>
          more <- pages_with_template fuel template lang (Some eicontinue)
                    skip_users_and_templates ;;
          Ok (titles ++ more)%list
      | _ => Ok titles
      end
  end.

End Collaborators.

(** ** Stand-ins for the collaborators

    The statements below hold for every scanner and parser that behave as
    their hypotheses say.  The following definitions instantiate them. *)

(** Modelled from the spec: the markup span scanner, which "produces a
    finite sequence of raw template spans (including the delimiters) in
    document order, correctly respecting nesting"; the driver "consumes that
    scanner's output of top-level template spans".  [depth] counts the open
    double braces and [cur] is the text of the span being read. *)
Fixpoint scan_templates (depth : nat) (cur : string) (skip : bool) (s : string)
  : list string :=
  match s with
  | EmptyString => []
  | String c r =>
      if skip then scan_templates depth cur false r
      else
        match c, r with
        | "{"%char, String "{" _ =>
            scan_templates (S depth) (cur ++ "{{") true r
        | "}"%char, String "}" _ =>
            match depth with
            | 0 => scan_templates 0 EmptyString true r
            | 1 => (cur ++ "}}") :: scan_templates 0 EmptyString true r
            | S d => scan_templates d (cur ++ "}}") true r
            end
        | _, _ =>
            match depth with
            | 0 => scan_templates 0 EmptyString false r
            | _ => scan_templates depth (cur ++ String c EmptyString) false r
            end
        end
  end.

Definition top_level_templates (content : string) : list string :=
  scan_templates 0 EmptyString false content.

(** Modelled from the spec: the markup parser on a fragment that holds no
    element, whose content is "literal text": one text node under the root
    element. *)
Definition fromstring_text (s : string) : result node :=
  Ok (Element "p" [Text s]).

(** A DMS parser that rejects its arguments. *)
Definition parseDMS_reject (values : list string) : result (list sdict) :=
  Raise ValueError.

(** The import of line 155 where no module [coordinates] is installed. *)
Definition no_coordinates : result dms_parser := Raise ImportError.

(** A wikitext source that knows no page. *)
Definition no_page (page lang : string) : result string := Raise ValueError.

(** A listing API that answers with one page of titles and no continuation
    token. *)
Definition one_page (titles : list string)
  (template lang : string) (eicontinue : option string) : result listing :=
  Ok (mk_listing titles None).

(** ** The tokenizer, as the specification words it *)

Definition lacks_eq (segment : string) : bool :=
  match Str.split1 "=" segment with
  | None => true
  | Some _ => false
  end.

Definition anon_key (n : nat) : string := "anon_" ++ Str.of_nat n.

(** The assignment made for a segment, given the segments before it: a
    segment without [=] gets the next anonymous key, numbered from 1 over the
    earlier segments without [=]; another one is cut at its first [=]. *)
Definition assignment (before : list string) (segment : string)
  : string * string :=
  match Str.split1 "=" segment with
  | None =>
      (anon_key (S (List.length (filter lacks_eq before))), Str.strip segment)
  | Some (k, v) => (Str.strip k, Str.strip v)
  end.

Fixpoint assignments (before segments : list string) : list (string * string) :=
  match segments with
  | [] => []
  | segment :: rest =>
      assignment before segment :: assignments (before ++ [segment]) rest
  end.

Definition assign (d : sdict) (kv : string * string) : sdict :=
  sset (fst kv) (snd kv) d.

(** The keys synthesized for the segments without [=], in body order. *)
Fixpoint anonymous_keys (before segments : list string) : list string :=
  match segments with
  | [] => []
  | segment :: rest =>
      (if lacks_eq segment then [fst (assignment before segment)] else [])
      ++ anonymous_keys (before ++ [segment]) rest
  end%list.

(** ** The positional parameters that [read_dms] reads

    For each number of positional parameters, the offsets from [startpar]
    that lines 112-139 look up, and whether the value is passed to
    [float]. *)
Definition needed (parcount : nat) : list (Z * bool) :=
  match parcount with
  | 2 => [(0, true); (1, true)]%Z
  | 4 => [(0, true); (1, false); (2, true); (3, false)]%Z
  | 6 => [(0, true); (1, true); (2, false); (3, true); (4, true); (5, false)]%Z
  | 8 => [(0, true); (1, true); (2, true); (3, false);
          (4, true); (5, true); (6, true); (7, false)]%Z
  | _ => [(0, true)]%Z
  end.

Definition is_raise {A : Type} (r : result A) : bool :=
  match r with
  | Raise _ => true
  | Ok _ => false
  end.

(** A needed parameter is unusable when it is missing from the dictionary,
    or when it is read as a number and [float] rejects it. *)
Definition unusable (template : tdict) (startpar : Z) (req : Z * bool) : bool :=
  match tget (KInt (startpar + fst req)) template with
  | None => true
  | Some v => snd req && is_raise (Num.py_float v)
  end.

(** The entries that lines 93-101 are to keep. *)
Definition mandatory (kv : string * string) : bool :=
  negb (is_optional (fst kv) (snd kv)).

(** No optional-parameter token occurs in [v]. *)
Definition no_token (v : string) : bool :=
  negb (existsb (fun op => Str.contains op v) optionalpars).

(** Every character of [s] satisfies [p]. *)
Fixpoint all_chars (p : ascii -> bool) (s : string) : bool :=
  match s with
  | EmptyString => true
  | String c r => p c && all_chars p r
  end.

(** ** [get_wikitext_from_api] and [pages_in_category]

    Both functions are written around a request to the remote API, which is
    a parameter; so is [unquote] of [urllib]. *)

(** A value of [res.json()['query']['pages']]: the list under its key
    ['revisions'], when it has the key, each revision with the text under
    its key ['*'], when it has the key. *)
Record page_json : Type := mk_page {
  revisions : option (list (option string))
}.

(** [list(json_pages.values())[0]['revisions'][0]['*']] (line 74). *)
Definition first_revision (json_pages : list page_json) : result string :=
  match json_pages with
  | [] => Raise IndexError
  | p :: _ =>
      match revisions p with
      | None => Raise KeyError
      | Some [] => Raise IndexError
      | Some (None :: _) => Raise KeyError
      | Some (Some content :: _) => Ok content
      end
  end.

(** An item of [res.json()['query']['categorymembers']]. *)
Record member : Type := mk_member {
  title : string;
  ns : Z
}.

Record category_listing : Type := mk_category_listing {
  categorymembers : list member;
  cm_continue : option string   (* ['query-continue']['categorymembers']['cmcontinue'] *)
}.

(** [if token:] for a value that is [None] or a string. *)
Definition truthy (token : option string) : bool :=
  match token with
  | Some (String _ _) => true
  | _ => false
  end.

(** The parameter sent for a continuation token: none for a falsy one. *)
Definition sent (token : option string) : option string :=
  if truthy token then token else None.

(** [s.encode('utf-8')] on the code points below 256. *)
Fixpoint encode_utf8 (s : string) : string :=
  match s with
  | EmptyString => EmptyString
  | String c r =>
      let n := N_of_ascii c in
      if (n <? 128)%N then String c (encode_utf8 r)
      else String (ascii_of_N (192 + n / 64))
             (String (ascii_of_N (128 + n mod 64)) (encode_utf8 r))
  end.

(** [x in l] for strings. *)
Definition in_list (x : string) (l : list string) : bool :=
  existsb (String.eqb x) l.

(** Line 314-317: the titles of the members in namespace 0. *)
Definition member_pages (members : list member) : list string :=
  List.map (fun x => encode_utf8 (title x))
           (filter (fun x => Z.eqb (ns x) 0) members).

(** Lines 318-320: the members in namespace 14 whose title is not in
    [visitedcats], with underscores for spaces. *)
Definition member_subcats (members : list member) (visitedcats : list string)
  : list string :=
  List.map (fun x => Str.replace " " "_" (title x))
           (filter (fun x => Z.eqb (ns x) 14
                             && negb (in_list (title x) visitedcats))
                   members).

Section Remote.

(** [urllib.unquote] / [urllib.parse.unquote] *)
Variable unquote : string -> string.

(** [res.json()['query']['pages'].values()] for the request of lines 58-71,
    given the [titles] parameter and the language. *)
Variable revisions_request : string -> string -> result (list page_json).

(** [res.json()['query']] for the request of lines 299-313, given the
    category, the language and the [cmcontinue] parameter. *)
Variable categorymembers_request :
  string -> string -> option string -> result category_listing.

Definition get_wikitext_from_api (page lang : string) : result string :=
  json_pages <- revisions_request (unquote (Str.replace " " "_" page)) lang ;;
  match first_revision json_pages with
  | Ok text => Ok text
  | Raise _ => Raise ValueError
  end.

(** [pages_in_category]: the list [visitedcats] is shared with the recursive
    calls and appended to in place, so the function returns it with its
    result.  The argument [subcats] of the source is overwritten before it
    is read and is left out; the list [result] of the source is [pages].
    [fuel] bounds the depth of the recursion. *)
Fixpoint pages_in_category (fuel : nat) (catname lang : string) (maxdepth : Z)
  (cmcontinue : option string) (visitedcats : option (list string))
  : result (list string * list string) :=
  match fuel with
  | O => Raise OtherError
  | S fuel =>
      let visitedcats := match visitedcats with
                         | None => []
                         | Some l => l
                         end in
      res <- categorymembers_request catname lang (sent cmcontinue) ;;
      let pages := member_pages (categorymembers res) in
      let subcats := member_subcats (categorymembers res) visitedcats in
      let cmcontinue := cm_continue res in
      st <- (if truthy cmcontinue then
               r <- pages_in_category fuel catname lang maxdepth cmcontinue
                      (Some visitedcats) ;;
               Ok (pages ++ fst r, snd r)%list
             else Ok (pages, visitedcats)) ;;
      let maxdepth := (maxdepth - 1)%Z in
      if (0 <=? maxdepth)%Z then
        (fix each (cats : list string) (pages visitedcats : list string)
           {struct cats} : result (list string * list string) :=
           match cats with
           | [] => Ok (pages, visitedcats)
           | cat :: rest =>
               r <- pages_in_category fuel cat lang maxdepth cmcontinue
                      (Some visitedcats) ;;
               each rest (pages ++ fst r)%list (snd r ++ [cat])%list
           end) subcats (fst st) (snd st)
      else Ok st
  end.

End Remote.

(** ** Writing a template body

    The body of a template with the given name and parameter segments, and
    the segment of a named parameter. *)
Definition body_of (name : string) (segments : list string) : string :=
  Str.join "|" (name :: segments).

Definition named (kv : string * string) : string :=
  fst kv ++ "=" ++ snd kv.

Definition trimmed (kv : string * string) : string * string :=
  (Str.strip (fst kv), Str.strip (snd kv)).

(** The last value assigned to [k] in a list of assignments. *)
Definition last_assigned (k : string) (l : list (string * string))
  : option string :=
  option_map snd (find (fun kv => String.eqb k (fst kv)) (rev l)).

(** ** The repetition of [Re.exec], on its own *)

Definition capture_all (in_group : bool) (captured t : string) : string :=
  if in_group then captured ++ t else captured.

Definition many_loop (p' : Re.regex) (in_group : bool) (min : nat)
  (a : Re.atom) : nat -> string -> nat -> string -> option (string * nat) :=
  fix many (count : nat) (captured : string) (len : nat) (s : string)
    {struct s} : option (string * nat) :=
    let stop :=
      if Nat.leb min count then Re.exec p' in_group captured len s
      else None in
    match s with
    | String c r =>
        if Re.accepts a c then
          match many (S count) (Re.capture in_group captured c) (S len) r with
          | Some m => Some m
          | None => stop
          end
        else stop
    | EmptyString => stop
    end.

(** ** Text with links

    A text made of plain pieces and of links in the two forms of the
    docstring of [clean_wiki_links], as it is written and as it is to be
    shown. *)
Inductive piece : Type :=
| Plain (text : string)
| Link (target : string)
| Renamed (target shown : string).

Definition written (p : piece) : string :=
  match p with
  | Plain text => text
  | Link target => "[[" ++ target ++ "]]"
  | Renamed target shown => "[[" ++ target ++ "|" ++ shown ++ "]]"
  end.

Definition shown_as (p : piece) : string :=
  match p with
  | Plain text => text
  | Link target => target
  | Renamed _ shown => shown
  end.

Definition no_char (c : ascii) (s : string) : bool := negb (Str.mem c s).

Definition nonempty (s : string) : bool :=
  match s with
  | EmptyString => false
  | String _ _ => true
  end.

(** A plain piece holds no opening bracket; a target is not empty and holds
    no bracket and no pipe; a shown text is not empty and holds no
    bracket. *)
Definition well_formed (p : piece) : bool :=
  match p with
  | Plain text => no_char "[" text
  | Link target =>
      nonempty target && no_char "[" target && no_char "|" target
      && no_char "]" target
  | Renamed target shown =>
      nonempty target && no_char "[" target && no_char "|" target
      && no_char "]" target
      && nonempty shown && no_char "[" shown && no_char "]" shown
  end.

Fixpoint concat_map (f : piece -> string) (l : list piece) : string :=
  match l with
  | [] => EmptyString
  | p :: r => f p ++ concat_map f r
  end.

(** What the first substitution of [clean_wiki_links] leaves of a piece. *)
Definition after_first (p : piece) : string :=
  match p with
  | Link target => target
  | _ => written p
  end.

(** The character classes and the patterns of the two substitutions. *)
Definition link_class : Re.atom := Re.NotIn "|]".
Definition shown_class : Re.atom := Re.NotIn "]".
Definition brace_class : Re.atom := Re.NotIn "}".

Definition is_link_pattern (p : Re.regex) : Prop :=
  p = Re.link_plain \/ p = Re.link_renamed.

(** ** The escaper in one pass

    The text read from left to right: at a match of [CURLY] the braces are
    copied and the pipes of group 1 replaced, and the scan resumes after
    the match. *)
Fixpoint tilde_pass (skip : nat) (s : string) : string :=
  match s with
  | EmptyString => EmptyString
  | String c r =>
      match skip with
      | S k => tilde_pass k r
      | O =>
          match Re.match_at Re.curly s with
          | Some (g, n) =>
              "{{" ++ Str.replace "|" "~" g ++ "}}" ++ tilde_pass (n - 1) r
          | None => String c (tilde_pass 0 r)
          end
      end
  end.

(** The segments of a body after its name, each behind its pipe. *)
Fixpoint piped (segments : list string) : string :=
  match segments with
  | [] => EmptyString
  | s :: r => "|" ++ s ++ piped r
  end.

(** A template nested in a body, as written and as the escaper leaves it. *)
Definition nested (inner : string) : string := "{{" ++ inner ++ "}}".

Definition escaped (inner : string) : string :=
  "{{" ++ Str.replace "|" "~" inner ++ "}}".

(** ** Markup trees without references

    The children that [clean_ref] visits, and a tree with every [ref]
    element below its root cut out, at every depth. *)
Fixpoint clean_ref_children (l : list node) : list string :=
  match l with
  | [] => []
  | Text t :: r => Str.strip t :: clean_ref_children r
  | (Element tag _ as e) :: r =>
      if String.eqb tag "ref" then clean_ref_children r
      else clean_ref_element e :: clean_ref_children r
  end.

Definition is_ref (n : node) : bool :=
  match n with
  | Element tag _ => String.eqb tag "ref"
  | Text _ => false
  end.

Fixpoint prune_refs (n : node) : node :=
  match n with
  | Text s => Text s
  | Element tag children =>
      Element tag
        ((fix prune (l : list node) : list node :=
            match l with
            | [] => []
            | c :: r =>
                if is_ref c then prune r else prune_refs c :: prune r
            end) children)
  end.

Definition prune_children (l : list node) : list node :=
  (fix prune (l : list node) : list node :=
     match l with
     | [] => []
     | c :: r => if is_ref c then prune r else prune_refs c :: prune r
     end) l.

Fixpoint has_ref (n : node) : bool :=
  match n with
  | Text _ => false
  | Element _ children =>
      (fix any (l : list node) : bool :=
         match l with
         | [] => false
         | c :: r => is_ref c || has_ref c || any r
         end) children
  end.

(** ** Positional entries

    The entries of a template dictionary whose key holds [anon_]. *)
Definition positional (kv : string * string) : bool :=
  Str.contains "anon_" (fst kv).

(** The keys that the resolver looks up once it has renumbered: the integers,
    and the strings that hold [anon_]. *)
Definition relevant (k : key) : bool :=
  match k with
  | KInt _ => true
  | KStr s => Str.contains "anon_" s
  end.

Definition same_positional (t1 t2 : tdict) : Prop :=
  forall k, relevant k = true -> tget k t1 = tget k t2.

(** The exceptions of a failed conversion or lookup. *)
Definition lookup_or_value (e : exn) : Prop := e = ValueError \/ e = KeyError.

(** ** Stand-ins and reading aids for the remote functions *)

(** A DMS parser that answers with one result. *)
Definition parseDMS_fixed (lon lat : string) (values : list string)
  : result (list sdict) :=
  Ok [[("dec-long", lon); ("dec-lat", lat)]].

(** The outcomes of [process_template] on the spans, in order. *)
Definition processed (fromstring : string -> result node)
  (import_parseDMS : result dms_parser)
  (extra_coords : extra_coords_t)
  (spans : list string) (rs : list (occurrence * list string)) : Prop :=
  Forall2 (fun span r =>
             process_template fromstring import_parseDMS extra_coords span = Ok r)
          spans rs.

(** The pages of titles that the [embeddedin] requests answer with, from a
    continuation token on, until an answer carries no token. *)
Inductive embeddedin_chain
  (request : string -> string -> option string -> result listing)
  (template lang : string) : option string -> list (list string) -> Prop :=
| chain_last token titles next :
    request template lang (sent token) = Ok (mk_listing titles next) ->
    truthy next = false ->
    embeddedin_chain request template lang token [titles]
| chain_next token titles next rest :
    request template lang (sent token) = Ok (mk_listing titles next) ->
    truthy next = true ->
    embeddedin_chain request template lang next rest ->
    embeddedin_chain request template lang token (titles :: rest).

(** The same for the [categorymembers] requests of one category. *)
Inductive category_chain
  (request : string -> string -> option string -> result category_listing)
  (catname lang : string) : option string -> list (list member) -> Prop :=
| cat_chain_last token members next :
    request catname lang (sent token)
    = Ok (mk_category_listing members next) ->
    truthy next = false ->
    category_chain request catname lang token [members]
| cat_chain_next token members next rest :
    request catname lang (sent token)
    = Ok (mk_category_listing members next) ->
    truthy next = true ->
    category_chain request catname lang next rest ->
    category_chain request catname lang token (members :: rest).

(** A title is listed when some answer of the API holds it for a member in
    namespace 0. *)
Definition listed
  (request : string -> string -> option string -> result category_listing)
  (lang : string) (page : string) : Prop :=
  exists catname token res x,
    request catname lang token = Ok res
    /\ In x (categorymembers res)
    /\ ns x = 0%Z
    /\ page = encode_utf8 (title x).

(** A category listing API that answers every request with the same members
    and no continuation token. *)
Definition one_category (members : list member)
  (catname lang : string) (cmcontinue : option string)
  : result category_listing :=
  Ok (mk_category_listing members None).

(** A listing API that answers the first request with a page of titles and a
    continuation token, and a request with a token with a last page. *)
Definition two_pages (first second : list string)
  (template lang : string) (eicontinue : option string) : result listing :=
  match eicontinue with
  | None => Ok (mk_listing first (Some "next"))
  | Some _ => Ok (mk_listing second None)
  end.

(** The loop of lines 336-343 over the subcategories, given the recursive
    call. *)
Definition each_subcat
  (call : string -> option (list string) -> result (list string * list string))
  : list string -> list string -> list string
    -> result (list string * list string) :=
  fix each (cats pages visitedcats : list string) {struct cats} :=
    match cats with
    | [] => Ok (pages, visitedcats)
    | cat :: rest =>
        r <- call cat (Some visitedcats) ;;
        each rest (pages ++ fst r)%list (snd r ++ [cat])%list
    end.

(** [visitedcats] once line 307-308 have run. *)
Definition visited_list (visitedcats : option (list string)) : list string :=
  match visitedcats with
  | None => []
  | Some l => l
  end.

(** A name is a listed subcategory when some answer of the API holds it,
    with spaces for its underscores, for a member in namespace 14. *)
Definition listed_subcat
  (request : string -> string -> option string -> result category_listing)
  (lang : string) (cat : string) : Prop :=
  exists catname token res x,
    request catname lang token = Ok res
    /\ In x (categorymembers res)
    /\ ns x = 14%Z
    /\ cat = Str.replace " " "_" (title x).

(** A category listing API that answers from a table of categories, with no
    continuation token; a category that the table lacks has no member. *)
Definition category_table (table : list (string * list member))
  (catname lang : string) (cmcontinue : option string)
  : result category_listing :=
  match dict_get String.eqb catname table with
  | Some members => Ok (mk_category_listing members None)
  | None => Ok (mk_category_listing [] None)
  end.

(** What a call leaves: pages that are listed, and the visited list with
    listed subcategories added at its end. *)
Definition crawl_result
  (request : string -> string -> option string -> result category_listing)
  (lang : string) (visited : list string)
  (out : list string * list string) : Prop :=
  Forall (listed request lang) (fst out)
  /\ exists added,
       snd out = (visited ++ added)%list
       /\ Forall (listed_subcat request lang) added.

(** * Properties *)

(** ** The functions on the inputs named by the specification *)

Example tokenize_infobox :
  tokenize "Infobox|Name=Foo|Population=100|Foo bar"
  = ("Infobox", [("Name", "Foo"); ("Population", "100"); ("anon_1", "Foo bar")]).
Proof. vm_compute. reflexivity. Qed.

Example clean_wiki_links_plain : clean_wiki_links "[[Page]]" = "Page".
Proof. reflexivity. Qed.

Example clean_wiki_links_renamed :
  clean_wiki_links "See [[A|B]] and [[C]]" = "See B and C".
Proof. reflexivity. Qed.

Example clean_ref_drops_ref :
  clean_ref_element
    (Element "p" [Text "Rome "; Element "ref" [Text "a source"];
                  Element "b" [Text " is "; Element "i" [Text "old"]]])
  = "Rome is old".
Proof. reflexivity. Qed.

(** The repetition gives back characters when the rest of the pattern fails
    after the longest run. *)
Example exec_backtracks :
  Re.match_at [Re.GroupOpen; Re.Many 1 (Re.NotIn "]"); Re.GroupClose;
               Re.One (Re.Lit "c")] "abcab"
  = Some ("ab", 3).
Proof. reflexivity. Qed.

Example link_plain_nested :
  Re.match_at Re.link_plain "[[[[A]]]]" = Some ("[[A", 7).
Proof. reflexivity. Qed.

Example curly_innermost_first :
  Re.finditer (Re.match_at Re.curly) 0 0 "a|{{b|{{c|d}}|e}}"
  = [(2, 13, "b|{{c|d")].
Proof. reflexivity. Qed.

Example escape_nested_inner :
  escape_nested "Outer|{{Inner|x|y}}|z" = "Outer|{{Inner~x~y}}|z".
Proof. reflexivity. Qed.

Example coord_two_args :
  extract_data_from_coord [("anon_1", "45.5"); ("anon_2", "9.2")]
  = Ok [("lat", "45.5"); ("lon", "9.2")].
Proof. vm_compute. reflexivity. Qed.

Example coord_eight_args :
  extract_data_from_coord
    [("anon_1", "43"); ("anon_2", "46"); ("anon_3", "24"); ("anon_4", "N");
     ("anon_5", "11"); ("anon_6", "15"); ("anon_7", "0"); ("anon_8", "E")]
  = Ok [("lat", "43.77333333333333"); ("lon", "11.25")].
Proof. vm_compute. reflexivity. Qed.

(** With a number of positional parameters other than 2, 4, 6 or 8 only the
    first one is read. *)
Example coord_three_args :
  extract_data_from_coord [("anon_1", "41"); ("anon_2", "12"); ("anon_3", "N")]
  = Ok [("lat", "41.0"); ("lon", "0.0")].
Proof. vm_compute. reflexivity. Qed.

Example coord_gap_in_positions :
  extract_data_from_coord
    [("anon_1", "41"); ("anon_2", "type:city"); ("anon_3", "12")]
  = Raise KeyError.
Proof. vm_compute. reflexivity. Qed.

Example coord_not_a_number :
  extract_data_from_coord [("anon_1", "abc"); ("anon_2", "9.2")]
  = Raise ValueError.
Proof. vm_compute. reflexivity. Qed.

Example float_str_samples :
  List.map (fun s => match Num.py_float s with
                     | Ok x => Num.float_str x
                     | Raise _ => "ValueError"
                     end)
    ["41"; "9.2"; " 0.1 "; "1e16"; "1e-5"; "-0"; "1_000.5"; "inf"; "x"; EmptyString]
  = ["41.0"; "9.2"; "0.1"; "1e+16"; "1e-05"; "-0.0"; "1000.5"; "inf";
     "ValueError"; "ValueError"].
Proof. vm_compute. reflexivity. Qed.

Example top_level_templates_nested :
  top_level_templates "a {{Outer|{{Inner|x|y}}|z}} b {{c}}"
  = ["{{Outer|{{Inner|x|y}}|z}}"; "{{c}}"].
Proof. reflexivity. Qed.

Example no_template_no_occurrence :
  data_from_templates top_level_templates fromstring_text (Ok parseDMS_reject)
    no_page "Example" "en" None (Some "plain  text")
  = Ok ([], []).
Proof. reflexivity. Qed.

(** A scanner that also lists the template nested in another one. *)
Example nested_listed_too :
  data_from_templates
    (fun _ => ["{{Outer|{{Inner|x|y}}|z}}"; "{{Inner|x|y}}"])
    fromstring_text (Ok parseDMS_reject) no_page "Example" "en" None
    (Some "{{Outer|{{Inner|x|y}}|z}}")
  = Ok ([mk_occurrence "Outer" [("anon_1", "{{Inner~x~y}}"); ("anon_2", "z")];
         mk_occurrence "Inner" [("anon_1", "x"); ("anon_2", "y")]], []).
Proof. vm_compute. reflexivity. Qed.

(** A DMS parser whose first result has a longitude and no latitude: the
    longitude is stored before the lookup of the latitude fails. *)
Example augment_half_result :
  augment_data_with_coords (Ok (fun _ => Ok [[("dec-long", "11.25")]]))
    [("latd", "43")] [["latd"]]
  = Ok ([("latd", "43"); ("lon", "11.25")], None, ["Can't find coordinates"]).
Proof. reflexivity. Qed.


(** ** Strings *)

Lemma all_chars_app p a b :
  all_chars p (a ++ b) = all_chars p a && all_chars p b.
Proof.
  induction a as [|c a IH]; simpl; [reflexivity|].
  rewrite IH. apply andb_assoc.
Qed.

Lemma lstrip_by_none p s :
  all_chars (fun c => negb (p c)) s = true -> Str.lstrip_by p s = s.
Proof.
  destruct s as [|c r]; simpl; [reflexivity|].
  intros H. apply andb_prop in H. destruct H as [H _].
  destruct (p c); [discriminate|reflexivity].
Qed.

Lemma rstrip_by_none p s :
  all_chars (fun c => negb (p c)) s = true -> Str.rstrip_by p s = s.
Proof.
  induction s as [|c r IH]; simpl; [reflexivity|].
  intros H. apply andb_prop in H. destruct H as [Hc Hr].
  rewrite (IH Hr). destruct r; [|reflexivity].
  destruct (p c); [discriminate|reflexivity].
Qed.

Lemma strip_by_none p s :
  all_chars (fun c => negb (p c)) s = true -> Str.strip_by p s = s.
Proof.
  intros H. unfold Str.strip_by.
  rewrite (lstrip_by_none _ _ H). apply rstrip_by_none, H.
Qed.

Lemma uint_digits d :
  all_chars Str.is_digit (NilEmpty.string_of_uint d) = true.
Proof. induction d; simpl; auto. Qed.

Lemma of_N_digits n : all_chars Str.is_digit (Str.of_N n) = true.
Proof.
  unfold Str.of_N, NilZero.string_of_uint.
  destruct (N.to_uint n) eqn:E; try reflexivity;
    rewrite <- E; apply uint_digits.
Qed.

Lemma all_chars_impl (p q : ascii -> bool) s :
  (forall c, p c = true -> q c = true) ->
  all_chars p s = true -> all_chars q s = true.
Proof.
  intros Hpq. induction s as [|c r IH]; simpl; [reflexivity|].
  intros H. apply andb_prop in H. destruct H as [Hc Hr].
  rewrite (Hpq _ Hc), (IH Hr). reflexivity.
Qed.

Lemma digit_not_space c : Str.is_digit c = true -> negb (Str.is_space c) = true.
Proof.
  destruct c as [[] [] [] [] [] [] [] []]; vm_compute; congruence.
Qed.

Lemma strip_anon_key n : Str.strip (anon_key n) = anon_key n.
Proof.
  unfold Str.strip. apply strip_by_none.
  unfold anon_key. rewrite all_chars_app. apply andb_true_intro. split.
  - reflexivity.
  - apply all_chars_impl with (p := Str.is_digit).
    + apply digit_not_space.
    + apply of_N_digits.
Qed.

(** ** The tokenizer *)

Lemma filter_lacks_snoc before seg :
  List.length (filter lacks_eq (before ++ [seg]))
  = if lacks_eq seg then S (List.length (filter lacks_eq before))
    else List.length (filter lacks_eq before).
Proof.
  rewrite filter_app, length_app. simpl.
  destruct (lacks_eq seg); simpl; lia.
Qed.

Lemma tokenize_step_assignment before seg d :
  tokenize_step (List.length (filter lacks_eq before), d) seg
  = (List.length (filter lacks_eq (before ++ [seg])),
     assign d (assignment before seg)).
Proof.
  rewrite filter_lacks_snoc.
  unfold tokenize_step, assignment, assign.
  replace (lacks_eq seg)
    with (match Str.split1 "=" seg with None => true | Some _ => false end)
    by reflexivity.
  destruct (Str.split1 "=" seg) as [[k v]|]; cbv beta iota zeta.
  - reflexivity.
  - change ("anon_" ++ Str.of_nat (S (List.length (filter lacks_eq before))))
      with (anon_key (S (List.length (filter lacks_eq before)))).
    rewrite strip_anon_key. reflexivity.
Qed.

Lemma tokenize_loop_assignments segs : forall before d,
  fold_left tokenize_step segs (List.length (filter lacks_eq before), d)
  = (List.length (filter lacks_eq (before ++ segs)),
     fold_left assign (assignments before segs) d).
Proof.
  induction segs as [|seg rest IH]; intros before d;
    cbn [fold_left assignments].
  - rewrite app_nil_r. reflexivity.
  - rewrite tokenize_step_assignment, IH.
    rewrite <- app_assoc. reflexivity.
Qed.

Lemma anonymous_keys_contiguous segs : forall before,
  anonymous_keys before segs
  = List.map anon_key
      (seq (S (List.length (filter lacks_eq before)))
           (List.length (filter lacks_eq segs))).
Proof.
  induction segs as [|seg rest IH]; intros before;
    cbn [anonymous_keys filter]; [reflexivity|].
  rewrite IH, filter_lacks_snoc.
  unfold assignment.
  replace (lacks_eq seg)
    with (match Str.split1 "=" seg with None => true | Some _ => false end)
    by reflexivity.
  destruct (Str.split1 "=" seg) as [[k v]|]; reflexivity.
Qed.

(** C4: tokenizing ["Infobox|Name=Foo|Population=100|Foo bar"] gives the name
    ["Infobox"] and the data [Name -> Foo, Population -> 100,
    anon_1 -> Foo bar].  For every body, the name is the trimmed first
    segment and the data results from making, in body order, one assignment
    per remaining segment: a segment with [=] is cut at its first [=] into a
    trimmed key and a trimmed value; a segment without [=] gets the key
    [anon_n], where [n] counts from 1 the segments without [=] met so far.
    The anonymous keys synthesized for a body are therefore
    [anon_1 ... anon_m] in order, whatever named parameters lie between. *)
Theorem tokenize_in_body_order :
  tokenize "Infobox|Name=Foo|Population=100|Foo bar"
  = ("Infobox", [("Name", "Foo"); ("Population", "100"); ("anon_1", "Foo bar")])
  /\ (forall body : string,
        tokenize body
        = (Str.strip (hd EmptyString (Str.split "|" body)),
           fold_left assign (assignments [] (tl (Str.split "|" body))) []))
  /\ (forall segments : list string,
        anonymous_keys [] segments
        = List.map anon_key (seq 1 (List.length (filter lacks_eq segments)))).
Proof.
  split; [vm_compute; reflexivity|]. split.
  - intros body. unfold tokenize.
    change (0, @nil (string * string))
      with (List.length (filter lacks_eq []), @nil (string * string)).
    rewrite tokenize_loop_assignments. reflexivity.
  - intros segments. apply (anonymous_keys_contiguous segments []).
Qed.

(** ** The driver on fixed wikitext *)

(** C1: on the wikitext ["{{coord|41|12|S|12|34|W|display=inline}}"], with no
    coordinate field groups, for a scanner that reports the text as its one
    template and a markup parser that reads the body as one text node,
    [data_from_templates] returns exactly one occurrence, named ["coord"],
    whose data is [lat -> "-41.2", lon -> "-12.566666666666666"]: the values
    of [41 + 12/60] and [12 + 34/60], negated for [S] and [W]; the raw
    parameters are gone. *)
Theorem coord_end_to_end :
  forall (filter_templates : string -> list string)
         (fromstring : string -> result node)
         (import_parseDMS : result dms_parser)
         (get_wikitext_from_api : string -> string -> result string)
         (page lang tag : string),
    filter_templates "{{coord|41|12|S|12|34|W|display=inline}}"
    = ["{{coord|41|12|S|12|34|W|display=inline}}"] ->
    fromstring "coord|41|12|S|12|34|W|display=inline"
    = Ok (Element tag [Text "coord|41|12|S|12|34|W|display=inline"]) ->
    data_from_templates filter_templates fromstring import_parseDMS
      get_wikitext_from_api page lang None
      (Some "{{coord|41|12|S|12|34|W|display=inline}}")
    = Ok ([mk_occurrence "coord"
             [("lat", "-41.2"); ("lon", "-12.566666666666666")]], []).
Proof.
  intros ft fs pd gw page lang tag Hft Hfs.
  unfold data_from_templates. cbn [bind].
  change (Str.join " " (Str.split_ws "{{coord|41|12|S|12|34|W|display=inline}}"))
    with "{{coord|41|12|S|12|34|W|display=inline}}".
  rewrite Hft. cbn [process_all]. unfold process_template, clean_ref.
  change (Str.slice_inner 2 2 "{{coord|41|12|S|12|34|W|display=inline}}")
    with "coord|41|12|S|12|34|W|display=inline".
  rewrite Hfs. vm_compute. reflexivity.
Qed.

Lemma coord_end_to_end_witness :
  data_from_templates top_level_templates fromstring_text (Ok parseDMS_reject)
    no_page "Example" "en" None
    (Some "{{coord|41|12|S|12|34|W|display=inline}}")
  = Ok ([mk_occurrence "coord"
           [("lat", "-41.2"); ("lon", "-12.566666666666666")]], []).
Proof.
  apply (coord_end_to_end top_level_templates fromstring_text (Ok parseDMS_reject)
           no_page "Example" "en" "p"); reflexivity.
Defined.

(** C2, as stated, fails: with the top-level scanner and the text parser,
    extraction from ["{{Outer|{{Inner|x|y}}|z}}"] does not return a single
    occurrence named ["Outer"] one of whose values contains the text
    ["{{Inner|x|y}}"]. *)
Lemma nested_value_not_verbatim :
  ~ (exists (occ : occurrence) (log : list string),
       data_from_templates top_level_templates fromstring_text
         (Ok parseDMS_reject) no_page "Example" "en" None
         (Some "{{Outer|{{Inner|x|y}}|z}}")
       = Ok ([occ], log)
       /\ name occ = "Outer"
       /\ exists kv : string * string,
            In kv (data occ) /\ Str.contains "{{Inner|x|y}}" (snd kv) = true).
Proof.
  intros (occ & log & Hrun & _ & kv & Hin & Hsub).
  vm_compute in Hrun. injection Hrun as Hocc _. subst occ.
  simpl in Hin. destruct Hin as [H | [H | []]]; subst kv;
    vm_compute in Hsub; discriminate.
Qed.

(** C2, amended: for a markup parser that reads the body as one text node,
    the template ["{{Outer|{{Inner|x|y}}|z}}"] yields an occurrence named
    ["Outer"] with the data [anon_1 -> "{{Inner~x~y}}", anon_2 -> "z"]: the
    pipes of the inner occurrence have not split the outer parameter list,
    and each of them is stored as the sentinel [~].  For a scanner that
    reports the text as its one template, it is the only occurrence that
    extraction returns. *)
Theorem nested_value_escaped :
  forall (filter_templates : string -> list string)
         (fromstring : string -> result node)
         (import_parseDMS : result dms_parser)
         (get_wikitext_from_api : string -> string -> result string)
         (page lang tag : string),
    fromstring "Outer|{{Inner|x|y}}|z"
    = Ok (Element tag [Text "Outer|{{Inner|x|y}}|z"]) ->
    process_template fromstring import_parseDMS None "{{Outer|{{Inner|x|y}}|z}}"
    = Ok (mk_occurrence "Outer"
            [("anon_1", "{{Inner~x~y}}"); ("anon_2", "z")], [])
    /\ (filter_templates "{{Outer|{{Inner|x|y}}|z}}"
        = ["{{Outer|{{Inner|x|y}}|z}}"] ->
        data_from_templates filter_templates fromstring import_parseDMS
          get_wikitext_from_api page lang None
          (Some "{{Outer|{{Inner|x|y}}|z}}")
        = Ok ([mk_occurrence "Outer"
                 [("anon_1", "{{Inner~x~y}}"); ("anon_2", "z")]], [])).
Proof.
  intros ft fs pd gw page lang tag Hfs.
  assert (Hone : process_template fs pd None "{{Outer|{{Inner|x|y}}|z}}"
                 = Ok (mk_occurrence "Outer"
                         [("anon_1", "{{Inner~x~y}}"); ("anon_2", "z")], [])).
  { unfold process_template, clean_ref.
    change (Str.slice_inner 2 2 "{{Outer|{{Inner|x|y}}|z}}")
      with "Outer|{{Inner|x|y}}|z".
    rewrite Hfs. vm_compute. reflexivity. }
  split; [exact Hone|].
  intros Hft. unfold data_from_templates. cbn [bind].
  change (Str.join " " (Str.split_ws "{{Outer|{{Inner|x|y}}|z}}"))
    with "{{Outer|{{Inner|x|y}}|z}}".
  rewrite Hft. cbn [process_all]. rewrite Hone. reflexivity.
Qed.

Lemma nested_value_escaped_witness :
  data_from_templates top_level_templates fromstring_text (Ok parseDMS_reject)
    no_page "Example" "en" None (Some "{{Outer|{{Inner|x|y}}|z}}")
  = Ok ([mk_occurrence "Outer"
           [("anon_1", "{{Inner~x~y}}"); ("anon_2", "z")]], []).
Proof.
  apply (proj2 (nested_value_escaped top_level_templates fromstring_text
                  (Ok parseDMS_reject) no_page "Example" "en" "p" eq_refl)).
  reflexivity.
Defined.

(** C10: on the wikitext ["{{coord|display=inline}}"], whose one template is
    named ["coord"] and keeps no positional parameter once the optional
    ones are dropped, [data_from_templates] returns nothing: the
    [ValueError] raised by [min] of an empty list leaves the call, whatever
    field groups are supplied. *)
Theorem coord_without_positional_aborts :
  forall (filter_templates : string -> list string)
         (fromstring : string -> result node)
         (import_parseDMS : result dms_parser)
         (get_wikitext_from_api : string -> string -> result string)
         (page lang tag : string) (extra_coords : extra_coords_t),
    filter_templates "{{coord|display=inline}}"
    = ["{{coord|display=inline}}"] ->
    fromstring "coord|display=inline"
    = Ok (Element tag [Text "coord|display=inline"]) ->
    data_from_templates filter_templates fromstring import_parseDMS
      get_wikitext_from_api page lang extra_coords
      (Some "{{coord|display=inline}}")
    = Raise ValueError.
Proof.
  intros ft fs pd gw page lang tag extra Hft Hfs.
  unfold data_from_templates. cbn [bind].
  change (Str.join " " (Str.split_ws "{{coord|display=inline}}"))
    with "{{coord|display=inline}}".
  rewrite Hft. cbn [process_all]. unfold process_template, clean_ref.
  change (Str.slice_inner 2 2 "{{coord|display=inline}}")
    with "coord|display=inline".
  rewrite Hfs. vm_compute. reflexivity.
Qed.

Lemma coord_without_positional_aborts_witness :
  data_from_templates top_level_templates fromstring_text (Ok parseDMS_reject)
    no_page "Example" "en" None (Some "{{coord|display=inline}}")
  = Raise ValueError.
Proof.
  apply (coord_without_positional_aborts top_level_templates fromstring_text
           (Ok parseDMS_reject) no_page "Example" "en" "p" None); reflexivity.
Defined.

(** ** The coordinate resolver on positional parameters *)

Lemma is_optional_value k v :
  no_token v = true ->
  no_token k = true ->
  is_optional k v = false.
Proof.
  unfold no_token, is_optional. intros Hv Hk.
  apply negb_true_iff in Hv. apply negb_true_iff in Hk.
  induction optionalpars as [|op ops IH]; [reflexivity|].
  simpl in *. apply orb_false_elim in Hv. apply orb_false_elim in Hk.
  destruct Hv as [Hv1 Hv2], Hk as [Hk1 Hk2].
  rewrite Hv1, Hk1, (IH Hv2 Hk2). reflexivity.
Qed.

(** When no entry is optional, lines 93-101 leave the dictionary as it is. *)
Lemma drop_optional_none d :
  forallb mandatory d = true ->
  drop_optional d = Ok d.
Proof.
  intros H. unfold drop_optional.
  assert (Hto : forall acc, fold_left todel_step d acc = acc).
  { induction d as [|kv r IH]; intros acc; [reflexivity|].
    simpl in H. apply andb_prop in H. destruct H as [Hkv Hr].
    apply negb_true_iff in Hkv. simpl. unfold todel_step at 2.
    rewrite Hkv. apply IH, Hr. }
  unfold todel_of. rewrite Hto. reflexivity.
Qed.

Lemma positional_view_2 v1 v2 :
  positional_view [("anon_1", v1); ("anon_2", v2)]
  = Ok ([(KInt 1, v1); (KInt 2, v2)], 1%Z, 2).
Proof. vm_compute. reflexivity. Qed.

Lemma positional_view_4 v1 v2 v3 v4 :
  positional_view [("anon_1", v1); ("anon_2", v2); ("anon_3", v3); ("anon_4", v4)]
  = Ok ([(KInt 1, v1); (KInt 2, v2); (KInt 3, v3); (KInt 4, v4)], 1%Z, 4).
Proof. vm_compute. reflexivity. Qed.

Lemma positional_view_6 v1 v2 v3 v4 v5 v6 :
  positional_view [("anon_1", v1); ("anon_2", v2); ("anon_3", v3);
                   ("anon_4", v4); ("anon_5", v5); ("anon_6", v6)]
  = Ok ([(KInt 1, v1); (KInt 2, v2); (KInt 3, v3);
         (KInt 4, v4); (KInt 5, v5); (KInt 6, v6)], 1%Z, 6).
Proof. vm_compute. reflexivity. Qed.

Lemma positional_view_8 v1 v2 v3 v4 v5 v6 v7 v8 :
  positional_view [("anon_1", v1); ("anon_2", v2); ("anon_3", v3);
                   ("anon_4", v4); ("anon_5", v5); ("anon_6", v6);
                   ("anon_7", v7); ("anon_8", v8)]
  = Ok ([(KInt 1, v1); (KInt 2, v2); (KInt 3, v3); (KInt 4, v4);
         (KInt 5, v5); (KInt 6, v6); (KInt 7, v7); (KInt 8, v8)], 1%Z, 8).
Proof. vm_compute. reflexivity. Qed.

Ltac positional_entries :=
  cbn [forallb andb]; unfold mandatory; cbn [fst snd];
  repeat match goal with
         | H : no_token ?v = true |- context [is_optional ?k ?v] =>
             rewrite (is_optional_value k v H (eq_refl true))
         end;
  reflexivity.

Ltac read_positional :=
  unfold read_dms, read_num, read_txt;
  repeat match goal with
         | |- context [titem (KInt ?n) ?d] =>
             let r := eval vm_compute in (tget (KInt n) d) in
             match r with
             | Some ?v => change (titem (KInt n) d) with (Ok v)
             end
         | H : Num.py_float ?v = Ok _ |- context [Num.py_float ?v] => rewrite H
         | |- _ => progress cbn [bind]
         end.

(** The four layouts on the data that the tokenizer produces for two, four,
    six and eight positional parameters, none of which holds an
    optional-parameter token. *)
Lemma layouts_of_tokenized_parameters :
  forall (lat_deg lat_min lat_sec lat_dir lon_deg lon_min lon_sec lon_dir : string)
         (glat mlat slat glon mlon slon : Num.float),
    no_token lat_deg = true -> no_token lat_min = true ->
    no_token lat_sec = true -> no_token lat_dir = true ->
    no_token lon_deg = true -> no_token lon_min = true ->
    no_token lon_sec = true -> no_token lon_dir = true ->
    Num.py_float lat_deg = Ok glat -> Num.py_float lat_min = Ok mlat ->
    Num.py_float lat_sec = Ok slat ->
    Num.py_float lon_deg = Ok glon -> Num.py_float lon_min = Ok mlon ->
    Num.py_float lon_sec = Ok slon ->
    extract_data_from_coord [("anon_1", lat_deg); ("anon_2", lon_deg)]
    = Ok [("lat", Num.float_str (decimal_degrees glat fzero fzero));
          ("lon", Num.float_str (decimal_degrees glon fzero fzero))]
    /\ extract_data_from_coord
         [("anon_1", lat_deg); ("anon_2", lat_dir);
          ("anon_3", lon_deg); ("anon_4", lon_dir)]
       = Ok [("lat", Num.float_str
                       (signed lat_dir "S" (decimal_degrees glat fzero fzero)));
             ("lon", Num.float_str
                       (signed lon_dir "W" (decimal_degrees glon fzero fzero)))]
    /\ extract_data_from_coord
         [("anon_1", lat_deg); ("anon_2", lat_min); ("anon_3", lat_dir);
          ("anon_4", lon_deg); ("anon_5", lon_min); ("anon_6", lon_dir)]
       = Ok [("lat", Num.float_str
                       (signed lat_dir "S" (decimal_degrees glat mlat fzero)));
             ("lon", Num.float_str
                       (signed lon_dir "W" (decimal_degrees glon mlon fzero)))]
    /\ extract_data_from_coord
         [("anon_1", lat_deg); ("anon_2", lat_min); ("anon_3", lat_sec);
          ("anon_4", lat_dir);
          ("anon_5", lon_deg); ("anon_6", lon_min); ("anon_7", lon_sec);
          ("anon_8", lon_dir)]
       = Ok [("lat", Num.float_str
                       (signed lat_dir "S" (decimal_degrees glat mlat slat)));
             ("lon", Num.float_str
                       (signed lon_dir "W" (decimal_degrees glon mlon slon)))].
Proof.
  intros lat_deg lat_min lat_sec lat_dir lon_deg lon_min lon_sec lon_dir
         glat mlat slat glon mlon slon
         T1 T2 T3 T4 T5 T6 T7 T8 F1 F2 F3 F5 F6 F7.
  split; [|split; [|split]].
  - unfold extract_data_from_coord.
    rewrite drop_optional_none by positional_entries.
    cbn [bind]. unfold resolve_positional.
    rewrite positional_view_2. cbn [bind]. read_positional. reflexivity.
  - unfold extract_data_from_coord.
    rewrite drop_optional_none by positional_entries.
    cbn [bind]. unfold resolve_positional.
    rewrite positional_view_4. cbn [bind]. read_positional. reflexivity.
  - unfold extract_data_from_coord.
    rewrite drop_optional_none by positional_entries.
    cbn [bind]. unfold resolve_positional.
    rewrite positional_view_6. cbn [bind]. read_positional. reflexivity.
  - unfold extract_data_from_coord.
    rewrite drop_optional_none by positional_entries.
    cbn [bind]. unfold resolve_positional.
    rewrite positional_view_8. cbn [bind]. read_positional. reflexivity.
Qed.

Ltac resolve_with Hdrop Hview :=
  unfold extract_data_from_coord; rewrite Hdrop; cbn [bind];
  unfold resolve_positional; rewrite Hview; cbn [bind];
  unfold read_dms; cbv zeta;
  repeat match goal with
         | H : read_num _ _ _ = Ok _ |- _ => rewrite H; clear H; cbn [bind]
         | H : read_txt _ _ _ = Ok _ |- _ => rewrite H; clear H; cbn [bind]
         end;
  reflexivity.

(** C3: let the resolver, after dropping the optional parameters, count
    [parcount] positional parameters, the first at index [startpar].  For
    [parcount] 2, 4, 6 and 8 the parameters at [startpar], [startpar+1], ...
    are read in the layouts (degrees, degrees), (degrees, direction, degrees,
    direction), (degrees, minutes, direction, ...) and (degrees, minutes,
    seconds, direction, ...), and the result is [str] of
    [degrees + minutes/60.0 + seconds/3600.0], minutes and seconds being
    [0.0] where the layout has none.  The latitude is negated when its
    direction is ["S"], the longitude when its direction is ["W"]; any other
    direction, and a layout without directions, leaves the sign.  With 41,
    [S], 12, [W] the result is latitude ["-41.0"] and longitude
    ["-12.0"]. *)
Theorem decimal_conversion :
  forall (d d' : sdict) (template : tdict) (startpar : Z) (parcount : nat),
    drop_optional d = Ok d' ->
    positional_view d' = Ok (template, startpar, parcount) ->
    (parcount = 2 ->
     forall glat glon : Num.float,
       read_num template startpar 0 = Ok glat ->
       read_num template startpar 1 = Ok glon ->
       extract_data_from_coord d
       = Ok [("lat", Num.float_str (decimal_degrees glat fzero fzero));
             ("lon", Num.float_str (decimal_degrees glon fzero fzero))])
    /\ (parcount = 4 ->
        forall (glat glon : Num.float) (lat_dir lon_dir : string),
          read_num template startpar 0 = Ok glat ->
          read_txt template startpar 1 = Ok lat_dir ->
          read_num template startpar 2 = Ok glon ->
          read_txt template startpar 3 = Ok lon_dir ->
          extract_data_from_coord d
          = Ok [("lat", Num.float_str
                          (signed lat_dir "S"
                             (decimal_degrees glat fzero fzero)));
                ("lon", Num.float_str
                          (signed lon_dir "W"
                             (decimal_degrees glon fzero fzero)))])
    /\ (parcount = 6 ->
        forall (glat mlat glon mlon : Num.float) (lat_dir lon_dir : string),
          read_num template startpar 0 = Ok glat ->
          read_num template startpar 1 = Ok mlat ->
          read_txt template startpar 2 = Ok lat_dir ->
          read_num template startpar 3 = Ok glon ->
          read_num template startpar 4 = Ok mlon ->
          read_txt template startpar 5 = Ok lon_dir ->
          extract_data_from_coord d
          = Ok [("lat", Num.float_str
                          (signed lat_dir "S"
                             (decimal_degrees glat mlat fzero)));
                ("lon", Num.float_str
                          (signed lon_dir "W"
                             (decimal_degrees glon mlon fzero)))])
    /\ (parcount = 8 ->
        forall (glat mlat slat glon mlon slon : Num.float)
               (lat_dir lon_dir : string),
          read_num template startpar 0 = Ok glat ->
          read_num template startpar 1 = Ok mlat ->
          read_num template startpar 2 = Ok slat ->
          read_txt template startpar 3 = Ok lat_dir ->
          read_num template startpar 4 = Ok glon ->
          read_num template startpar 5 = Ok mlon ->
          read_num template startpar 6 = Ok slon ->
          read_txt template startpar 7 = Ok lon_dir ->
          extract_data_from_coord d
          = Ok [("lat", Num.float_str
                          (signed lat_dir "S"
                             (decimal_degrees glat mlat slat)));
                ("lon", Num.float_str
                          (signed lon_dir "W"
                             (decimal_degrees glon mlon slon)))])
    /\ (forall (deg min sec : Num.float) (dir : string),
          decimal_degrees deg min sec
          = Num.fadd (Num.fadd deg (Num.fdiv min (Num.of_Z 60)))
                     (Num.fdiv sec (Num.of_Z 3600))
          /\ fzero = S754_zero false
          /\ signed "S" "S" deg = Num.fneg deg
          /\ signed "W" "W" deg = Num.fneg deg
          /\ (dir <> "S" -> signed dir "S" deg = deg)
          /\ (dir <> "W" -> signed dir "W" deg = deg))
    /\ extract_data_from_coord
         [("anon_1", "41"); ("anon_2", "S"); ("anon_3", "12"); ("anon_4", "W")]
       = Ok [("lat", "-41.0"); ("lon", "-12.0")].
Proof.
  intros d d' template startpar parcount Hdrop Hview.
  split; [|split; [|split; [|split; [|split]]]].
  - intros -> glat glon H0 H1. resolve_with Hdrop Hview.
  - intros -> glat glon lat_dir lon_dir H0 H1 H2 H3.
    resolve_with Hdrop Hview.
  - intros -> glat mlat glon mlon lat_dir lon_dir H0 H1 H2 H3 H4 H5.
    resolve_with Hdrop Hview.
  - intros -> glat mlat slat glon mlon slon lat_dir lon_dir
      H0 H1 H2 H3 H4 H5 H6 H7.
    resolve_with Hdrop Hview.
  - intros deg min sec dir. unfold signed.
    split; [reflexivity|]. split; [reflexivity|].
    split; [reflexivity|]. split; [reflexivity|].
    split; intros Hd.
    + destruct (String.eqb_spec dir "S"); [contradiction|reflexivity].
    + destruct (String.eqb_spec dir "W"); [contradiction|reflexivity].
  - vm_compute. reflexivity.
Qed.

Lemma decimal_conversion_witness :
  extract_data_from_coord
    [("anon_1", "43"); ("display", "inline"); ("anon_2", "46");
     ("anon_3", "24"); ("anon_4", "S");
     ("anon_5", "11"); ("anon_6", "15"); ("anon_7", "0"); ("anon_8", "E")]
  = Ok [("lat", Num.float_str
                  (signed "S" "S"
                     (decimal_degrees (Num.of_Z 43) (Num.of_Z 46)
                        (Num.of_Z 24))));
        ("lon", Num.float_str
                  (signed "E" "W"
                     (decimal_degrees (Num.of_Z 11) (Num.of_Z 15)
                        (Num.of_Z 0))))].
Proof.
  refine (proj1 (proj2 (proj2 (proj2
    (decimal_conversion
       [("anon_1", "43"); ("display", "inline"); ("anon_2", "46");
        ("anon_3", "24"); ("anon_4", "S");
        ("anon_5", "11"); ("anon_6", "15"); ("anon_7", "0"); ("anon_8", "E")]
       [("anon_1", "43"); ("anon_2", "46"); ("anon_3", "24"); ("anon_4", "S");
        ("anon_5", "11"); ("anon_6", "15"); ("anon_7", "0"); ("anon_8", "E")]
       [(KInt 1, "43"); (KInt 2, "46"); (KInt 3, "24"); (KInt 4, "S");
        (KInt 5, "11"); (KInt 6, "15"); (KInt 7, "0"); (KInt 8, "E")]
       1%Z 8 _ _)))) eq_refl
    (Num.of_Z 43) (Num.of_Z 46) (Num.of_Z 24)
    (Num.of_Z 11) (Num.of_Z 15) (Num.of_Z 0) "S" "E" _ _ _ _ _ _ _ _);
    reflexivity.
Defined.

(** ** Dropping the optional parameters *)

Lemma existsb_eqb_In k s : existsb (String.eqb k) s = true <-> In k s.
Proof.
  rewrite existsb_exists. split.
  - intros (x & Hx & E). apply String.eqb_eq in E. subst. exact Hx.
  - intros H. exists k. split; [exact H | apply String.eqb_refl].
Qed.

Lemma set_add_In k s x : In x (set_add k s) <-> x = k \/ In x s.
Proof.
  unfold set_add. destruct (existsb (String.eqb k) s) eqn:E.
  - apply existsb_eqb_In in E. split; [auto | intros [->|H]; assumption].
  - rewrite in_app_iff. simpl. intuition congruence.
Qed.

Lemma set_add_NoDup k s : NoDup s -> NoDup (set_add k s).
Proof.
  intros H. unfold set_add. destruct (existsb (String.eqb k) s) eqn:E;
    [exact H|].
  assert (Hk : ~ In k s).
  { intros Hin. apply existsb_eqb_In in Hin. congruence. }
  clear E. induction H as [|x l Hx Hl IH]; simpl.
  - constructor; [intros [] | constructor].
  - constructor.
    + rewrite in_app_iff. simpl. intros [H1 | [H1 | []]];
        [auto | subst; apply Hk; left; reflexivity].
    + apply IH. intros H1. apply Hk. right. exact H1.
Qed.

Lemma todel_fold_In d : forall acc x,
  In x (fold_left todel_step d acc)
  <-> In x acc \/ exists v, In (x, v) d /\ is_optional x v = true.
Proof.
  induction d as [|[k v] r IH]; intros acc x; simpl.
  - split; [auto | intros [H | (v & [] & _)]; exact H].
  - rewrite IH. unfold todel_step. simpl.
    destruct (is_optional k v) eqn:E.
    + rewrite set_add_In. split.
      * intros [[-> | H] | (w & Hw & Ho)].
        -- right. exists v. auto.
        -- left. exact H.
        -- right. exists w. auto.
      * intros [H | (w & [Hw | Hw] & Ho)].
        -- left. right. exact H.
        -- injection Hw as -> ->. left. left. reflexivity.
        -- right. exists w. auto.
    + split.
      * intros [H | (w & Hw & Ho)]; [left; exact H | right; exists w; auto].
      * intros [H | (w & [Hw | Hw] & Ho)].
        -- left. exact H.
        -- injection Hw as -> ->. congruence.
        -- right. exists w. auto.
Qed.

Lemma todel_fold_NoDup d : forall acc,
  NoDup acc -> NoDup (fold_left todel_step d acc).
Proof.
  induction d as [|kv r IH]; intros acc H; simpl; [exact H|].
  apply IH. unfold todel_step.
  destruct (is_optional (fst kv) (snd kv)); [apply set_add_NoDup|]; exact H.
Qed.

Lemma sget_in_keys k (d : sdict) :
  In k (dict_keys d) -> exists v, dict_get String.eqb k d = Some v.
Proof.
  induction d as [|[k' v'] r IH]; simpl; [intros []|].
  intros [-> | H].
  - rewrite String.eqb_refl. eauto.
  - destruct (String.eqb k k'); eauto.
Qed.

Lemma keys_remove k k' (d : sdict) :
  k' <> k -> In k' (dict_keys d) ->
  In k' (dict_keys (dict_remove String.eqb k d)).
Proof.
  intros Hne. induction d as [|[a v] r IH]; simpl; [auto|].
  intros [-> | H].
  - destruct (String.eqb_spec k k'); [congruence | left; reflexivity].
  - destruct (String.eqb k a); simpl; auto.
Qed.

Lemma filter_after_remove k r (template : sdict) :
  filter (fun kv => negb (existsb (String.eqb (fst kv)) r))
         (dict_remove String.eqb k template)
  = filter (fun kv => negb (existsb (String.eqb (fst kv)) (k :: r))) template.
Proof.
  unfold dict_remove.
  induction template as [|[a w] t IHt]; simpl; [reflexivity|].
  rewrite (String.eqb_sym a k).
  destruct (String.eqb k a); simpl.
  - apply IHt.
  - destruct (existsb (String.eqb a) r); simpl; [|f_equal]; apply IHt.
Qed.

Lemma del_all_filter todel : forall template : sdict,
  NoDup todel ->
  (forall k, In k todel -> In k (dict_keys template)) ->
  del_all todel template
  = Ok (filter (fun kv => negb (existsb (String.eqb (fst kv)) todel)) template).
Proof.
  induction todel as [|k r IH]; intros template Hnd Hin; simpl.
  - f_equal. symmetry. apply forallb_filter_id.
    apply forallb_forall. reflexivity.
  - destruct (sget_in_keys k template (Hin k (or_introl eq_refl))) as [v Hv].
    unfold sdel, dict_del. rewrite Hv. cbn [bind].
    inversion Hnd as [|? ? Hk Hr]; subst.
    rewrite IH.
    + f_equal. apply filter_after_remove.
    + exact Hr.
    + intros k' Hk'. apply keys_remove.
      * intros ->. contradiction.
      * apply Hin. right. exact Hk'.
Qed.

Lemma drop_optional_by_key d :
  drop_optional d
  = Ok (filter (fun kv => negb (existsb (String.eqb (fst kv)) (todel_of d))) d).
Proof.
  unfold drop_optional. apply del_all_filter.
  - apply todel_fold_NoDup. constructor.
  - intros k Hk. apply todel_fold_In in Hk.
    destruct Hk as [[] | (v & Hv & _)].
    apply in_map_iff. exists (k, v). auto.
Qed.

Lemma NoDup_keys_value (d : sdict) k v w :
  NoDup (dict_keys d) -> In (k, v) d -> In (k, w) d -> v = w.
Proof.
  induction d as [|[a x] r IH]; simpl; [intros _ []|].
  intros Hnd Hv Hw. inversion Hnd as [|? ? Ha Hr]; subst.
  destruct Hv as [Hv | Hv], Hw as [Hw | Hw].
  - congruence.
  - injection Hv as -> ->. exfalso. apply Ha.
    apply in_map_iff. exists (k, w). auto.
  - injection Hw as -> ->. exfalso. apply Ha.
    apply in_map_iff. exists (k, v). auto.
  - apply IH; assumption.
Qed.

Lemma drop_optional_filter d :
  NoDup (dict_keys d) ->
  drop_optional d = Ok (filter mandatory d).
Proof.
  intros Hnd. rewrite drop_optional_by_key. f_equal.
  apply filter_ext_in. intros [k v] Hkv. unfold mandatory. simpl. f_equal.
  destruct (is_optional k v) eqn:E.
  - apply existsb_eqb_In, todel_fold_In. right. exists v. auto.
  - destruct (existsb (String.eqb k) (todel_of d)) eqn:E'; [|reflexivity].
    apply existsb_eqb_In, todel_fold_In in E'.
    destruct E' as [[] | (w & Hw & Ho)].
    rewrite (NoDup_keys_value d k v w Hnd Hkv Hw) in E. congruence.
Qed.

Lemma is_optional_token op k v :
  In op optionalpars ->
  Str.contains op v = true \/ Str.contains op k = true ->
  is_optional k v = true.
Proof.
  intros Hop H. unfold is_optional. apply existsb_exists.
  exists op. split; [exact Hop|]. apply orb_true_iff. exact H.
Qed.

Lemma NoDup_keys_without (d1 d2 : sdict) (kv : string * string) :
  NoDup (dict_keys (d1 ++ kv :: d2)%list) -> NoDup (dict_keys (d1 ++ d2)%list).
Proof.
  unfold dict_keys. rewrite !map_app. simpl. apply NoDup_remove_1.
Qed.

(** C5: the resolver first removes exactly the entries whose key or value
    contains one of the tokens [dim], [globe], [region], [scale], [source],
    [type], [display], and keeps the others in their order; renumbering,
    counting and dispatch then see only what is left.  In particular an
    entry whose key is ["display"], or whose value contains ["dim"], does
    not change the result, wherever it stands in the dictionary. *)
Theorem optional_parameters_dropped :
  forall d : sdict,
    NoDup (dict_keys d) ->
    optionalpars
    = ["dim"; "globe"; "region"; "scale"; "source"; "type"; "display"]
    /\ drop_optional d = Ok (filter mandatory d)
    /\ (forall kv, mandatory kv = false
                   <-> exists op, In op optionalpars
                                  /\ (Str.contains op (snd kv) = true
                                      \/ Str.contains op (fst kv) = true))
    /\ extract_data_from_coord d = resolve_positional (filter mandatory d)
    /\ (forall (d1 d2 : sdict) (k v : string),
          d = (d1 ++ (k, v) :: d2)%list ->
          k = "display" \/ Str.contains "dim" v = true ->
          extract_data_from_coord d = extract_data_from_coord (d1 ++ d2)%list).
Proof.
  intros d Hnd.
  assert (Hext : forall d', NoDup (dict_keys d') ->
            extract_data_from_coord d' = resolve_positional (filter mandatory d')).
  { intros d' H'. unfold extract_data_from_coord.
    rewrite (drop_optional_filter d' H'). reflexivity. }
  split; [reflexivity|].
  split; [apply drop_optional_filter, Hnd|].
  split; [|split; [apply Hext, Hnd|]].
  - intros kv. unfold mandatory, is_optional.
    rewrite negb_false_iff, existsb_exists.
    split; intros (op & Hop & H); exists op; split; auto;
      apply orb_true_iff; exact H.
  - intros d1 d2 k v -> Hkv.
    rewrite (Hext _ Hnd), (Hext _ (NoDup_keys_without d1 d2 (k, v) Hnd)).
    f_equal. rewrite !filter_app. simpl.
    assert (Ho : mandatory (k, v) = false).
    { unfold mandatory. apply negb_false_iff. simpl.
      destruct Hkv as [-> | Hv].
      - apply is_optional_token with (op := "display").
        + simpl. tauto.
        + right. reflexivity.
      - apply is_optional_token with (op := "dim").
        + simpl. tauto.
        + left. exact Hv. }
    rewrite Ho. reflexivity.
Qed.

Lemma optional_parameters_dropped_witness :
  extract_data_from_coord
    [("display", "inline"); ("anon_1", "45.5"); ("anon_2", "9.2")]
  = extract_data_from_coord [("anon_1", "45.5"); ("anon_2", "9.2")].
Proof.
  refine (proj2 (proj2 (proj2 (proj2
    (optional_parameters_dropped
       [("display", "inline"); ("anon_1", "45.5"); ("anon_2", "9.2")] _))))
    [] [("anon_1", "45.5"); ("anon_2", "9.2")] "display" "inline"
    eq_refl (or_introl eq_refl)).
  repeat constructor; simpl; intuition discriminate.
Defined.

(** ** Failures of the resolver *)

Lemma py_float_raises v e : Num.py_float v = Raise e -> e = ValueError.
Proof.
  unfold Num.py_float.
  destruct (Num.strip_underscores false (Num.strip_number v)); [|congruence].
  destruct (Num.split_sign s) as [neg body].
  destruct (_ || _); [discriminate|].
  destruct (String.eqb _ _); [discriminate|].
  destruct (Str.span Str.is_digit body) as [int_part rest].
  destruct (match rest with
            | String "." r => Str.span Str.is_digit r
            | _ => (EmptyString, rest)
            end) as [frac_part rest'].
  destruct (int_part ++ frac_part)%string; [congruence|].
  destruct (Num.digits_value _ _) as [[|p]|];
    destruct (Num.exponent_value rest'); congruence.
Qed.

Lemma read_num_cases template startpar i :
  (exists f, read_num template startpar i = Ok f
             /\ unusable template startpar (i, true) = false)
  \/ (exists e, read_num template startpar i = Raise e
                /\ (e = ValueError \/ e = KeyError)
                /\ unusable template startpar (i, true) = true).
Proof.
  unfold read_num, unusable, titem, dict_item, tget. simpl fst. simpl snd.
  destruct (dict_get key_eqb (KInt (startpar + i)) template) as [v|];
    cbn [bind].
  - destruct (Num.py_float v) as [f|e] eqn:E.
    + left. exists f. auto.
    + right. exists e. apply py_float_raises in E. subst. auto.
  - right. exists KeyError. auto.
Qed.

Lemma read_txt_cases template startpar i :
  (exists s, read_txt template startpar i = Ok s
             /\ unusable template startpar (i, false) = false)
  \/ (exists e, read_txt template startpar i = Raise e
                /\ (e = ValueError \/ e = KeyError)
                /\ unusable template startpar (i, false) = true).
Proof.
  unfold read_txt, unusable, titem, dict_item, tget. simpl fst. simpl snd.
  destruct (dict_get key_eqb (KInt (startpar + i)) template) as [v|].
  - left. exists v. auto.
  - right. exists KeyError. auto.
Qed.

Ltac read_step :=
  match goal with
  | |- context [bind (read_num ?t ?sp ?i) _] =>
      let f := fresh "f" in let e := fresh "e" in
      let U := fresh "U" in let He := fresh "He" in
      destruct (read_num_cases t sp i) as [(f & -> & U) | (e & -> & He & U)];
      [cbn [bind] | exists e; split; [reflexivity | exact He]]
  | |- context [bind (read_txt ?t ?sp ?i) _] =>
      let f := fresh "s" in let e := fresh "e" in
      let U := fresh "U" in let He := fresh "He" in
      destruct (read_txt_cases t sp i) as [(f & -> & U) | (e & -> & He & U)];
      [cbn [bind] | exists e; split; [reflexivity | exact He]]
  end.

Ltac all_usable H :=
  exfalso; cbn [needed existsb] in H;
  repeat match goal with
         | U : unusable _ _ _ = false |- _ => rewrite U in H; clear U
         end;
  discriminate H.

Lemma read_dms_fails template startpar parcount :
  existsb (unusable template startpar) (needed parcount) = true ->
  exists e, read_dms template startpar parcount = Raise e
            /\ (e = ValueError \/ e = KeyError).
Proof.
  intros H. unfold read_dms.
  destruct parcount as [|[|[|[|[|[|[|[|[|n]]]]]]]]];
    repeat read_step; all_usable H.
Qed.

Lemma process_all_raises fromstring import_parseDMS extra spans :
  forall store log span e,
    In span spans ->
    process_template fromstring import_parseDMS extra span = Raise e ->
    exists e', process_all fromstring import_parseDMS extra spans store log = Raise e'.
Proof.
  induction spans as [|s rest IH]; intros store log span e Hin Hraise;
    [destruct Hin|].
  cbn [process_all].
  destruct (process_template fromstring import_parseDMS extra s) as [r|e1] eqn:E;
    cbn [bind].
  - destruct Hin as [-> | Hin]; [congruence|].
    apply (IH _ _ span e Hin Hraise).
  - exists e1. reflexivity.
Qed.

Ltac read_ok :=
  match goal with
  | |- context [bind (read_num ?t ?sp ?i) _] =>
      let f := fresh "f" in let e := fresh "e" in let U := fresh "U" in
      destruct (read_num_cases t sp i) as [(f & -> & _) | (e & _ & _ & U)];
      [cbn [bind] | congruence]
  | |- context [bind (read_txt ?t ?sp ?i) _] =>
      let f := fresh "s" in let e := fresh "e" in let U := fresh "U" in
      destruct (read_txt_cases t sp i) as [(f & -> & _) | (e & _ & _ & U)];
      [cbn [bind] | congruence]
  end.

Lemma read_dms_succeeds template startpar parcount :
  existsb (unusable template startpar) (needed parcount) = false ->
  exists f, read_dms template startpar parcount = Ok f.
Proof.
  intros H. unfold read_dms.
  destruct parcount as [|[|[|[|[|[|[|[|[|n]]]]]]]]];
    cbn [needed existsb] in H;
    repeat (apply orb_false_iff in H; destruct H as [? H]);
    repeat read_ok; eexists; reflexivity.
Qed.

Lemma zero_degrees :
  Num.float_str (decimal_degrees fzero fzero fzero) = "0.0".
Proof. vm_compute. reflexivity. Qed.

Lemma read_dms_first_only template startpar parcount v f :
  parcount <> 2 -> parcount <> 4 -> parcount <> 6 -> parcount <> 8 ->
  tget (KInt startpar) template = Some v ->
  Num.py_float v = Ok f ->
  read_dms template startpar parcount
  = Ok (mk_dms f fzero fzero EmptyString fzero fzero fzero EmptyString).
Proof.
  intros H2 H4 H6 H8 Hv Hf.
  unfold read_dms, read_num, titem, dict_item. rewrite Z.add_0_r.
  unfold tget in Hv. rewrite Hv. cbn [bind]. rewrite Hf. cbn [bind].
  destruct parcount as [|[|[|[|[|[|[|[|[|n]]]]]]]]];
    try reflexivity; congruence.
Qed.

(** C6, as stated, fails: with three positional parameters the
    resolver reads the first only.  The second, which [float] rejects, is
    never converted, and the longitude is 0.0 although no parameter gives
    it; so it is with one positional parameter, where the longitude is
    missing. *)
Lemma non_numeric_value_defaults :
  Num.py_float "abc" = Raise ValueError
  /\ data_from_templates top_level_templates fromstring_text
       (Ok parseDMS_reject) no_page "Example" "en" None
       (Some "{{coord|41|abc|9.2}}")
     = Ok ([mk_occurrence "coord" [("lat", "41.0"); ("lon", "0.0")]], [])
  /\ data_from_templates top_level_templates fromstring_text
       (Ok parseDMS_reject) no_page "Example" "en" None
       (Some "{{coord|41}}")
     = Ok ([mk_occurrence "coord" [("lat", "41.0"); ("lon", "0.0")]], []).
Proof. split; [|split]; vm_compute; reflexivity. Qed.

(** C6, amended: the parameters that count are those that the resolver
    reads for the number of positional parameters it has counted: all of
    them for 2, 4, 6 and 8, the first only for any other number.  When one
    of these is missing from the dictionary, or one that is read as a
    number is rejected by [float], the resolver raises a [ValueError] or a
    [KeyError], and [data_from_templates] on any wikitext with a ["coord"]
    template that tokenizes to such data raises as well, instead of
    returning a result.  When none is, the resolver returns a result; for a
    number other than 2, 4, 6 and 8 that result has the first parameter as
    latitude and 0.0 as longitude, whatever the other parameters are. *)
Theorem unusable_parameter_aborts :
  forall (d d' : sdict) (template : tdict) (startpar : Z) (parcount : nat),
    drop_optional d = Ok d' ->
    positional_view d' = Ok (template, startpar, parcount) ->
    (existsb (unusable template startpar) (needed parcount) = true ->
     (exists e, extract_data_from_coord d = Raise e
                /\ (e = ValueError \/ e = KeyError))
     /\ (forall (filter_templates : string -> list string)
                (fromstring : string -> result node)
                (import_parseDMS : result dms_parser)
                (get_wikitext_from_api : string -> string -> result string)
                (page lang : string) (extra_coords : extra_coords_t)
                (wikitext span body name : string),
           In span (filter_templates (Str.join " " (Str.split_ws wikitext))) ->
           clean_ref fromstring (Str.slice_inner 2 2 span) = Ok body ->
           tokenize (escape_nested (clean_wiki_links body)) = (name, d) ->
           cleaned name = "coord" ->
           exists e,
             data_from_templates filter_templates fromstring import_parseDMS
               get_wikitext_from_api page lang extra_coords (Some wikitext)
             = Raise e))
    /\ (existsb (unusable template startpar) (needed parcount) = false ->
        exists r, extract_data_from_coord d = Ok r)
    /\ (parcount <> 2 -> parcount <> 4 -> parcount <> 6 -> parcount <> 8 ->
        forall (v : string) (f : Num.float),
          tget (KInt startpar) template = Some v ->
          Num.py_float v = Ok f ->
          extract_data_from_coord d
          = Ok [("lat", Num.float_str (decimal_degrees f fzero fzero));
                ("lon", "0.0")]).
Proof.
  intros d d' template startpar parcount Hdrop Hview.
  assert (Hx : extract_data_from_coord d
               = (f <- read_dms template startpar parcount ;;
                  Ok (coord_of_dms f))).
  { unfold extract_data_from_coord. rewrite Hdrop. cbn [bind].
    unfold resolve_positional. rewrite Hview. reflexivity. }
  split; [|split].
  - intros Hbad.
    destruct (read_dms_fails _ _ _ Hbad) as (e & He & Hkind).
    rewrite He in Hx. cbn [bind] in Hx.
    split; [exists e; auto|].
    intros ft fs pd gw page lang extra w span body nm Hin Hclean Htok Hname.
    unfold data_from_templates. cbn [bind].
    apply process_all_raises with (span := span) (e := e); [exact Hin|].
    unfold process_template. rewrite Hclean. cbn [bind].
    rewrite Htok, Hname. cbn [String.eqb Ascii.eqb Bool.eqb].
    rewrite Hx. reflexivity.
  - intros Hgood.
    destruct (read_dms_succeeds _ _ _ Hgood) as (f & Hf).
    rewrite Hf in Hx. cbn [bind] in Hx. eauto.
  - intros H2 H4 H6 H8 v f Hv Hf.
    rewrite Hx, (read_dms_first_only _ _ _ v f H2 H4 H6 H8 Hv Hf).
    cbn [bind]. unfold coord_of_dms.
    cbn [gglat mmlat sslat dirlat gglong mmlong sslong dirlong].
    unfold signed. cbn [String.eqb]. rewrite zero_degrees. reflexivity.
Qed.

Lemma unusable_parameter_aborts_witness :
  exists e,
    data_from_templates top_level_templates fromstring_text
      (Ok parseDMS_reject) no_page "Example" "en" None
      (Some "text {{coord|abc|9.2}}")
    = Raise e.
Proof.
  refine (proj2 (proj1 (unusable_parameter_aborts
            [("anon_1", "abc"); ("anon_2", "9.2")]
            [("anon_1", "abc"); ("anon_2", "9.2")]
            [(KInt 1, "abc"); (KInt 2, "9.2")] 1%Z 2 _ _) _)
            top_level_templates fromstring_text (Ok parseDMS_reject) no_page
            "Example" "en" None "text {{coord|abc|9.2}}" "{{coord|abc|9.2}}"
            "coord|abc|9.2" "coord" _ _ _ _);
    try reflexivity.
  left. reflexivity.
Defined.
(** ** The augmenter *)

Lemma augment_returns parseDMS data coords_fiels :
  exists data' ret log,
    augment_data_with_coords (Ok parseDMS) data coords_fiels
    = Ok (data', ret, log).
Proof.
  unfold augment_data_with_coords. cbn [bind].
  destruct (negb (any_value (looked_up data coords_fiels))); [eauto|].
  destruct (augment_try parseDMS data (looked_up data coords_fiels))
    as [d' [u|e]]; eauto.
Qed.

(** C7, as stated, fails: where the module [coordinates] is not
    installed, the import at the head of the augmenter raises, outside the
    [try] and before the wanted values are looked at; the exception leaves
    the augmenter and [data_from_templates], for a template that has none of
    the wanted fields. *)
Lemma missing_module_aborts :
  augment_data_with_coords no_coordinates
    [("name", "x")] [["latd"]; ["longd"]]
  = Raise ImportError
  /\ data_from_templates top_level_templates fromstring_text no_coordinates
       no_page "Example" "en"
       (Some [("infobox", [["latd"]; ["longd"]])])
       (Some "{{Infobox|name=x}}")
     = Raise ImportError.
Proof. split; vm_compute; reflexivity. Qed.

(** C7, amended: once the import of line 155 has bound the DMS parser,
    [augment_data_with_coords] returns normally for every parser,
    dictionary and field groups.  When the parser raises, or returns no
    result, on the looked-up values, the dictionary is left as it was and
    the failure is only logged.  In [data_from_templates], once the
    reference cleaner and the coordinate resolver have succeeded on a
    template, its round of the loop then ends without an exception, whatever
    the field groups and the DMS parser.  When the import raises, the
    augmenter raises the same exception, and so does the round of a
    template whose name has field groups. *)
Theorem augmenter_is_lenient :
  forall (parseDMS : dms_parser)
         (data : sdict) (coords_fiels : list (list string)),
    (exists data' ret log,
       augment_data_with_coords (Ok parseDMS) data coords_fiels
       = Ok (data', ret, log))
    /\ (is_raise (parseDMS (looked_up data coords_fiels)) = true
        \/ parseDMS (looked_up data coords_fiels) = Ok [] ->
        augment_data_with_coords (Ok parseDMS) data coords_fiels
        = if any_value (looked_up data coords_fiels)
          then Ok (data, None, ["Can't find coordinates"])
          else Ok (data, Some false, []))
    /\ (forall (fromstring : string -> result node)
               (extra_coords : extra_coords_t)
               (span body name : string) (d resolved : sdict),
          clean_ref fromstring (Str.slice_inner 2 2 span) = Ok body ->
          tokenize (escape_nested (clean_wiki_links body)) = (name, d) ->
          (if String.eqb (cleaned name) "coord"
           then extract_data_from_coord d else Ok d) = Ok resolved ->
          exists occ log,
            process_template fromstring (Ok parseDMS) extra_coords span
            = Ok (occ, log))
    /\ (forall e : exn,
          augment_data_with_coords (Raise e) data coords_fiels = Raise e)
    /\ (forall (e : exn) (fromstring : string -> result node)
               (group : string * list (list string))
               (groups : list (string * list (list string)))
               (span body name : string) (d resolved : sdict)
               (fields : list (list string)),
          clean_ref fromstring (Str.slice_inner 2 2 span) = Ok body ->
          tokenize (escape_nested (clean_wiki_links body)) = (name, d) ->
          (if String.eqb (cleaned name) "coord"
           then extract_data_from_coord d else Ok d) = Ok resolved ->
          dict_get String.eqb (cleaned name) (group :: groups) = Some fields ->
          process_template fromstring (Raise e) (Some (group :: groups)) span
          = Raise e).
Proof.
  intros parseDMS data coords_fiels.
  split; [apply augment_returns|]. split; [|split; [|split]].
  - intros Hfail. unfold augment_data_with_coords. cbn [bind].
    destruct (any_value (looked_up data coords_fiels)); [|reflexivity].
    cbn [negb]. unfold augment_try.
    destruct Hfail as [Hfail | ->]; [|reflexivity].
    destruct (parseDMS (looked_up data coords_fiels)); [discriminate|].
    reflexivity.
  - intros fs extra span body nm d resolved Hclean Htok Hres.
    unfold process_template. rewrite Hclean. cbn [bind].
    rewrite Htok, Hres. cbn [bind].
    destruct extra as [[|g groups]|]; cbn [bind]; eauto.
    destruct (dict_get String.eqb (cleaned nm) (g :: groups)) as [fields|];
      cbn [bind]; eauto.
    destruct (augment_returns parseDMS resolved fields)
      as (d1 & ret & lg & ->).
    cbn [bind]. eauto.
  - reflexivity.
  - intros e fs g groups span body nm d resolved fields Hclean Htok Hres Hg.
    unfold process_template. rewrite Hclean. cbn [bind].
    rewrite Htok, Hres. cbn [bind]. rewrite Hg. reflexivity.
Qed.

Lemma augmenter_is_lenient_witness :
  augment_data_with_coords (Ok parseDMS_reject)
    [("latd", "43"); ("longd", "eleven")] [["latd"]; ["longd"]]
  = Ok ([("latd", "43"); ("longd", "eleven")], None,
        ["Can't find coordinates"]).
Proof.
  apply (proj1 (proj2 (augmenter_is_lenient parseDMS_reject
           [("latd", "43"); ("longd", "eleven")] [["latd"]; ["longd"]]))).
  left. reflexivity.
Defined.

(** ** The cleaners *)

Lemma match_needs_opener (p : Re.regex) s :
  (p = Re.link_plain \/ p = Re.link_renamed) ->
  String.prefix "[[" s = false -> Re.match_at p s = None.
Proof.
  intros Hp Hs.
  destruct s as [|a [|b r]].
  - destruct Hp as [-> | ->]; reflexivity.
  - destruct Hp as [-> | ->]; unfold Re.match_at; simpl;
      destruct (Str.eqb_ascii a "["); reflexivity.
  - unfold Str.eqb_ascii in *. simpl in Hs.
    destruct (ascii_dec "[" a) as [<- | Ha].
    + destruct (ascii_dec "[" b) as [<- | Hb].
      * destruct r; discriminate Hs.
      * apply not_eq_sym, Ascii.eqb_neq in Hb.
        destruct Hp as [-> | ->]; unfold Re.match_at; simpl;
          unfold Str.eqb_ascii; rewrite Hb; reflexivity.
    + apply not_eq_sym, Ascii.eqb_neq in Ha.
      destruct Hp as [-> | ->]; unfold Re.match_at; simpl;
        unfold Str.eqb_ascii; rewrite Ha; reflexivity.
Qed.

Lemma sub_group1_no_opener (p : Re.regex) s :
  (p = Re.link_plain \/ p = Re.link_renamed) ->
  Str.contains "[[" s = false ->
  Re.sub_group1 (Re.match_at p) 0 s = s.
Proof.
  intros Hp. induction s as [|c r IH]; [reflexivity|].
  intros H. cbn [Str.contains] in H.
  destruct (String.prefix "[[" (String c r)) eqn:Hs; [discriminate|].
  cbn [Re.sub_group1]. rewrite (match_needs_opener p _ Hp Hs).
  rewrite (IH H). reflexivity.
Qed.

Lemma clean_wiki_links_no_opener s :
  Str.contains "[[" s = false -> clean_wiki_links s = s.
Proof.
  intros H. unfold clean_wiki_links.
  rewrite (sub_group1_no_opener Re.link_plain s) by auto.
  apply sub_group1_no_opener; auto.
Qed.

(** C8, as stated, fails: link removal applied to its own output still
    changes it, and so does the normalizer built on the text parser. *)
Lemma normalize_not_idempotent :
  clean_wiki_links "[[[[A]]]]" = "[[A]]"
  /\ clean_wiki_links (clean_wiki_links "[[[[A]]]]") = "A"
  /\ ~ (forall s : string,
          clean_wiki_links (clean_wiki_links s) = clean_wiki_links s)
  /\ ~ (forall s t : string,
          normalize fromstring_text s = Ok t ->
          normalize fromstring_text t = Ok t).
Proof.
  split; [reflexivity|]. split; [reflexivity|]. split.
  - intros H. specialize (H "[[[[A]]]]"). vm_compute in H. discriminate H.
  - intros H. specialize (H "[[[[A]]]]" "[[A]]" eq_refl).
    vm_compute in H. discriminate H.
Qed.

(** C8, amended: text that the markup parser reads as one text node, that
    has no white space at either end and that holds no link opener ["[["]
    is returned unchanged by the normalizer; so whenever the normalizer
    returns such text, running it again on its output is a no-op. *)
Theorem normalize_clean_text :
  forall (fromstring : string -> result node) (tag s : string),
    fromstring s = Ok (Element tag [Text s]) ->
    Str.strip s = s ->
    Str.contains "[[" s = false ->
    normalize fromstring s = Ok s
    /\ (forall s0 : string,
          normalize fromstring s0 = Ok s ->
          (s1 <- normalize fromstring s0 ;; normalize fromstring s1)
          = normalize fromstring s0).
Proof.
  intros fs tag s Hfs Hstrip Hlink.
  assert (Hn : normalize fs s = Ok s).
  { unfold normalize, clean_ref. rewrite Hfs. cbn [bind].
    cbn [clean_ref_element Str.join]. rewrite Hstrip.
    rewrite (clean_wiki_links_no_opener s Hlink). reflexivity. }
  split; [exact Hn|].
  intros s0 H0. rewrite H0. cbn [bind]. exact Hn.
Qed.

Lemma normalize_clean_text_witness :
  normalize fromstring_text "See B and C" = Ok "See B and C".
Proof.
  apply (proj1 (normalize_clean_text fromstring_text "p" "See B and C"
                  eq_refl eq_refl eq_refl)).
Defined.

(** ** The template-usage crawl *)

(** C9: the filter of [pages_with_template] keeps the titles of talk pages.
    The lowercase form of ["User talk:Example"] starts with the reserved
    prefix ["user talk:"], and yet the title is kept, as are
    ["User_talk:Example"] and ["Template talk:Infobox"]; only the pages of
    the [User:] and [Template:] namespaces are dropped. *)
Theorem talk_pages_are_kept :
  Str.startswith (Str.lower "User talk:Example") "user talk:" = true
  /\ kept "User talk:Example" = true
  /\ kept "User_talk:Example" = true
  /\ kept "Template talk:Infobox" = true
  /\ skip_page = ["user:"; "utente:"; "user_talk:discussioni_utente:";
                  "template:"; "template_talk:"; "discussioni_template:"]
  /\ pages_with_template
       (one_page ["User:A"; "User talk:Example"; "Template:Infobox";
                  "Template talk:Infobox"; "Rome"])
       1000 "Template:Infobox_museum" "en" None true
     = Ok ["User talk:Example"; "Template talk:Infobox"; "Rome"].
Proof. repeat split; vm_compute; reflexivity. Qed.

(** * Further properties *)

(** ** Dictionaries *)

Section DictFacts.
Context {K V : Type}.
Variable keq : K -> K -> bool.
Hypothesis keq_eq : forall a b, keq a b = true <-> a = b.

Lemma keq_refl a : keq a a = true.
Proof. apply keq_eq. reflexivity. Qed.

Lemma keq_neq a b : a <> b -> keq a b = false.
Proof.
  intros H. destruct (keq a b) eqn:E; [|reflexivity].
  apply keq_eq in E. contradiction.
Qed.

Lemma get_set_same k v (d : dict K V) :
  dict_get keq k (dict_set keq k v d) = Some v.
Proof.
  induction d as [|[a w] r IH]; simpl.
  - rewrite keq_refl. reflexivity.
  - destruct (keq k a) eqn:E; simpl; rewrite E; [reflexivity | exact IH].
Qed.

Lemma get_set_other k k' v (d : dict K V) :
  k' <> k ->
  dict_get keq k' (dict_set keq k v d) = dict_get keq k' d.
Proof.
  intros Hne. induction d as [|[a w] r IH]; simpl.
  - rewrite (keq_neq _ _ Hne). reflexivity.
  - destruct (keq k a) eqn:E; simpl.
    + apply keq_eq in E. subst a. rewrite (keq_neq _ _ Hne). reflexivity.
    + destruct (keq k' a); [reflexivity | exact IH].
Qed.

Lemma get_remove_same k (d : dict K V) :
  dict_get keq k (dict_remove keq k d) = None.
Proof.
  unfold dict_remove. induction d as [|[a w] r IH]; simpl; [reflexivity|].
  destruct (keq k a) eqn:E; simpl; [exact IH|].
  rewrite E. exact IH.
Qed.

Lemma get_remove_other k k' (d : dict K V) :
  k' <> k ->
  dict_get keq k' (dict_remove keq k d) = dict_get keq k' d.
Proof.
  intros Hne. unfold dict_remove.
  induction d as [|[a w] r IH]; simpl; [reflexivity|].
  destruct (keq k a) eqn:E; simpl.
  - apply keq_eq in E. subst a. rewrite (keq_neq _ _ Hne). exact IH.
  - destruct (keq k' a); [reflexivity | exact IH].
Qed.

Lemma get_None_keys k (d : dict K V) :
  dict_get keq k d = None <-> ~ In k (dict_keys d).
Proof.
  induction d as [|[a w] r IH]; simpl.
  - split; [intros _ [] | reflexivity].
  - destruct (keq k a) eqn:E.
    + apply keq_eq in E. subst a. split; [discriminate | intros H].
      exfalso. apply H. left. reflexivity.
    + rewrite IH. split.
      * intros H [H1 | H1]; [|exact (H H1)].
        subst a. rewrite keq_refl in E. discriminate.
      * intros H H1. apply H. right. exact H1.
Qed.

Lemma keys_set k v (d : dict K V) :
  dict_keys (dict_set keq k v d)
  = match dict_get keq k d with
    | Some _ => dict_keys d
    | None => (dict_keys d ++ [k])%list
    end.
Proof.
  induction d as [|[a w] r IH]; simpl; [reflexivity|].
  destruct (keq k a) eqn:E; simpl; [reflexivity|].
  rewrite IH. destruct (dict_get keq k r); reflexivity.
Qed.

Lemma set_NoDup k v (d : dict K V) :
  NoDup (dict_keys d) -> NoDup (dict_keys (dict_set keq k v d)).
Proof.
  intros H. rewrite keys_set.
  destruct (dict_get keq k d) eqn:E; [exact H|].
  apply get_None_keys in E.
  apply NoDup_app; [exact H | repeat constructor; intros [] |].
  intros x Hx [<- | []]. exact (E Hx).
Qed.

Lemma remove_NoDup k (d : dict K V) :
  NoDup (dict_keys d) -> NoDup (dict_keys (dict_remove keq k d)).
Proof.
  unfold dict_remove, dict_keys.
  induction d as [|[a w] r IH]; simpl; [auto|].
  intros H. inversion H as [|? ? Ha Hr]; subst.
  destruct (keq k a); simpl; [apply IH, Hr|].
  constructor; [|apply IH, Hr].
  intros Hin. apply Ha. apply in_map_iff in Hin.
  destruct Hin as (x & <- & Hx). apply filter_In in Hx.
  apply in_map. apply Hx.
Qed.

(** A dictionary with unique keys that is built by setting a key that
    it does not hold gains the entry at its end. *)
Lemma set_fresh k v (d : dict K V) :
  dict_get keq k d = None -> dict_set keq k v d = (d ++ [(k, v)])%list.
Proof.
  induction d as [|[a w] r IH]; simpl; [reflexivity|].
  destruct (keq k a); [discriminate|].
  intros H. rewrite (IH H). reflexivity.
Qed.

End DictFacts.

Lemma string_eqb_iff a b : String.eqb a b = true <-> a = b.
Proof. apply String.eqb_eq. Qed.

Lemma key_eqb_iff a b : key_eqb a b = true <-> a = b.
Proof.
  destruct a as [s|n], b as [t|m]; simpl.
  - rewrite String.eqb_eq. split; congruence.
  - split; discriminate.
  - split; discriminate.
  - rewrite Z.eqb_eq. split; congruence.
Qed.

(** ** The tokenizer: unique keys, last write wins, round trips *)

Lemma tokenize_step_keys st seg :
  NoDup (dict_keys (snd st)) ->
  NoDup (dict_keys (snd (tokenize_step st seg))).
Proof.
  destruct st as [n d]. unfold tokenize_step.
  destruct (Str.split1 "=" seg) as [[k v]|]; simpl;
    apply (set_NoDup String.eqb string_eqb_iff).
Qed.

Lemma tokenize_loop_keys segs : forall st,
  NoDup (dict_keys (snd st)) ->
  NoDup (dict_keys (snd (fold_left tokenize_step segs st))).
Proof.
  induction segs as [|seg rest IH]; intros st H; [exact H|].
  cbn [fold_left]. apply IH, tokenize_step_keys, H.
Qed.

(** X1: the keys of the data that the tokenizer returns are pairwise
    distinct, for every body. *)
Theorem tokenize_keys_unique :
  forall body : string, NoDup (dict_keys (snd (tokenize body))).
Proof.
  intros body. unfold tokenize. cbn [snd].
  apply tokenize_loop_keys. constructor.
Qed.

Lemma find_app {A : Type} (f : A -> bool) (l1 l2 : list A) :
  find f (l1 ++ l2)
  = match find f l1 with
    | Some x => Some x
    | None => find f l2
    end.
Proof.
  induction l1 as [|a r IH]; simpl; [reflexivity|].
  destruct (f a); [reflexivity | exact IH].
Qed.

Lemma fold_assign_get l : forall (d : sdict) k,
  sget k (fold_left assign l d)
  = match last_assigned k l with
    | Some v => Some v
    | None => sget k d
    end.
Proof.
  unfold last_assigned.
  induction l as [|[a w] r IH]; intros d k; [reflexivity|].
  cbn [fold_left rev]. rewrite IH, find_app.
  destruct (find (fun kv => String.eqb k (fst kv)) (rev r)) as [kv|];
    [reflexivity|].
  cbn [find fst option_map]. unfold assign, sget, sset. cbn [fst snd].
  destruct (String.eqb_spec k a) as [->|Hne]; cbn [option_map snd].
  - apply (get_set_same String.eqb string_eqb_iff).
  - apply (get_set_other String.eqb string_eqb_iff). exact Hne.
Qed.

Lemma tokenize_data body :
  snd (tokenize body)
  = fold_left assign (assignments [] (tl (Str.split "|" body))) [].
Proof.
  unfold tokenize. cbn [snd].
  change (0, @nil (string * string))
    with (List.length (filter lacks_eq []), @nil (string * string)).
  rewrite tokenize_loop_assignments. reflexivity.
Qed.

(** X2: looking a key up in the data of a tokenized body gives the value of
    the last segment, in body order, that was assigned to that key, and
    nothing when no segment was. *)
Theorem tokenize_last_write_wins :
  forall (body k : string),
    sget k (snd (tokenize body))
    = last_assigned k (assignments [] (tl (Str.split "|" body))).
Proof.
  intros body k. rewrite tokenize_data, fold_assign_get.
  destruct (last_assigned k _); reflexivity.
Qed.

(** *** Splitting what was joined *)

Lemma split_no_sep sep s :
  Str.mem sep s = false -> Str.split sep s = [s].
Proof.
  induction s as [|c r IH]; simpl; [reflexivity|].
  unfold Str.eqb_ascii. rewrite (Ascii.eqb_sym c sep).
  destruct (Ascii.eqb sep c); [discriminate|]. simpl.
  intros H. rewrite (IH H). reflexivity.
Qed.

Lemma split_app_sep sep a r :
  Str.mem sep a = false ->
  Str.split sep (a ++ String sep r) = a :: Str.split sep r.
Proof.
  induction a as [|c a IH]; simpl.
  - intros _. unfold Str.eqb_ascii. rewrite Ascii.eqb_refl. reflexivity.
  - unfold Str.eqb_ascii. rewrite (Ascii.eqb_sym c sep).
    destruct (Ascii.eqb sep c); [discriminate|]. simpl.
    intros H. rewrite (IH H). reflexivity.
Qed.

Lemma split1_no_sep sep s :
  Str.mem sep s = false -> Str.split1 sep s = None.
Proof.
  induction s as [|c r IH]; simpl; [reflexivity|].
  unfold Str.eqb_ascii. rewrite (Ascii.eqb_sym c sep).
  destruct (Ascii.eqb sep c); [discriminate|]. simpl.
  intros H. rewrite (IH H). reflexivity.
Qed.

Lemma split1_app_sep sep a r :
  Str.mem sep a = false ->
  Str.split1 sep (a ++ String sep r) = Some (a, r).
Proof.
  induction a as [|c a IH]; simpl.
  - intros _. unfold Str.eqb_ascii. rewrite Ascii.eqb_refl. reflexivity.
  - unfold Str.eqb_ascii. rewrite (Ascii.eqb_sym c sep).
    destruct (Ascii.eqb sep c); [discriminate|]. simpl.
    intros H. rewrite (IH H). reflexivity.
Qed.

Lemma split_body name segments :
  Str.mem "|" name = false ->
  Forall (fun seg => Str.mem "|" seg = false) segments ->
  Str.split "|" (body_of name segments) = name :: segments.
Proof.
  unfold body_of. revert name.
  induction segments as [|seg rest IH]; intros name Hn Hs.
  - simpl. apply split_no_sep, Hn.
  - inversion Hs as [|? ? Hseg Hrest]; subst.
    change (Str.join "|" (name :: seg :: rest))
      with (name ++ String "|" (Str.join "|" (seg :: rest))).
    rewrite (split_app_sep _ _ _ Hn). f_equal. apply IH; assumption.
Qed.

Lemma tokenize_body_of name segments :
  Str.mem "|" name = false ->
  Forall (fun seg => Str.mem "|" seg = false) segments ->
  tokenize (body_of name segments)
  = (Str.strip name, fold_left assign (assignments [] segments) []).
Proof.
  intros Hn Hs.
  rewrite (surjective_pairing (tokenize (body_of name segments))).
  rewrite tokenize_data. unfold tokenize. cbn [fst].
  rewrite (split_body name segments Hn Hs). reflexivity.
Qed.

Lemma sget_app_fresh k (d : sdict) kv :
  sget k d = None -> k <> fst kv -> sget k (d ++ [kv])%list = None.
Proof.
  unfold sget. rewrite !(get_None_keys String.eqb string_eqb_iff).
  unfold dict_keys. rewrite map_app, in_app_iff. simpl.
  intros H Hne [H1 | [H1 | []]]; [exact (H H1) | congruence].
Qed.

Lemma fold_assign_fresh l : forall d : sdict,
  NoDup (List.map fst l) ->
  (forall k, In k (List.map fst l) -> sget k d = None) ->
  fold_left assign l d = (d ++ l)%list.
Proof.
  induction l as [|[k v] r IH]; intros d Hnd Hfresh.
  - simpl. rewrite app_nil_r. reflexivity.
  - cbn [fold_left]. unfold assign at 2. cbn [fst snd]. unfold sset.
    rewrite (set_fresh String.eqb k v d (Hfresh k (or_introl eq_refl))).
    inversion Hnd as [|? ? Hk Hr]; subst.
    rewrite IH.
    + rewrite <- app_assoc. reflexivity.
    + exact Hr.
    + intros k' Hk'. apply sget_app_fresh.
      * apply Hfresh. right. exact Hk'.
      * simpl. intros ->. exact (Hk Hk').
Qed.

Lemma assignments_named kvs : forall before,
  Forall (fun kv => Str.mem "=" (fst kv) = false) kvs ->
  assignments before (List.map named kvs) = List.map trimmed kvs.
Proof.
  induction kvs as [|[k v] r IH]; intros before H; [reflexivity|].
  inversion H as [|? ? Hk Hr]; subst. cbn [List.map assignments].
  rewrite (IH _ Hr). f_equal.
  unfold assignment, named. cbn [fst snd] in *.
  change (k ++ "=" ++ v) with (k ++ String "=" v).
  rewrite (split1_app_sep "=" k v Hk). reflexivity.
Qed.

Lemma mem_app c a b : Str.mem c (a ++ b) = Str.mem c a || Str.mem c b.
Proof.
  induction a as [|x a IH]; simpl; [reflexivity|].
  rewrite IH. apply orb_assoc.
Qed.

(** X3: a body written as a name followed by named parameters [k=v], where
    no name, key or value holds a pipe, no key holds an equals sign and the
    trimmed keys are pairwise distinct, is tokenized back into the trimmed
    name and exactly the trimmed pairs, in the order written. *)
Theorem tokenize_named_parameters :
  forall (name : string) (kvs : list (string * string)),
    Str.mem "|" name = false ->
    Forall (fun kv => Str.mem "|" (fst kv) = false
                      /\ Str.mem "|" (snd kv) = false
                      /\ Str.mem "=" (fst kv) = false) kvs ->
    NoDup (List.map (fun kv => Str.strip (fst kv)) kvs) ->
    tokenize (body_of name (List.map named kvs))
    = (Str.strip name, List.map trimmed kvs).
Proof.
  intros name kvs Hn Hkvs Hnd.
  rewrite tokenize_body_of.
  - f_equal. rewrite assignments_named.
    + rewrite fold_assign_fresh; [reflexivity | | reflexivity].
      rewrite map_map. exact Hnd.
    + eapply Forall_impl; [|exact Hkvs]. intros kv H. apply H.
  - exact Hn.
  - apply Forall_map. eapply Forall_impl; [|exact Hkvs].
    intros [k v] (H1 & H2 & _). unfold named. cbn [fst snd] in *.
    rewrite !mem_app, H1, H2. reflexivity.
Qed.

Lemma tokenize_named_parameters_witness :
  tokenize (body_of " Infobox " [named ("Name ", " Foo"); named ("Population", "100")])
  = (Str.strip " Infobox ",
     [trimmed ("Name ", " Foo"); trimmed ("Population", "100")]).
Proof.
  apply (tokenize_named_parameters " Infobox "
           [("Name ", " Foo"); ("Population", "100")]).
  - reflexivity.
  - repeat constructor.
  - repeat constructor; simpl; intuition discriminate.
Defined.

(** *** Positional parameters *)

Lemma of_N_inj n m : Str.of_N n = Str.of_N m -> n = m.
Proof.
  unfold Str.of_N. intros H.
  assert (Hnil : forall k, N.to_uint k <> Decimal.Nil).
  { intros [|p]; [discriminate|]. simpl. apply DecimalPos.Unsigned.to_uint_nonnil. }
  apply (f_equal NilZero.uint_of_string) in H.
  rewrite !NilZero.usu in H by apply Hnil.
  injection H as H. apply DecimalN.Unsigned.to_uint_inj, H.
Qed.

Lemma string_app_inv_head (a b c : string) : (a ++ b = a ++ c -> b = c)%string.
Proof.
  induction a as [|x a IH]; simpl; [auto|].
  intros H. injection H as H. auto.
Qed.

Lemma anon_key_inj n m : anon_key n = anon_key m -> n = m.
Proof.
  unfold anon_key, Str.of_nat. intros H.
  apply string_app_inv_head, of_N_inj in H. apply Nat2N.inj, H.
Qed.

Lemma keys_of_combine {A B : Type} (l1 : list A) : forall l2 : list B,
  List.length l1 = List.length l2 -> List.map fst (combine l1 l2) = l1.
Proof.
  induction l1 as [|a r IH]; intros [|b l2] H; simpl in *;
    try discriminate; [reflexivity|].
  f_equal. apply IH. congruence.
Qed.

Lemma NoDup_map_inj {A B : Type} (f : A -> B) (l : list A) :
  (forall a b, f a = f b -> a = b) -> NoDup l -> NoDup (List.map f l).
Proof.
  intros Hinj H. induction H as [|x l Hx Hl IH]; simpl; constructor.
  - intros Hin. apply in_map_iff in Hin. destruct Hin as (y & Hy & Hin).
    apply Hinj in Hy. subst y. exact (Hx Hin).
  - exact IH.
Qed.

Lemma assignments_positional vs : forall before,
  Forall (fun v => Str.mem "=" v = false) vs ->
  assignments before vs
  = combine (List.map anon_key
               (seq (S (List.length (filter lacks_eq before)))
                    (List.length vs)))
            (List.map Str.strip vs).
Proof.
  induction vs as [|v r IH]; intros before H; [reflexivity|].
  inversion H as [|? ? Hv Hr]; subst. cbn [assignments].
  rewrite (IH _ Hr), filter_lacks_snoc.
  unfold assignment, lacks_eq. rewrite (split1_no_sep "=" v Hv).
  reflexivity.
Qed.

(** X4: a body written as a name followed by positional values, none of
    which holds a pipe or an equals sign, is tokenized into the trimmed name
    and the dictionary that maps [anon_1], [anon_2], ... to the trimmed
    values in the order written. *)
Theorem tokenize_positional_parameters :
  forall (name : string) (values : list string),
    Str.mem "|" name = false ->
    Forall (fun v => Str.mem "|" v = false /\ Str.mem "=" v = false) values ->
    tokenize (body_of name values)
    = (Str.strip name,
       combine (List.map anon_key (seq 1 (List.length values)))
               (List.map Str.strip values)).
Proof.
  intros name values Hn Hvs.
  rewrite tokenize_body_of.
  - f_equal. rewrite assignments_positional.
    + cbn [filter List.length].
      rewrite fold_assign_fresh; [reflexivity | | reflexivity].
      rewrite keys_of_combine by (rewrite !length_map, length_seq; reflexivity).
      apply NoDup_map_inj; [apply anon_key_inj | apply seq_NoDup].
    + eapply Forall_impl; [|exact Hvs]. intros v H. apply H.
  - exact Hn.
  - eapply Forall_impl; [|exact Hvs]. intros v H. apply H.
Qed.

Lemma tokenize_positional_parameters_witness :
  tokenize (body_of "coord" ["45.5"; " 9.2 "])
  = (Str.strip "coord",
     combine (List.map anon_key (seq 1 2)) (List.map Str.strip ["45.5"; " 9.2 "])).
Proof.
  apply (tokenize_positional_parameters "coord" ["45.5"; " 9.2 "]).
  - reflexivity.
  - repeat constructor.
Defined.

(** ** The matcher *)

Lemma exec_many p' ig min a cap len s :
  Re.exec (Re.Many min a :: p') ig cap len s
  = many_loop p' ig min a 0 cap len s.
Proof. reflexivity. Qed.

Lemma exec_open p' ig cap len s :
  Re.exec (Re.GroupOpen :: p') ig cap len s
  = Re.exec p' true EmptyString len s.
Proof. reflexivity. Qed.

Lemma exec_close p' ig cap len s :
  Re.exec (Re.GroupClose :: p') ig cap len s = Re.exec p' false cap len s.
Proof. reflexivity. Qed.

Lemma exec_done ig cap len s : Re.exec [] ig cap len s = Some (cap, len).
Proof. reflexivity. Qed.

Lemma exec_lit c p' ig cap len s :
  Re.exec (Re.One (Re.Lit c) :: p') ig cap len (String c s)
  = Re.exec p' ig (Re.capture ig cap c) (S len) s.
Proof.
  cbn [Re.exec Re.accepts]. unfold Str.eqb_ascii.
  rewrite Ascii.eqb_refl. reflexivity.
Qed.

Lemma exec_lit_other c d p' ig cap len s :
  d <> c ->
  Re.exec (Re.One (Re.Lit c) :: p') ig cap len (String d s) = None.
Proof.
  intros H. cbn [Re.exec Re.accepts]. unfold Str.eqb_ascii.
  apply Ascii.eqb_neq in H. rewrite H. reflexivity.
Qed.

Lemma exec_lit_empty c p' ig cap len :
  Re.exec (Re.One (Re.Lit c) :: p') ig cap len EmptyString = None.
Proof. reflexivity. Qed.

Lemma capture_all_cons ig cap c t :
  capture_all ig (Re.capture ig cap c) t = capture_all ig cap (String c t).
Proof.
  unfold capture_all, Re.capture. destruct ig; [|reflexivity].
  induction cap as [|x cap IH]; simpl; [reflexivity|].
  rewrite IH. reflexivity.
Qed.

Lemma string_app_nil_r (s : string) : (s ++ EmptyString)%string = s.
Proof. induction s as [|c r IH]; simpl; [|rewrite IH]; reflexivity. Qed.

Lemma string_app_assoc (a b c : string) :
  ((a ++ b) ++ c = a ++ (b ++ c))%string.
Proof. induction a as [|x a IH]; simpl; [|rewrite IH]; reflexivity. Qed.

Lemma string_length_app (a b : string) :
  String.length (a ++ b) = String.length a + String.length b.
Proof. induction a as [|x a IH]; simpl; [|rewrite IH]; reflexivity. Qed.

(** The repetition takes the longest run when the rest of the pattern
    matches after it. *)
Lemma many_loop_longest p' ig min a t : forall count cap len rest r,
  all_chars (Re.accepts a) t = true ->
  match rest with
  | EmptyString => True
  | String c _ => Re.accepts a c = false
  end ->
  min <= count + String.length t ->
  Re.exec p' ig (capture_all ig cap t) (len + String.length t) rest = Some r ->
  many_loop p' ig min a count cap len (t ++ rest) = Some r.
Proof.
  induction t as [|x t IH]; intros count cap len rest r Ht Hrest Hmin Hexec.
  - simpl in *. rewrite Nat.add_0_r in *.
    assert (Hcap : capture_all ig cap EmptyString = cap).
    { unfold capture_all. destruct ig; [apply string_app_nil_r|reflexivity]. }
    rewrite Hcap in Hexec.
    apply Nat.leb_le in Hmin.
    destruct rest as [|c rest']; cbn [many_loop]; [rewrite Hmin; exact Hexec|].
    rewrite Hrest, Hmin. exact Hexec.
  - cbn [all_chars] in Ht. apply andb_prop in Ht. destruct Ht as [Hx Ht].
    change (String x t ++ rest) with (String x (t ++ rest)).
    cbn [many_loop]. rewrite Hx.
    rewrite (IH (S count) (Re.capture ig cap x) (S len) rest r);
      [reflexivity | exact Ht | exact Hrest | simpl in Hmin; lia |].
    rewrite capture_all_cons.
    simpl String.length in Hexec. rewrite Nat.add_succ_r in Hexec.
    exact Hexec.
Qed.

(** The repetition fails when the rest of the pattern fails after every
    run that it can take. *)
Lemma many_loop_fails p' ig min a s : forall count cap len,
  (forall pre s' cap' len',
     s = pre ++ s' -> all_chars (Re.accepts a) pre = true ->
     Re.exec p' ig cap' len' s' = None) ->
  many_loop p' ig min a count cap len s = None.
Proof.
  induction s as [|c r IH]; intros count cap len H.
  - cbn [many_loop]. destruct (Nat.leb min count); [|reflexivity].
    apply (H EmptyString); reflexivity.
  - assert (Hstop : (if Nat.leb min count
                     then Re.exec p' ig cap len (String c r) else None) = None).
    { destruct (Nat.leb min count); [|reflexivity].
      apply (H EmptyString); reflexivity. }
    cbn [many_loop]. destruct (Re.accepts a c) eqn:Hc; [|exact Hstop].
    rewrite IH; [exact Hstop|].
    intros pre s' cap' len' Hr Hpre.
    apply (H (String c pre)); [rewrite Hr; reflexivity|].
    cbn [all_chars]. rewrite Hc. exact Hpre.
Qed.

(** ** [clean_wiki_links] on text with links *)


Lemma no_char_cons c x s :
  no_char c (String x s) = negb (Str.eqb_ascii c x) && no_char c s.
Proof. unfold no_char. simpl. apply negb_orb. Qed.

Lemma link_class_accepts t :
  no_char "|" t = true -> no_char "]" t = true ->
  all_chars (Re.accepts link_class) t = true.
Proof.
  induction t as [|x t IH]; [reflexivity|].
  rewrite !no_char_cons. intros H1 H2.
  apply andb_prop in H1. destruct H1 as [H1 H1'].
  apply andb_prop in H2. destruct H2 as [H2 H2'].
  cbn [all_chars]. rewrite (IH H1' H2'), andb_true_r.
  unfold link_class. cbn [Re.accepts Str.mem].
  unfold Str.eqb_ascii in *.
  rewrite (Ascii.eqb_sym x "|"), (Ascii.eqb_sym x "]").
  apply negb_true_iff in H1. apply negb_true_iff in H2.
  rewrite H1, H2. reflexivity.
Qed.

Lemma shown_class_accepts t :
  no_char "]" t = true -> all_chars (Re.accepts shown_class) t = true.
Proof.
  induction t as [|x t IH]; [reflexivity|].
  rewrite !no_char_cons. intros H2.
  apply andb_prop in H2. destruct H2 as [H2 H2'].
  cbn [all_chars]. rewrite (IH H2'), andb_true_r.
  unfold shown_class. cbn [Re.accepts Str.mem].
  unfold Str.eqb_ascii in *. rewrite (Ascii.eqb_sym x "]").
  apply negb_true_iff in H2. rewrite H2. reflexivity.
Qed.

Lemma link_class_not_bracket c :
  Re.accepts link_class c = true -> c <> "]"%char.
Proof. intros H ->. discriminate H. Qed.


Lemma link_needs_bracket p c s :
  is_link_pattern p -> c <> "["%char ->
  Re.match_at p (String c s) = None.
Proof.
  intros [-> | ->] H; unfold Re.match_at, Re.link_plain, Re.link_renamed;
    apply exec_lit_other; exact H.
Qed.

Lemma link_needs_two_brackets p c s :
  is_link_pattern p -> c <> "["%char ->
  Re.match_at p (String "[" (String c s)) = None.
Proof.
  intros [-> | ->] H; unfold Re.match_at, Re.link_plain, Re.link_renamed;
    rewrite exec_lit; apply exec_lit_other; exact H.
Qed.

(** Text without an opening bracket is copied. *)
Lemma sub_plain p text rest :
  is_link_pattern p -> no_char "[" text = true ->
  Re.sub_group1 (Re.match_at p) 0 (text ++ rest)
  = (text ++ Re.sub_group1 (Re.match_at p) 0 rest)%string.
Proof.
  intros Hp. induction text as [|c text IH]; [reflexivity|].
  rewrite no_char_cons. intros H. apply andb_prop in H. destruct H as [Hc H].
  change (String c text ++ rest) with (String c (text ++ rest)).
  cbn [Re.sub_group1]. rewrite (link_needs_bracket p c _ Hp).
  - rewrite (IH H). reflexivity.
  - intros ->. discriminate Hc.
Qed.

Lemma sub_skip m a rest :
  Re.sub_group1 m (String.length a) (a ++ rest) = Re.sub_group1 m 0 rest.
Proof.
  induction a as [|c a IH]; [destruct rest; reflexivity|].
  simpl. exact IH.
Qed.

(** The plain pattern on a link without renaming. *)
Lemma link_plain_match t rest :
  nonempty t = true -> no_char "|" t = true -> no_char "]" t = true ->
  Re.match_at Re.link_plain
    (String "[" (String "[" (t ++ String "]" (String "]" rest))))
  = Some (t, 4 + String.length t).
Proof.
  intros Hne H1 H2. unfold Re.match_at, Re.link_plain.
  rewrite !exec_lit, exec_open, exec_many. fold link_class.
  apply many_loop_longest.
  - apply link_class_accepts; assumption.
  - reflexivity.
  - destruct t; [discriminate Hne | simpl; lia].
  - rewrite exec_close, !exec_lit, exec_done. reflexivity.
Qed.

(** The renaming pattern on a link with renaming. *)
Lemma link_renamed_match t d rest :
  nonempty t = true -> no_char "|" t = true -> no_char "]" t = true ->
  nonempty d = true -> no_char "]" d = true ->
  Re.match_at Re.link_renamed
    (String "[" (String "["
       (t ++ String "|" (d ++ String "]" (String "]" rest)))))
  = Some (d, 5 + String.length t + String.length d).
Proof.
  intros Hne H1 H2 Hd H3. unfold Re.match_at, Re.link_renamed.
  rewrite !exec_lit, exec_many. fold link_class.
  apply many_loop_longest.
  - apply link_class_accepts; assumption.
  - reflexivity.
  - destruct t; [discriminate Hne | simpl; lia].
  - rewrite exec_lit, exec_open, exec_many. fold shown_class.
    apply many_loop_longest.
    + apply shown_class_accepts; assumption.
    + reflexivity.
    + destruct d; [discriminate Hd | simpl; lia].
    + rewrite exec_close, !exec_lit, exec_done. reflexivity.
Qed.

(** Where a run of the link class can stop inside a target that is followed
    by a character outside the class. *)
Lemma run_stops_in_target a t : forall c y pre s',
  all_chars (Re.accepts a) t = true ->
  Re.accepts a c = false ->
  (t ++ String c y)%string = (pre ++ s')%string ->
  all_chars (Re.accepts a) pre = true ->
  exists x r, s' = String x r
              /\ (x = c \/ Re.accepts a x = true).
Proof.
  induction t as [|h t IH]; intros c y pre s' Ht Hc Heq Hpre.
  - destruct pre as [|p pre]; simpl in Heq.
    + exists c, y. split; [symmetry; exact Heq | left; reflexivity].
    + injection Heq as -> _. simpl in Hpre. rewrite Hc in Hpre.
      discriminate Hpre.
  - cbn [all_chars] in Ht. apply andb_prop in Ht. destruct Ht as [Hh Ht].
    destruct pre as [|p pre]; simpl in Heq.
    + exists h, (t ++ String c y)%string.
      split; [symmetry; exact Heq | right; exact Hh].
    + injection Heq as _ Heq. simpl in Hpre.
      apply andb_prop in Hpre. destruct Hpre as [_ Hpre].
      apply (IH c y pre s' Ht Hc Heq Hpre).
Qed.

(** The plain pattern does not match at the head of a link with renaming. *)
Lemma link_plain_not_renamed t rest :
  no_char "|" t = true -> no_char "]" t = true ->
  Re.match_at Re.link_plain (String "[" (String "[" (t ++ String "|" rest)))
  = None.
Proof.
  intros H1 H2. unfold Re.match_at, Re.link_plain.
  rewrite !exec_lit, exec_open, exec_many. fold link_class.
  apply many_loop_fails. intros pre s' cap' len' Heq Hpre.
  destruct (run_stops_in_target link_class t "|" rest pre s'
              (link_class_accepts t H1 H2) eq_refl Heq Hpre)
    as (x & r & -> & Hx).
  rewrite exec_close. apply exec_lit_other.
  destruct Hx as [-> | Hx]; [discriminate|].
  apply link_class_not_bracket, Hx.
Qed.


Lemma no_char_app c a b : no_char c (a ++ b) = no_char c a && no_char c b.
Proof. unfold no_char. rewrite mem_app. apply negb_orb. Qed.

Lemma first_char_not_bracket t :
  nonempty t = true -> no_char "[" t = true ->
  exists x r, t = String x r /\ x <> "["%char.
Proof.
  destruct t as [|x r]; [discriminate|]. intros _.
  rewrite no_char_cons. intros H. apply andb_prop in H. destruct H as [H _].
  exists x, r. split; [reflexivity|]. intros ->. discriminate H.
Qed.

Lemma sub_match m c r g n a rest :
  m (String c r) = Some (g, n) ->
  r = (a ++ rest)%string -> String.length a = n - 1 ->
  Re.sub_group1 m 0 (String c r) = (g ++ Re.sub_group1 m 0 rest)%string.
Proof.
  intros H -> Hl. cbn [Re.sub_group1]. rewrite H, <- Hl, sub_skip.
  reflexivity.
Qed.

Lemma sub_no_match m c r :
  m (String c r) = None ->
  Re.sub_group1 m 0 (String c r) = String c (Re.sub_group1 m 0 r).
Proof. intros H. cbn [Re.sub_group1]. rewrite H. reflexivity. Qed.

Lemma first_pass_piece p rest :
  well_formed p = true ->
  Re.sub_group1 (Re.match_at Re.link_plain) 0 (written p ++ rest)
  = (after_first p ++ Re.sub_group1 (Re.match_at Re.link_plain) 0 rest)%string.
Proof.
  destruct p as [text | t | t d]; cbn [well_formed written after_first].
  - intros H. apply sub_plain; [left; reflexivity | exact H].
  - intros H. repeat (apply andb_prop in H; destruct H as [H ?]).
    rewrite !string_app_assoc.
    change ("[[" ++ t ++ "]]" ++ rest)
      with (String "[" (String "[" (t ++ String "]" (String "]" rest)))).
    apply (sub_match _ _ _ _ (4 + String.length t) (String "[" (t ++ "]]"))).
    + apply link_plain_match; assumption.
    + simpl. rewrite string_app_assoc. reflexivity.
    + simpl. rewrite string_length_app. simpl. lia.
  - intros H. repeat (apply andb_prop in H; destruct H as [H ?]).
    rewrite !string_app_assoc.
    change ("[[" ++ t ++ "|" ++ d ++ "]]" ++ rest)
      with (String "[" (String "[" (t ++ String "|" (d ++ "]]" ++ rest)))).
    rewrite sub_no_match by (apply link_plain_not_renamed; assumption).
    destruct (first_char_not_bracket t) as (x & r & -> & Hx); [assumption..|].
    rewrite sub_no_match
      by (apply (link_needs_two_brackets Re.link_plain x);
          [left; reflexivity | exact Hx]).
    replace (String x r ++ String "|" (d ++ "]]" ++ rest))%string
      with ((String x r ++ "|" ++ d ++ "]]") ++ rest)%string
      by (rewrite !string_app_assoc; reflexivity).
    rewrite sub_plain; [| left; reflexivity |].
    + rewrite !string_app_assoc. reflexivity.
    + rewrite !no_char_app.
      repeat (apply andb_true_intro; split); try assumption; reflexivity.
Qed.

Lemma second_pass_piece p rest :
  well_formed p = true ->
  Re.sub_group1 (Re.match_at Re.link_renamed) 0 (after_first p ++ rest)
  = (shown_as p ++ Re.sub_group1 (Re.match_at Re.link_renamed) 0 rest)%string.
Proof.
  destruct p as [text | t | t d]; cbn [well_formed written after_first shown_as].
  - intros H. apply sub_plain; [right; reflexivity | exact H].
  - intros H. repeat (apply andb_prop in H; destruct H as [H ?]).
    apply sub_plain; [right; reflexivity | assumption].
  - intros H. repeat (apply andb_prop in H; destruct H as [H ?]).
    rewrite !string_app_assoc.
    change ("[[" ++ t ++ "|" ++ d ++ "]]" ++ rest)
      with (String "[" (String "["
              (t ++ String "|" (d ++ String "]" (String "]" rest))))).
    apply (sub_match _ _ _ _ (5 + String.length t + String.length d)
             (String "[" (t ++ "|" ++ d ++ "]]"))).
    + apply link_renamed_match; assumption.
    + simpl. repeat (rewrite string_app_assoc; simpl). reflexivity.
    + simpl. rewrite !string_length_app. simpl. rewrite string_length_app.
      simpl. lia.
Qed.

Lemma first_pass doc :
  forallb well_formed doc = true ->
  Re.sub_group1 (Re.match_at Re.link_plain) 0 (concat_map written doc)
  = concat_map after_first doc.
Proof.
  induction doc as [|p doc IH]; [reflexivity|].
  cbn [forallb concat_map]. intros H. apply andb_prop in H.
  destruct H as [Hp H].
  rewrite (first_pass_piece p _ Hp), (IH H). reflexivity.
Qed.

Lemma second_pass doc :
  forallb well_formed doc = true ->
  Re.sub_group1 (Re.match_at Re.link_renamed) 0 (concat_map after_first doc)
  = concat_map shown_as doc.
Proof.
  induction doc as [|p doc IH]; [reflexivity|].
  cbn [forallb concat_map]. intros H. apply andb_prop in H.
  destruct H as [Hp H].
  rewrite (second_pass_piece p _ Hp), (IH H). reflexivity.
Qed.

(** X5: on a text made of pieces without an opening bracket and of links
    [[[target]]] and [[[target|shown]]] (targets not empty, without bracket
    or pipe; shown texts not empty, without bracket), [clean_wiki_links]
    returns the text with every link replaced by its target, or by its shown
    text when it has one. *)
Theorem clean_wiki_links_on_links :
  forall doc : list piece,
    forallb well_formed doc = true ->
    clean_wiki_links (concat_map written doc) = concat_map shown_as doc.
Proof.
  intros doc H. unfold clean_wiki_links.
  rewrite (first_pass doc H). apply second_pass, H.
Qed.

Lemma clean_wiki_links_on_links_witness :
  clean_wiki_links
    (concat_map written
       [Plain "See "; Renamed "A" "B|b"; Plain " and "; Link "C"; Plain "]."])
  = concat_map shown_as
      [Plain "See "; Renamed "A" "B|b"; Plain " and "; Link "C"; Plain "]."].
Proof.
  apply (clean_wiki_links_on_links
           [Plain "See "; Renamed "A" "B|b"; Plain " and "; Link "C";
            Plain "]."]).
  reflexivity.
Defined.

(** ** The nested-template escaper *)

Lemma exec_lit_inv c p' ig cap len s r :
  Re.exec (Re.One (Re.Lit c) :: p') ig cap len s = Some r ->
  exists s', s = String c s'
             /\ Re.exec p' ig (Re.capture ig cap c) (S len) s' = Some r.
Proof.
  destruct s as [|d s']; [discriminate|].
  destruct (Ascii.eqb_spec d c) as [->|Hne].
  - rewrite exec_lit. eauto.
  - rewrite (exec_lit_other c d) by exact Hne. discriminate.
Qed.

(** What a successful repetition has taken. *)
Lemma many_loop_sound p' ig min a s : forall count cap len r,
  many_loop p' ig min a count cap len s = Some r ->
  exists t rest,
    s = (t ++ rest)%string
    /\ all_chars (Re.accepts a) t = true
    /\ Re.exec p' ig (capture_all ig cap t) (len + String.length t) rest
       = Some r.
Proof.
  assert (Hstop : forall count cap len s r,
            (if Nat.leb min count then Re.exec p' ig cap len s else None)
            = Some r ->
            exists t rest,
              s = (t ++ rest)%string
              /\ all_chars (Re.accepts a) t = true
              /\ Re.exec p' ig (capture_all ig cap t)
                   (len + String.length t) rest = Some r).
  { intros count cap len s0 r H.
    destruct (Nat.leb min count); [|discriminate].
    exists EmptyString, s0. split; [reflexivity|]. split; [reflexivity|].
    simpl. rewrite Nat.add_0_r.
    unfold capture_all. destruct ig; [rewrite string_app_nil_r|]; exact H. }
  induction s as [|c s IH]; intros count cap len r H.
  - apply (Hstop count). exact H.
  - cbn [many_loop] in H. destruct (Re.accepts a c) eqn:Hc.
    + destruct (many_loop p' ig min a (S count) (Re.capture ig cap c)
                  (S len) s) as [m|] eqn:E.
      * injection H as <-. destruct (IH _ _ _ _ E) as (t & rest & -> & Ht & He).
        exists (String c t), rest. split; [reflexivity|]. split.
        -- cbn [all_chars]. rewrite Hc, Ht. reflexivity.
        -- rewrite capture_all_cons in He. simpl String.length.
           rewrite Nat.add_succ_r. exact He.
      * apply (Hstop count). exact H.
    + apply (Hstop count). exact H.
Qed.

Lemma brace_class_accepts g :
  no_char "}" g = true -> all_chars (Re.accepts brace_class) g = true.
Proof.
  induction g as [|x g IH]; [reflexivity|].
  rewrite no_char_cons. intros H. apply andb_prop in H. destruct H as [H H'].
  cbn [all_chars]. rewrite (IH H'), andb_true_r.
  unfold brace_class. cbn [Re.accepts Str.mem].
  unfold Str.eqb_ascii in *. rewrite (Ascii.eqb_sym x "}").
  apply negb_true_iff in H. rewrite H. reflexivity.
Qed.

(** A match of [CURLY] is a pair of braces around its group. *)
Lemma curly_sound s g n :
  Re.match_at Re.curly s = Some (g, n) ->
  exists rest,
    s = String "{" (String "{" (g ++ String "}" (String "}" rest)))
    /\ n = 4 + String.length g.
Proof.
  unfold Re.match_at, Re.curly. intros H.
  apply exec_lit_inv in H. destruct H as (s1 & -> & H).
  apply exec_lit_inv in H. destruct H as (s2 & -> & H).
  rewrite exec_open, exec_many in H.
  apply many_loop_sound in H. destruct H as (t & rest & -> & Ht & H).
  rewrite exec_close in H.
  apply exec_lit_inv in H. destruct H as (s3 & -> & H).
  apply exec_lit_inv in H. destruct H as (s4 & -> & H).
  rewrite exec_done in H. cbn [Re.capture capture_all] in H.
  injection H as <- <-. exists s4. split; [reflexivity|]. simpl. lia.
Qed.

Lemma curly_match g rest :
  no_char "}" g = true ->
  Re.match_at Re.curly
    (String "{" (String "{" (g ++ String "}" (String "}" rest))))
  = Some (g, 4 + String.length g).
Proof.
  intros H. unfold Re.match_at, Re.curly.
  rewrite !exec_lit, exec_open, exec_many. fold brace_class.
  apply many_loop_longest.
  - apply brace_class_accepts, H.
  - reflexivity.
  - lia.
  - rewrite exec_close, !exec_lit, exec_done. reflexivity.
Qed.

Lemma curly_needs_brace c s :
  c <> "{"%char -> Re.match_at Re.curly (String c s) = None.
Proof. intros H. apply exec_lit_other, H. Qed.

(** *** Slices *)

Lemma take_app a b : Str.take (String.length a) (a ++ b) = a.
Proof.
  induction a as [|c a IH]; simpl; [destruct b; reflexivity|].
  rewrite IH. reflexivity.
Qed.

Lemma drop_app a b k :
  Str.drop (String.length a + k) (a ++ b) = Str.drop k b.
Proof. induction a as [|c a IH]; simpl; [reflexivity | exact IH]. Qed.

Lemma map_length f s : String.length (Str.map f s) = String.length s.
Proof. induction s as [|c s IH]; simpl; [|rewrite IH]; reflexivity. Qed.

Lemma map_app f a b : Str.map f (a ++ b) = (Str.map f a ++ Str.map f b)%string.
Proof. induction a as [|c a IH]; simpl; [|rewrite IH]; reflexivity. Qed.

Lemma finditer_skip m a : forall pos rest,
  Re.finditer m pos (String.length a) (a ++ rest)
  = Re.finditer m (pos + String.length a) 0 rest.
Proof.
  induction a as [|c a IH]; intros pos rest.
  - simpl. rewrite Nat.add_0_r. destruct rest; reflexivity.
  - simpl. rewrite IH. f_equal. lia.
Qed.

Lemma tilde_skip a rest :
  tilde_pass (String.length a) (a ++ rest) = tilde_pass 0 rest.
Proof.
  induction a as [|c a IH]; [destruct rest; reflexivity|].
  simpl. exact IH.
Qed.

(** The loop of lines 196-201 over the matches found beforehand does what
    one pass over the text does. *)
Lemma escape_loop_pass n : forall s done,
  String.length s <= n ->
  fold_left escape_step
    (Re.finditer (Re.match_at Re.curly) (String.length done) 0 s)
    (done ++ s)%string
  = (done ++ tilde_pass 0 s)%string.
Proof.
  induction n as [|n IH]; intros s done Hlen.
  - destruct s; [reflexivity | simpl in Hlen; lia].
  - destruct s as [|c r]; [reflexivity|].
    cbn [Re.finditer tilde_pass].
    destruct (Re.match_at Re.curly (String c r)) as [[g k]|] eqn:E.
    + destruct (curly_sound _ _ _ E) as (rest & Hs & ->).
      injection Hs as -> ->.
      replace (4 + String.length g - 1)
        with (String.length (String "{" (g ++ "}}"))%string)
        by (simpl; rewrite string_length_app; simpl; lia).
      replace (String "{" (g ++ String "}" (String "}" rest)))
        with (String "{" (g ++ "}}") ++ rest)%string
        by (simpl; rewrite string_app_assoc; reflexivity).
      rewrite finditer_skip, tilde_skip. cbn [fold_left].
      assert (Hstep :
        escape_step
          (done ++ String "{" (String "{" (g ++ "}}") ++ rest))%string
          (String.length done,
           String.length done + (4 + String.length g), g)
        = ((done ++ escaped g) ++ rest)%string).
      { unfold escape_step, escaped. rewrite take_app.
        replace (done ++ String "{" (String "{" (g ++ "}}") ++ rest))%string
          with (done ++ (nested g ++ rest))%string
          by (unfold nested; simpl; rewrite !string_app_assoc; reflexivity).
        replace (4 + String.length g) with (String.length (nested g) + 0)
          by (unfold nested; simpl; rewrite string_length_app; simpl; lia).
        rewrite drop_app, drop_app. simpl Str.drop.
        rewrite !string_app_assoc. reflexivity. }
      rewrite Hstep.
      replace (S (String.length done)
               + String.length (String "{" (g ++ "}}"))%string)
        with (String.length (done ++ escaped g)%string).
      * rewrite IH.
        -- unfold escaped. rewrite !string_app_assoc. reflexivity.
        -- simpl in Hlen. rewrite string_length_app in Hlen. simpl in Hlen.
           lia.
      * unfold escaped. rewrite !string_length_app. simpl.
        rewrite !string_length_app. unfold Str.replace.
        rewrite map_length. simpl. lia.
    + replace (done ++ String c r)%string
        with ((done ++ String c EmptyString) ++ r)%string
        by (rewrite string_app_assoc; reflexivity).
      replace (S (String.length done))
        with (String.length (done ++ String c EmptyString)%string)
        by (rewrite string_length_app; simpl; lia).
      rewrite IH by (simpl in Hlen; lia).
      rewrite string_app_assoc. reflexivity.
Qed.

Lemma escape_nested_pass s : escape_nested s = tilde_pass 0 s.
Proof.
  unfold escape_nested.
  pose proof (escape_loop_pass (String.length s) s EmptyString (le_n _)) as H.
  simpl in H.
  destruct (Re.finditer (Re.match_at Re.curly) 0 0 s); exact H.
Qed.

Lemma tilde_pass_step c r g k :
  Re.match_at Re.curly (String c r) = Some (g, k) ->
  tilde_pass 0 (String c r)
  = ("{{" ++ Str.replace "|" "~" g ++ "}}" ++ tilde_pass (k - 1) r)%string.
Proof. intros H. cbn [tilde_pass]. rewrite H. reflexivity. Qed.

Lemma tilde_pass_match s g k :
  Re.match_at Re.curly s = Some (g, k) ->
  exists rest,
    s = (nested g ++ rest)%string
    /\ tilde_pass 0 s = (escaped g ++ tilde_pass 0 rest)%string.
Proof.
  intros E. destruct (curly_sound _ _ _ E) as (rest & Hs & ->).
  exists rest. split.
  - rewrite Hs. unfold nested. simpl. rewrite string_app_assoc. reflexivity.
  - subst s. rewrite (tilde_pass_step _ _ _ _ E).
    replace (4 + String.length g - 1)
      with (String.length (String "{" (g ++ "}}"))%string)
      by (simpl; rewrite string_length_app; simpl; lia).
    replace (String "{" (g ++ String "}" (String "}" rest)))
      with (String "{" (g ++ "}}") ++ rest)%string
      by (simpl; rewrite string_app_assoc; reflexivity).
    rewrite tilde_skip. unfold escaped. rewrite !string_app_assoc.
    reflexivity.
Qed.

Lemma replace_twice a b s :
  Str.replace a b (Str.replace a b s) = Str.replace a b s.
Proof.
  unfold Str.replace. induction s as [|c s IH]; simpl; [reflexivity|].
  rewrite IH. f_equal.
  destruct (Str.eqb_ascii c a) eqn:E; [|rewrite E; reflexivity].
  destruct (Str.eqb_ascii b a); reflexivity.
Qed.

Lemma replace_app a b s t :
  Str.replace a b (s ++ t) = (Str.replace a b s ++ Str.replace a b t)%string.
Proof. apply map_app. Qed.

Lemma escaped_facts g :
  String.length (escaped g) = String.length (nested g)
  /\ Str.replace "|" "~" (escaped g) = Str.replace "|" "~" (nested g).
Proof.
  unfold escaped, nested. split.
  - simpl. rewrite !string_length_app. unfold Str.replace.
    rewrite map_length. reflexivity.
  - rewrite !replace_app, replace_twice. reflexivity.
Qed.

Lemma tilde_pass_facts n : forall s,
  String.length s <= n ->
  String.length (tilde_pass 0 s) = String.length s
  /\ Str.replace "|" "~" (tilde_pass 0 s) = Str.replace "|" "~" s.
Proof.
  induction n as [|n IH]; intros s Hlen.
  - destruct s; [split; reflexivity | simpl in Hlen; lia].
  - destruct s as [|c r]; [split; reflexivity|].
    destruct (Re.match_at Re.curly (String c r)) as [[g k]|] eqn:E.
    + destruct (tilde_pass_match _ _ _ E) as (rest & Hs & ->).
      rewrite Hs in *. destruct (escaped_facts g) as [Hl Hr].
      destruct (IH rest) as [IHl IHr].
      { rewrite string_length_app in Hlen. unfold nested in Hlen.
        simpl in Hlen. lia. }
      split.
      * rewrite !string_length_app, Hl, IHl. reflexivity.
      * rewrite !replace_app, Hr, IHr. reflexivity.
    + cbn [tilde_pass]. rewrite E.
      destruct (IH r) as [IHl IHr]; [simpl in Hlen; lia|].
      split.
      * simpl. rewrite IHl. reflexivity.
      * unfold Str.replace in *. simpl. rewrite IHr. reflexivity.
Qed.

(** X6: the escaper changes nothing but pipes into tildes, in place: its
    result has the length of the body, and the two texts are equal once
    the pipes of both are written as tildes. *)
Theorem escape_nested_only_pipes :
  forall s : string,
    String.length (escape_nested s) = String.length s
    /\ Str.replace "|" "~" (escape_nested s) = Str.replace "|" "~" s.
Proof.
  intros s. rewrite escape_nested_pass.
  apply (tilde_pass_facts (String.length s)). apply le_n.
Qed.

Lemma tilde_pass_plain pre rest :
  no_char "{" pre = true ->
  tilde_pass 0 (pre ++ rest) = (pre ++ tilde_pass 0 rest)%string.
Proof.
  induction pre as [|c pre IH]; [reflexivity|].
  rewrite no_char_cons. intros H. apply andb_prop in H. destruct H as [Hc H].
  change (String c pre ++ rest)%string with (String c (pre ++ rest)).
  cbn [tilde_pass]. rewrite curly_needs_brace.
  - rewrite (IH H). reflexivity.
  - intros ->. discriminate Hc.
Qed.

Lemma tilde_pass_nested g rest :
  no_char "}" g = true ->
  tilde_pass 0 (nested g ++ rest) = (escaped g ++ tilde_pass 0 rest)%string.
Proof.
  intros H.
  assert (E : Re.match_at Re.curly (nested g ++ rest)
              = Some (g, 4 + String.length g)).
  { unfold nested. simpl. rewrite string_app_assoc.
    apply curly_match, H. }
  destruct (tilde_pass_match _ _ _ E) as (rest' & Hs & ->).
  apply string_app_inv_head in Hs. subst rest'. reflexivity.
Qed.

Lemma escape_plain s : no_char "{" s = true -> escape_nested s = s.
Proof.
  intros H. rewrite escape_nested_pass.
  rewrite <- (string_app_nil_r s) at 1.
  rewrite (tilde_pass_plain s EmptyString H). apply string_app_nil_r.
Qed.

Lemma escape_around pre inner post :
  no_char "{" pre = true ->
  no_char "}" inner = true ->
  escape_nested (pre ++ nested inner ++ post)
  = (pre ++ escaped inner ++ escape_nested post)%string.
Proof.
  intros Hpre Hin. rewrite !escape_nested_pass.
  rewrite (tilde_pass_plain pre _ Hpre), (tilde_pass_nested inner post Hin).
  reflexivity.
Qed.

(** X7: in a body that holds, after a text without opening brace, a pair of
    double braces around a text without closing brace, the escaper leaves
    the text before the braces as it is, writes every pipe between the
    braces as a tilde, and goes on with the text that follows.  A body
    without any opening brace is returned unchanged. *)
Theorem escape_nested_innermost :
  forall pre inner post : string,
    no_char "{" pre = true ->
    no_char "}" inner = true ->
    escape_nested (pre ++ nested inner ++ post)
    = (pre ++ escaped inner ++ escape_nested post)%string
    /\ escape_nested pre = pre.
Proof.
  intros pre inner post Hpre Hin. split.
  - apply escape_around; assumption.
  - apply escape_plain, Hpre.
Qed.

Lemma escape_nested_innermost_witness :
  escape_nested ("Outer|" ++ nested "Inner|x|y" ++ "|z")
  = ("Outer|" ++ escaped "Inner|x|y" ++ escape_nested "|z")%string.
Proof.
  apply (proj1 (escape_nested_innermost "Outer|" "Inner|x|y" "|z"
                  eq_refl eq_refl)).
Defined.

(** *** The split after the escaper *)

Lemma body_of_piped name segments :
  body_of name segments = (name ++ piped segments)%string.
Proof.
  unfold body_of. revert name.
  induction segments as [|s r IH]; intros name.
  - simpl. symmetry. apply string_app_nil_r.
  - change (Str.join "|" (name :: s :: r))
      with (name ++ "|" ++ Str.join "|" (s :: r))%string.
    rewrite IH. reflexivity.
Qed.

Lemma piped_app l1 l2 : piped (l1 ++ l2) = (piped l1 ++ piped l2)%string.
Proof.
  induction l1 as [|s r IH]; [reflexivity|].
  simpl. rewrite IH, !string_app_assoc. reflexivity.
Qed.

Lemma piped_no_char c l :
  c <> "|"%char ->
  Forall (fun s => no_char c s = true) l -> no_char c (piped l) = true.
Proof.
  intros Hc H. induction H as [|s r Hs Hr IH]; [reflexivity|].
  cbn [piped]. change ("|" ++ s ++ piped r)%string
    with (String "|" (s ++ piped r)).
  rewrite no_char_cons, no_char_app, Hs, IH.
  unfold Str.eqb_ascii. apply Ascii.eqb_neq in Hc. rewrite Hc. reflexivity.
Qed.

Lemma mem_replace_gone a b s :
  a <> b -> Str.mem a (Str.replace a b s) = false.
Proof.
  intros H. unfold Str.replace. induction s as [|c s IH]; [reflexivity|].
  simpl. rewrite IH, orb_false_r. unfold Str.eqb_ascii.
  destruct (Ascii.eqb_spec c a) as [->|Hc].
  - apply Ascii.eqb_neq, H.
  - apply Ascii.eqb_neq. intros ->. contradiction.
Qed.

(** X8: a template nested in a parameter stays in one segment.  For a name
    and segments without pipe or opening brace, and a nested template whose
    text holds no closing brace, splitting the escaped body at its pipes
    gives back the name and the segments as written, the nested template
    with its pipes written as tildes. *)
Theorem nested_template_is_one_segment :
  forall (name inner : string) (before after : list string),
    no_char "|" name = true -> no_char "{" name = true ->
    Forall (fun s => no_char "|" s = true /\ no_char "{" s = true) before ->
    Forall (fun s => no_char "|" s = true /\ no_char "{" s = true) after ->
    no_char "}" inner = true ->
    Str.split "|"
      (escape_nested (body_of name (before ++ nested inner :: after)))
    = name :: (before ++ escaped inner :: after)%list.
Proof.
  intros name inner before after Hn1 Hn2 Hb Ha Hin.
  assert (Hbrace : forall l,
            Forall (fun s => no_char "|" s = true /\ no_char "{" s = true) l ->
            no_char "{" (piped l) = true).
  { intros l Hl. apply piped_no_char; [discriminate|].
    eapply Forall_impl; [|exact Hl]. intros s H. apply H. }
  assert (Hesc : escape_nested (body_of name (before ++ nested inner :: after))
                 = body_of name (before ++ escaped inner :: after)).
  { rewrite !body_of_piped, !piped_app. cbn [piped].
    replace (name ++ piped before ++ "|" ++ nested inner ++ piped after)%string
      with ((name ++ piped before ++ "|") ++ nested inner ++ piped after)%string
      by (rewrite !string_app_assoc; reflexivity).
    rewrite escape_around, escape_plain.
    - rewrite !string_app_assoc. reflexivity.
    - apply Hbrace, Ha.
    - rewrite !no_char_app, Hn2, (Hbrace before Hb). reflexivity.
    - exact Hin. }
  rewrite Hesc. apply split_body.
  - unfold no_char in Hn1. apply negb_true_iff, Hn1.
  - apply Forall_app. split.
    + eapply Forall_impl; [|exact Hb]. intros s [H _].
      apply negb_true_iff, H.
    + constructor.
      * unfold escaped. change ("{{" ++ Str.replace "|" "~" inner ++ "}}")%string
          with (String "{" (String "{" (Str.replace "|" "~" inner ++ "}}"))).
        simpl. rewrite mem_app, mem_replace_gone by discriminate. reflexivity.
      * eapply Forall_impl; [|exact Ha]. intros s [H _].
        apply negb_true_iff, H.
Qed.

Lemma nested_template_is_one_segment_witness :
  Str.split "|"
    (escape_nested (body_of "Outer" (["a=1"] ++ nested "Inner|x|y" :: ["z"])))
  = "Outer" :: (["a=1"] ++ escaped "Inner|x|y" :: ["z"])%list.
Proof.
  apply (nested_template_is_one_segment "Outer" "Inner|x|y" ["a=1"] ["z"]);
    try reflexivity; repeat constructor.
Defined.

(** ** [clean_ref]: references are cut out at every depth *)

Lemma clean_ref_element_children tag children :
  clean_ref_element (Element tag children)
  = Str.join " " (clean_ref_children children).
Proof. reflexivity. Qed.

Lemma node_induction (P : node -> Prop) :
  (forall s, P (Text s)) ->
  (forall tag children, Forall P children -> P (Element tag children)) ->
  forall n, P n.
Proof.
  intros Ht He.
  exact (fix IH (n : node) : P n :=
           match n with
           | Text s => Ht s
           | Element tag children =>
               He tag children
                 ((fix each (l : list node) : Forall P l :=
                     match l with
                     | [] => Forall_nil P
                     | c :: r => Forall_cons c (IH c) (each r)
                     end) children)
           end).
Qed.

Lemma prune_refs_element tag children :
  prune_refs (Element tag children) = Element tag (prune_children children).
Proof. reflexivity. Qed.

Lemma prune_children_cons c r :
  prune_children (c :: r)
  = if is_ref c then prune_children r else prune_refs c :: prune_children r.
Proof. reflexivity. Qed.

Lemma is_ref_prune c : is_ref (prune_refs c) = is_ref c.
Proof. destruct c; reflexivity. Qed.

Lemma clean_ref_children_prune children :
  Forall (fun c => clean_ref_element (prune_refs c) = clean_ref_element c)
         children ->
  clean_ref_children (prune_children children) = clean_ref_children children.
Proof.
  intros H. induction H as [|c r Hc Hr IH]; [reflexivity|].
  rewrite prune_children_cons.
  destruct c as [t | tag ch].
  - cbn [is_ref clean_ref_children prune_refs]. rewrite IH. reflexivity.
  - cbn [is_ref]. destruct (String.eqb tag "ref") eqn:E.
    + cbn [clean_ref_children]. rewrite E. exact IH.
    + rewrite prune_refs_element. cbn [clean_ref_children]. rewrite E.
      rewrite <- prune_refs_element, Hc, IH. reflexivity.
Qed.

Lemma has_ref_element tag children :
  has_ref (Element tag children)
  = existsb (fun c => is_ref c || has_ref c) children.
Proof.
  cbn [has_ref]. induction children as [|c r IH]; [reflexivity|].
  cbn [existsb]. rewrite <- IH. reflexivity.
Qed.

(** X9: the text that [clean_ref] extracts from an element is the text that
    it extracts from the same tree with every [ref] element below the root
    removed together with its subtree, at every depth; and that tree holds
    no [ref] element below its root. *)
Theorem clean_ref_ignores_references :
  forall n : node,
    clean_ref_element (prune_refs n) = clean_ref_element n
    /\ has_ref (prune_refs n) = false.
Proof.
  apply node_induction.
  - intros s. split; reflexivity.
  - intros tag children H. split.
    + rewrite prune_refs_element, !clean_ref_element_children.
      rewrite clean_ref_children_prune; [reflexivity|].
      eapply Forall_impl; [|exact H]. intros c Hc. apply Hc.
    + rewrite prune_refs_element, has_ref_element.
      induction H as [|c r Hc Hr IH]; [reflexivity|].
      rewrite prune_children_cons.
      destruct (is_ref c) eqn:E; [exact IH|].
      cbn [existsb]. rewrite is_ref_prune, E, (proj2 Hc), IH. reflexivity.
Qed.

(** ** The coordinate resolver: outcomes, and what it reads *)

Lemma py_int_raises s e : Num.py_int s = Raise e -> e = ValueError.
Proof.
  unfold Num.py_int.
  destruct (Num.strip_underscores false (Num.strip_number s)); [|congruence].
  destruct (Num.split_sign s0) as [neg digits].
  destruct digits; [congruence|].
  destruct (Num.digits_value 0 (String a digits)); congruence.
Qed.

Lemma renumber_raises anonpars : forall t e,
  renumber anonpars t = Raise e -> lookup_or_value e.
Proof.
  induction anonpars as [|ap r IH]; intros t e; [discriminate|].
  cbn [renumber]. unfold titem, dict_item, tdel, dict_del, anon_number.
  destruct (dict_get key_eqb (KStr ap) t) as [v|]; cbn [bind];
    [|intros [= <-]; right; reflexivity].
  destruct (Num.py_int (Str.strip_chars "anon_" ap)) as [n|e1] eqn:E;
    cbn [bind]; [|intros [= <-]; left; apply (py_int_raises _ _ E)].
  destruct (dict_get key_eqb (KStr ap) (tset (KInt n) v t)); cbn [bind];
    [apply IH | intros [= <-]; right; reflexivity].
Qed.

Lemma map_anon_number_raises l e :
  map_result anon_number l = Raise e -> e = ValueError.
Proof.
  induction l as [|x r IH]; [discriminate|].
  cbn [map_result]. unfold anon_number at 1.
  destruct (Num.py_int (Str.strip_chars "anon_" x)) as [n|e1] eqn:E;
    cbn [bind]; [|intros [= <-]; apply (py_int_raises _ _ E)].
  destruct (map_result anon_number r); cbn [bind]; [discriminate|].
  intros [= <-]. apply IH. reflexivity.
Qed.

Ltac read_raise :=
  match goal with
  | |- context [bind (read_num ?t ?sp ?i) _] =>
      let f := fresh "f" in let e := fresh "e" in
      let U := fresh "U" in let He := fresh "He" in
      destruct (read_num_cases t sp i) as [(f & -> & U) | (e & -> & He & U)];
      cbn [bind]; [| intros [= <-]; exact He]
  | |- context [bind (read_txt ?t ?sp ?i) _] =>
      let f := fresh "s" in let e := fresh "e" in
      let U := fresh "U" in let He := fresh "He" in
      destruct (read_txt_cases t sp i) as [(f & -> & U) | (e & -> & He & U)];
      cbn [bind]; [| intros [= <-]; exact He]
  end.

Lemma read_dms_raises t sp pc e :
  read_dms t sp pc = Raise e -> lookup_or_value e.
Proof.
  unfold read_dms, lookup_or_value.
  destruct pc as [|[|[|[|[|[|[|[|[|n]]]]]]]]];
    repeat read_raise; discriminate.
Qed.

Lemma positional_view_raises d e :
  positional_view d = Raise e -> lookup_or_value e.
Proof.
  unfold positional_view.
  destruct (renumber _ _) as [t|e1] eqn:E1; cbn [bind];
    [|intros [= <-]; apply (renumber_raises _ _ _ E1)].
  destruct (map_result anon_number _) as [ns|e2] eqn:E2; cbn [bind];
    [|intros [= <-]; left; apply (map_anon_number_raises _ _ E2)].
  destruct ns; cbn [py_min bind]; [|discriminate].
  intros [= <-]. left. reflexivity.
Qed.

(** X10: whatever the dictionary, the resolver either returns a dictionary
    with exactly the two keys [lat] and [lon], in this order, or raises a
    [ValueError] or a [KeyError]; the deletions of lines 100-101 never
    raise. *)
Theorem resolver_outcomes :
  forall d : sdict,
    (exists d', drop_optional d = Ok d')
    /\ (forall r, extract_data_from_coord d = Ok r ->
                  exists lat lon, r = [("lat", lat); ("lon", lon)])
    /\ (forall e, extract_data_from_coord d = Raise e ->
                  e = ValueError \/ e = KeyError).
Proof.
  intros d. split; [rewrite drop_optional_by_key; eauto|].
  unfold extract_data_from_coord. rewrite drop_optional_by_key. cbn [bind].
  unfold resolve_positional.
  destruct (positional_view _) as [[[t sp] pc]|e1] eqn:E1; cbn [bind].
  - destruct (read_dms t sp pc) as [f|e2] eqn:E2; cbn [bind].
    + split; [|discriminate]. intros r [= <-].
      unfold coord_of_dms. eexists. eexists. reflexivity.
    + split; [discriminate|]. intros e [= <-]. apply (read_dms_raises _ _ _ _ E2).
  - split; [discriminate|]. intros e [= <-].
    apply (positional_view_raises _ _ E1).
Qed.

Lemma sget_filter_key (f : string -> bool) k (d : sdict) :
  f k = true ->
  sget k (filter (fun kv => f (fst kv)) d) = sget k d.
Proof.
  intros Hk. induction d as [|[a v] r IH]; [reflexivity|].
  cbn [filter fst]. destruct (f a) eqn:Ha.
  - unfold sget in *. cbn [dict_get]. rewrite IH. reflexivity.
  - unfold sget in *. cbn [dict_get].
    destruct (String.eqb_spec k a) as [->|_]; [congruence | exact IH].
Qed.

Lemma tget_with_str_keys k (d : sdict) :
  tget k (with_str_keys d)
  = match k with
    | KStr s => sget s d
    | KInt _ => None
    end.
Proof.
  unfold tget, sget, with_str_keys.
  induction d as [|[a v] r IH]; [destruct k; reflexivity|].
  cbn [List.map dict_get fst snd]. rewrite IH.
  destruct k as [s|n]; cbn [key_eqb]; reflexivity.
Qed.

Lemma same_positional_start (d : sdict) :
  same_positional (with_str_keys d) (with_str_keys (filter positional d)).
Proof.
  intros k Hk. rewrite !tget_with_str_keys.
  destruct k as [s|n]; [|reflexivity].
  symmetry. apply (sget_filter_key (Str.contains "anon_")). exact Hk.
Qed.

Lemma same_positional_set t1 t2 k v :
  same_positional t1 t2 ->
  same_positional (tset k v t1) (tset k v t2).
Proof.
  intros H k' Hk'. unfold tget, tset.
  destruct (key_eqb k' k) eqn:E.
  - apply key_eqb_iff in E. subst k'.
    rewrite !(get_set_same key_eqb key_eqb_iff). reflexivity.
  - assert (k' <> k) by (intros ->; rewrite (keq_refl key_eqb key_eqb_iff) in E;
                         discriminate).
    rewrite !(get_set_other key_eqb key_eqb_iff) by assumption.
    apply H, Hk'.
Qed.

Lemma same_positional_remove t1 t2 k :
  same_positional t1 t2 ->
  same_positional (dict_remove key_eqb k t1) (dict_remove key_eqb k t2).
Proof.
  intros H k' Hk'. unfold tget.
  destruct (key_eqb k' k) eqn:E.
  - apply key_eqb_iff in E. subst k'.
    rewrite !(get_remove_same key_eqb). reflexivity.
  - assert (k' <> k) by (intros ->; rewrite (keq_refl key_eqb key_eqb_iff) in E;
                         discriminate).
    rewrite !(get_remove_other key_eqb key_eqb_iff) by assumption.
    apply H, Hk'.
Qed.

(** Renumbering two dictionaries that agree on the relevant keys ends the
    same way, and leaves two dictionaries that agree on them. *)
Lemma renumber_same anonpars : forall t1 t2,
  Forall (fun ap => Str.contains "anon_" ap = true) anonpars ->
  same_positional t1 t2 ->
  match renumber anonpars t1, renumber anonpars t2 with
  | Ok a, Ok b => same_positional a b
  | Raise e1, Raise e2 => e1 = e2
  | _, _ => False
  end.
Proof.
  induction anonpars as [|ap r IH]; intros t1 t2 Hall Hsame; [exact Hsame|].
  inversion Hall as [|? ? Hap Hr]; subst.
  cbn [renumber]. unfold titem, dict_item, tdel, dict_del.
  pose proof (Hsame (KStr ap) Hap) as Hget. unfold tget in Hget.
  rewrite <- Hget.
  destruct (dict_get key_eqb (KStr ap) t1) as [v|]; cbn [bind];
    [|reflexivity].
  destruct (anon_number ap) as [n|e]; cbn [bind]; [|reflexivity].
  pose proof (same_positional_set t1 t2 (KInt n) v Hsame) as Hset.
  pose proof (Hset (KStr ap) Hap) as Hget'. unfold tget in Hget'.
  rewrite <- Hget'.
  destruct (dict_get key_eqb (KStr ap) (tset (KInt n) v t1)); cbn [bind];
    [|reflexivity].
  apply IH; [exact Hr|]. apply same_positional_remove, Hset.
Qed.

Lemma read_dms_same t1 t2 sp pc :
  same_positional t1 t2 -> read_dms t1 sp pc = read_dms t2 sp pc.
Proof.
  intros H.
  assert (Hnum : forall i, read_num t1 sp i = read_num t2 sp i).
  { intros i. unfold read_num, titem, dict_item.
    pose proof (H (KInt (sp + i)) eq_refl) as Hi. unfold tget in Hi.
    rewrite Hi. reflexivity. }
  assert (Htxt : forall i, read_txt t1 sp i = read_txt t2 sp i).
  { intros i. unfold read_txt, titem, dict_item.
    pose proof (H (KInt (sp + i)) eq_refl) as Hi. unfold tget in Hi.
    rewrite Hi. reflexivity. }
  unfold read_dms. cbv zeta.
  destruct pc as [|[|[|[|[|[|[|[|[|n]]]]]]]]];
    repeat match goal with
           | |- context [bind (read_num t1 sp ?i) _] =>
               rewrite (Hnum i); destruct (read_num t2 sp i); cbn [bind];
               [|reflexivity]
           | |- context [bind (read_txt t1 sp ?i) _] =>
               rewrite (Htxt i); destruct (read_txt t2 sp i); cbn [bind];
               [|reflexivity]
           end; reflexivity.
Qed.

Lemma filter_keys (f : string -> bool) (d : sdict) :
  filter f (dict_keys d) = dict_keys (filter (fun kv => f (fst kv)) d).
Proof.
  unfold dict_keys. induction d as [|[a v] r IH]; [reflexivity|].
  cbn [List.map filter fst]. destruct (f a); cbn [List.map fst];
    rewrite IH; reflexivity.
Qed.

Lemma filter_twice {A : Type} (f : A -> bool) l :
  filter f (filter f l) = filter f l.
Proof.
  induction l as [|a r IH]; [reflexivity|].
  cbn [filter]. destruct (f a) eqn:E; cbn [filter]; [rewrite E, IH|];
    auto.
Qed.

Lemma filter_swap {A : Type} (f g : A -> bool) l :
  filter f (filter g l) = filter g (filter f l).
Proof.
  induction l as [|a r IH]; [reflexivity|].
  cbn [filter]. destruct (g a) eqn:Eg, (f a) eqn:Ef; cbn [filter];
    rewrite ?Eg, ?Ef, IH; reflexivity.
Qed.

Lemma NoDup_keys_filter (f : string * string -> bool) (d : sdict) :
  NoDup (dict_keys d) -> NoDup (dict_keys (filter f d)).
Proof.
  unfold dict_keys. induction d as [|kv r IH]; [auto|].
  cbn [List.map filter]. intros H. inversion H as [|? ? Ha Hr]; subst.
  destruct (f kv); cbn [List.map]; [|apply IH, Hr].
  constructor; [|apply IH, Hr].
  intros Hin. apply Ha. apply in_map_iff in Hin.
  destruct Hin as (x & Hx & Hin). apply filter_In in Hin.
  rewrite <- Hx. apply in_map, Hin.
Qed.

Lemma resolve_positional_filter (d : sdict) :
  resolve_positional d = resolve_positional (filter positional d).
Proof.
  assert (Hkeys : forall d0 : sdict,
            filter (Str.contains "anon_") (dict_keys d0)
            = dict_keys (filter positional d0)).
  { intros d0. apply (filter_keys (Str.contains "anon_")). }
  assert (Hpars : filter (fun tpar => Str.contains "anon_" tpar)
                    (dict_keys (filter positional d))
                  = filter (fun tpar => Str.contains "anon_" tpar)
                      (dict_keys d)).
  { change (fun tpar : string => Str.contains "anon_" tpar)
      with (Str.contains "anon_").
    rewrite !Hkeys, filter_twice. reflexivity. }
  unfold resolve_positional, positional_view. rewrite Hpars.
  set (anonpars := filter (fun tpar => Str.contains "anon_" tpar)
                     (dict_keys d)).
  assert (Hall : Forall (fun ap => Str.contains "anon_" ap = true) anonpars).
  { apply Forall_forall. intros ap Hap. apply filter_In in Hap. apply Hap. }
  pose proof (renumber_same anonpars _ _ Hall (same_positional_start d)) as H.
  destruct (renumber anonpars (with_str_keys d)) as [t1|e1],
           (renumber anonpars (with_str_keys (filter positional d))) as [t2|e2];
    try contradiction; cbn [bind]; [|congruence].
  destruct (map_result anon_number anonpars) as [ns|e]; cbn [bind];
    [|reflexivity].
  destruct (py_min ns) as [sp|e]; cbn [bind]; [|reflexivity].
  rewrite (read_dms_same t1 t2 sp _ H). reflexivity.
Qed.

(** X11: only the entries whose key holds [anon_] count.  For every
    dictionary with pairwise distinct keys, the outcome of the resolver,
    result or exception, is its outcome on the dictionary restricted to
    those entries. *)
Theorem resolver_reads_positional_only :
  forall d : sdict,
    NoDup (dict_keys d) ->
    extract_data_from_coord d
    = extract_data_from_coord (filter positional d).
Proof.
  intros d Hnd. unfold extract_data_from_coord.
  rewrite (drop_optional_filter d Hnd).
  rewrite (drop_optional_filter _ (NoDup_keys_filter positional d Hnd)).
  cbn [bind].
  rewrite (resolve_positional_filter (filter mandatory d)).
  rewrite (filter_swap mandatory positional d).
  reflexivity.
Qed.

Lemma resolver_reads_positional_only_witness :
  extract_data_from_coord
    [("name", "Rome"); ("anon_1", "41.9"); ("format", "dms");
     ("anon_2", "12.5")]
  = extract_data_from_coord
      (filter positional
         [("name", "Rome"); ("anon_1", "41.9"); ("format", "dms");
          ("anon_2", "12.5")]).
Proof.
  apply (resolver_reads_positional_only
           [("name", "Rome"); ("anon_1", "41.9"); ("format", "dms");
            ("anon_2", "12.5")]).
  repeat constructor; simpl; intuition discriminate.
Defined.

(** ** The augmenter on success *)

Lemma any_value_none (values : list string) :
  Forall (fun v => v = EmptyString) values -> any_value values = false.
Proof.
  intros H. induction H as [|v r Hv Hr IH]; [reflexivity|].
  subst v. cbn [any_value existsb]. exact IH.
Qed.

(** X12: once the import of line 155 has bound the DMS parser: when none
    of the wanted fields has a non-empty value in the dictionary, the
    augmenter returns [False] and leaves the dictionary as it is, whatever
    the parser.  When some field has one and the parser answers with a
    first result that holds [dec-long] and [dec-lat], the augmenter stores
    them under [lon] and [lat], logs nothing, and leaves every other key
    with its value; the keys stay pairwise distinct.  When the import
    raises, the augmenter raises the same exception, whatever the
    dictionary and the wanted fields. *)
Theorem augmenter_outcomes :
  forall (parseDMS : dms_parser)
         (data : sdict) (coords_fiels : list (list string)),
    (Forall (fun field => sget field data = None
                          \/ sget field data = Some EmptyString)
            (List.concat coords_fiels) ->
     augment_data_with_coords (Ok parseDMS) data coords_fiels
     = Ok (data, Some false, []))
    /\ (forall (coords_data : sdict) (others : list sdict) (lon lat : string),
          any_value (looked_up data coords_fiels) = true ->
          parseDMS (looked_up data coords_fiels) = Ok (coords_data :: others) ->
          sget "dec-long" coords_data = Some lon ->
          sget "dec-lat" coords_data = Some lat ->
          exists data',
            augment_data_with_coords (Ok parseDMS) data coords_fiels
            = Ok (data', None, [])
            /\ sget "lon" data' = Some lon
            /\ sget "lat" data' = Some lat
            /\ (forall k, k <> "lon" -> k <> "lat" ->
                          sget k data' = sget k data)
            /\ (NoDup (dict_keys data) -> NoDup (dict_keys data')))
    /\ (forall e : exn,
          augment_data_with_coords (Raise e) data coords_fiels = Raise e).
Proof.
  intros parseDMS data coords_fiels. split; [|split].
  - intros H. unfold augment_data_with_coords. cbn [bind].
    rewrite any_value_none; [reflexivity|].
    unfold looked_up. apply Forall_map.
    eapply Forall_impl; [|exact H].
    intros field [-> | ->]; reflexivity.
  - intros coords_data others lon lat Hany Hparse Hlon Hlat.
    exists (sset "lat" lat (sset "lon" lon data)).
    split; [|split; [|split; [|split]]].
    + unfold augment_data_with_coords, augment_try, sitem, dict_item.
      cbn [bind]. rewrite Hany, Hparse. cbn [negb].
      unfold sget in Hlon, Hlat. rewrite Hlon, Hlat. reflexivity.
    + unfold sget, sset.
      rewrite (get_set_other String.eqb string_eqb_iff) by discriminate.
      apply (get_set_same String.eqb string_eqb_iff).
    + apply (get_set_same String.eqb string_eqb_iff).
    + intros k H1 H2. unfold sget, sset.
      rewrite !(get_set_other String.eqb string_eqb_iff) by assumption.
      reflexivity.
    + intros H. unfold sset.
      apply (set_NoDup String.eqb string_eqb_iff).
      apply (set_NoDup String.eqb string_eqb_iff). exact H.
  - reflexivity.
Qed.

Lemma augmenter_outcomes_witness :
  exists data',
    augment_data_with_coords (Ok (parseDMS_fixed "11.25" "43.77"))
      [("latd", "43"); ("longd", "11")] [["latd"]; ["longd"]]
    = Ok (data', None, [])
    /\ sget "lon" data' = Some "11.25"
    /\ sget "lat" data' = Some "43.77"
    /\ (forall k, k <> "lon" -> k <> "lat" ->
                  sget k data' = sget k [("latd", "43"); ("longd", "11")])
    /\ (NoDup (dict_keys [("latd", "43"); ("longd", "11")]) ->
        NoDup (dict_keys data')).
Proof.
  apply (proj1 (proj2 (augmenter_outcomes (parseDMS_fixed "11.25" "43.77")
                  [("latd", "43"); ("longd", "11")] [["latd"]; ["longd"]]))
           [("dec-long", "11.25"); ("dec-lat", "43.77")] [] "11.25" "43.77");
    reflexivity.
Defined.

(** ** The driver: one occurrence for each template, in order *)

Lemma process_all_processed fromstring import_parseDMS extra spans : forall rs store log,
  processed fromstring import_parseDMS extra spans rs ->
  process_all fromstring import_parseDMS extra spans store log
  = Ok ((store ++ List.map fst rs)%list,
        (log ++ List.concat (List.map snd rs))%list).
Proof.
  unfold processed.
  induction spans as [|span rest IH]; intros rs store log H;
    inversion H as [|? r ? rs' Hr Hrest]; subst.
  - simpl. rewrite !app_nil_r. reflexivity.
  - cbn [process_all]. rewrite Hr. cbn [bind].
    rewrite (IH rs' _ _ Hrest). cbn [List.map List.concat].
    rewrite <- !app_assoc. reflexivity.
Qed.

Lemma process_all_inv fromstring import_parseDMS extra spans : forall store log out,
  process_all fromstring import_parseDMS extra spans store log = Ok out ->
  exists rs,
    processed fromstring import_parseDMS extra spans rs
    /\ out = ((store ++ List.map fst rs)%list,
              (log ++ List.concat (List.map snd rs))%list).
Proof.
  unfold processed.
  induction spans as [|span rest IH]; intros store log out H.
  - exists []. split; [constructor|]. simpl in *. rewrite !app_nil_r.
    congruence.
  - cbn [process_all] in H.
    destruct (process_template fromstring import_parseDMS extra span) as [r|e] eqn:E;
      cbn [bind] in H; [|discriminate].
    destruct (IH _ _ _ H) as (rs & Hrs & ->).
    exists (r :: rs). split; [constructor; assumption|].
    cbn [List.map List.concat]. rewrite <- !app_assoc. reflexivity.
Qed.

(** X13: [data_from_templates] returns a result exactly when
    [process_template] succeeds on every template that the scanner reports
    for the text with its white space collapsed; the result then holds the
    occurrences of these templates, one for each and in the order of the
    scanner, and the log records in the same order. *)
Theorem one_occurrence_per_template :
  forall (filter_templates : string -> list string)
         (fromstring : string -> result node)
         (import_parseDMS : result dms_parser)
         (get_wikitext_from_api : string -> string -> result string)
         (page lang wikitext : string) (extra_coords : extra_coords_t)
         (store : list occurrence) (log : list string),
    data_from_templates filter_templates fromstring import_parseDMS
      get_wikitext_from_api page lang extra_coords (Some wikitext)
    = Ok (store, log)
    <-> exists rs,
          processed fromstring import_parseDMS extra_coords
            (filter_templates (Str.join " " (Str.split_ws wikitext))) rs
          /\ store = List.map fst rs
          /\ log = List.concat (List.map snd rs).
Proof.
  intros ft fs pd gw page lang w extra store log.
  unfold data_from_templates. cbn [bind]. split.
  - intros H. destruct (process_all_inv _ _ _ _ _ _ _ H) as (rs & Hrs & Hout).
    exists rs. split; [exact Hrs|]. simpl in Hout.
    injection Hout as -> ->. auto.
  - intros (rs & Hrs & -> & ->).
    rewrite (process_all_processed _ _ _ _ rs [] [] Hrs). reflexivity.
Qed.

(** ** [get_wikitext_from_api] *)

(** X14: when the request is answered, [get_wikitext_from_api] returns the
    text of the first revision of the first page if the answer has one, and
    raises [ValueError] in every other case (no page, no [revisions] key, no
    revision, no [*] key); [data_from_templates] called without wikitext
    then behaves as with that text, or raises [ValueError]. *)
Theorem wikitext_or_value_error :
  forall (unquote : string -> string)
         (revisions_request : string -> string -> result (list page_json))
         (filter_templates : string -> list string)
         (fromstring : string -> result node)
         (import_parseDMS : result dms_parser)
         (page lang : string) (extra_coords : extra_coords_t)
         (json_pages : list page_json),
    revisions_request (unquote (Str.replace " " "_" page)) lang
    = Ok json_pages ->
    match json_pages with
    | {| revisions := Some (Some text :: _) |} :: _ =>
        get_wikitext_from_api unquote revisions_request page lang = Ok text
        /\ data_from_templates filter_templates fromstring import_parseDMS
             (get_wikitext_from_api unquote revisions_request)
             page lang extra_coords None
           = data_from_templates filter_templates fromstring import_parseDMS
               (get_wikitext_from_api unquote revisions_request)
               page lang extra_coords (Some text)
    | _ =>
        get_wikitext_from_api unquote revisions_request page lang
        = Raise ValueError
        /\ data_from_templates filter_templates fromstring import_parseDMS
             (get_wikitext_from_api unquote revisions_request)
             page lang extra_coords None
           = Raise ValueError
    end.
Proof.
  intros unquote req ft fs pd page lang extra json_pages Hreq.
  unfold data_from_templates, get_wikitext_from_api. rewrite Hreq.
  cbn [bind].
  destruct json_pages as [|[[[|[text|] revs]|]] rest]; cbn [first_revision revisions bind];
    split; reflexivity.
Qed.

Lemma wikitext_or_value_error_witness :
  get_wikitext_from_api (fun s => s)
    (fun _ _ => Ok [mk_page None]) "No such page" "en"
  = Raise ValueError
  /\ data_from_templates top_level_templates fromstring_text (Ok parseDMS_reject)
       (get_wikitext_from_api (fun s => s) (fun _ _ => Ok [mk_page None]))
       "No such page" "en" None None
     = Raise ValueError.
Proof.
  apply (wikitext_or_value_error (fun s => s) (fun _ _ => Ok [mk_page None])
           top_level_templates fromstring_text (Ok parseDMS_reject)
           "No such page" "en" None [mk_page None]).
  reflexivity.
Defined.

(** ** [pages_with_template] *)

Lemma token_sent (eicontinue : option string) :
  match eicontinue with
  | Some EmptyString => None
  | t => t
  end = sent eicontinue.
Proof. destruct eicontinue as [[|c s]|]; reflexivity. Qed.

Lemma pages_with_template_step request fuel template lang token skip :
  pages_with_template request (S fuel) template lang token skip
  = (res <- request template lang (sent token) ;;
     let titles := if skip then filter kept (embeddedin res)
                   else embeddedin res in
     if truthy (query_continue res) then
       more <- pages_with_template request fuel template lang
                 (query_continue res) skip ;;
       Ok (titles ++ more)%list
     else Ok titles).
Proof.
  cbn [pages_with_template]. rewrite token_sent.
  destruct (request template lang (sent token)) as [res|e]; [|reflexivity].
  cbn [bind]. destruct (query_continue res) as [[|c s]|]; reflexivity.
Qed.

Lemma skipping_filters request fuel : forall template lang token,
  pages_with_template request fuel template lang token true
  = (r <- pages_with_template request fuel template lang token false ;;
     Ok (filter kept r)).
Proof.
  induction fuel as [|fuel IH]; intros template lang token; [reflexivity|].
  rewrite !pages_with_template_step.
  destruct (request template lang (sent token)) as [res|e]; [|reflexivity].
  cbn [bind]. destruct (truthy (query_continue res)); [|reflexivity].
  rewrite IH.
  destruct (pages_with_template request fuel template lang
              (query_continue res) false) as [more|e]; [|reflexivity].
  cbn [bind]. rewrite filter_app. reflexivity.
Qed.

(** X15: with skipping, [pages_with_template] returns what it returns
    without skipping, less the titles that the filter drops, in the same
    order; and it fails exactly when the crawl without skipping fails, with
    the same exception. *)
Theorem skipping_is_filtering :
  forall (request : string -> string -> option string -> result listing)
         (fuel : nat) (template lang : string) (token : option string),
    pages_with_template request fuel template lang token true
    = match pages_with_template request fuel template lang token false with
      | Ok titles => Ok (filter kept titles)
      | Raise e => Raise e
      end.
Proof.
  intros request fuel template lang token. rewrite skipping_filters.
  destruct (pages_with_template request fuel template lang token false);
    reflexivity.
Qed.

(** X16: with skipping, [pages_with_template] never returns a title whose
    lowercase form starts with [user:], [utente:], [template:],
    [template_talk:] or [discussioni_template:], whatever the API
    answers. *)
Theorem reserved_titles_never_returned :
  forall (request : string -> string -> option string -> result listing)
         (fuel : nat) (template lang : string) (token : option string)
         (titles : list string) (t : string),
    pages_with_template request fuel template lang token true = Ok titles ->
    In t titles ->
    Str.startswith (Str.lower t) "user:" = false
    /\ Str.startswith (Str.lower t) "utente:" = false
    /\ Str.startswith (Str.lower t) "template:" = false
    /\ Str.startswith (Str.lower t) "template_talk:" = false
    /\ Str.startswith (Str.lower t) "discussioni_template:" = false.
Proof.
  intros request fuel template lang token titles t H Hin.
  rewrite skipping_filters in H.
  destruct (pages_with_template request fuel template lang token false)
    as [r|e]; [|discriminate].
  cbn [bind] in H. injection H as <-.
  apply filter_In in Hin. destruct Hin as [_ Hk].
  unfold kept in Hk. apply negb_true_iff in Hk.
  cbn [existsb skip_page] in Hk.
  repeat (apply orb_false_elim in Hk; destruct Hk as [? Hk]).
  auto.
Qed.

Lemma reserved_titles_never_returned_witness :
  Str.startswith (Str.lower "Rome") "user:" = false
  /\ Str.startswith (Str.lower "Rome") "utente:" = false
  /\ Str.startswith (Str.lower "Rome") "template:" = false
  /\ Str.startswith (Str.lower "Rome") "template_talk:" = false
  /\ Str.startswith (Str.lower "Rome") "discussioni_template:" = false.
Proof.
  apply (reserved_titles_never_returned (one_page ["User:A"; "Rome"]) 5
           "Template:Infobox" "en" None ["Rome"] "Rome").
  - reflexivity.
  - left. reflexivity.
Defined.

(** X17: when the API answers with a chain of pages, each but the last with
    a continuation token, and the recursion may go as deep as the chain is
    long, [pages_with_template] returns the titles of all the pages in
    order, filtered when skipping is on. *)
Theorem crawl_follows_the_chain :
  forall (request : string -> string -> option string -> result listing)
         (template lang : string) (token : option string)
         (pages : list (list string)) (fuel : nat) (skip : bool),
    embeddedin_chain request template lang token pages ->
    List.length pages <= fuel ->
    pages_with_template request fuel template lang token skip
    = Ok (if skip then filter kept (List.concat pages)
          else List.concat pages).
Proof.
  intros request template lang token pages fuel skip Hchain.
  revert fuel.
  induction Hchain as [token titles next Hreq Hnext
                      | token titles next rest Hreq Hnext Hrest IH];
    intros fuel Hfuel; (destruct fuel as [|fuel]; [simpl in Hfuel; lia|]);
    rewrite pages_with_template_step, Hreq; cbn [bind embeddedin query_continue];
    rewrite Hnext.
  - cbn [List.concat]. rewrite app_nil_r. destruct skip; reflexivity.
  - rewrite IH by (simpl in Hfuel; lia). cbn [bind List.concat].
    destruct skip; [rewrite filter_app|]; reflexivity.
Qed.

Lemma crawl_follows_the_chain_witness :
  pages_with_template (two_pages ["User:A"; "Rome"] ["Pisa"]) 2
    "Template:Infobox" "en" None true
  = Ok (filter kept (List.concat [["User:A"; "Rome"]; ["Pisa"]])).
Proof.
  apply (crawl_follows_the_chain (two_pages ["User:A"; "Rome"] ["Pisa"])
           "Template:Infobox" "en" None [["User:A"; "Rome"]; ["Pisa"]] 2 true).
  - apply chain_next with (next := Some "next"); [reflexivity..|].
    apply chain_last with (next := None); reflexivity.
  - apply le_n.
Defined.

(** ** [pages_in_category] *)

Lemma pages_in_category_step request fuel catname lang maxdepth token visited :
  pages_in_category request (S fuel) catname lang maxdepth token visited
  = (res <- request catname lang (sent token) ;;
     st <- (if truthy (cm_continue res) then
              r <- pages_in_category request fuel catname lang maxdepth
                     (cm_continue res) (Some (visited_list visited)) ;;
              Ok (member_pages (categorymembers res) ++ fst r, snd r)%list
            else Ok (member_pages (categorymembers res),
                     visited_list visited)) ;;
     if (0 <=? maxdepth - 1)%Z then
       each_subcat
         (fun cat v =>
            pages_in_category request fuel cat lang (maxdepth - 1)%Z
              (cm_continue res) v)
         (member_subcats (categorymembers res) (visited_list visited))
         (fst st) (snd st)
     else Ok st).
Proof. reflexivity. Qed.

Lemma member_pages_listed request lang catname token res :
  request catname lang token = Ok res ->
  Forall (listed request lang) (member_pages (categorymembers res)).
Proof.
  intros H. unfold member_pages. apply Forall_forall. intros p Hp.
  apply in_map_iff in Hp. destruct Hp as (x & <- & Hx).
  apply filter_In in Hx. destruct Hx as [Hx Hns].
  exists catname, token, res, x. apply Z.eqb_eq in Hns. auto.
Qed.

Lemma member_subcats_listed request lang catname token res visited :
  request catname lang token = Ok res ->
  Forall (listed_subcat request lang)
         (member_subcats (categorymembers res) visited).
Proof.
  intros H. unfold member_subcats. apply Forall_forall. intros c Hc.
  apply in_map_iff in Hc. destruct Hc as (x & <- & Hx).
  apply filter_In in Hx. destruct Hx as [Hx Hns].
  apply andb_prop in Hns. destruct Hns as [Hns _].
  exists catname, token, res, x. apply Z.eqb_eq in Hns. auto.
Qed.

Lemma each_subcat_result request lang call cats :
  (forall cat v out, call cat (Some v) = Ok out ->
                     crawl_result request lang v out) ->
  Forall (listed_subcat request lang) cats ->
  forall pages visited0 visited out,
    Forall (listed request lang) pages ->
    (exists added, visited = (visited0 ++ added)%list
                   /\ Forall (listed_subcat request lang) added) ->
    each_subcat call cats pages visited = Ok out ->
    crawl_result request lang visited0 out.
Proof.
  intros Hcall Hcats. induction Hcats as [|cat rest Hcat Hrest IH];
    intros pages visited0 visited out Hp (added & -> & Hadded) H.
  - cbn [each_subcat] in H. injection H as <-. split; [exact Hp|].
    exists added. auto.
  - cbn [each_subcat] in H.
    destruct (call cat (Some (visited0 ++ added)%list)) as [r|e] eqn:E;
      cbn [bind] in H; [|discriminate].
    destruct (Hcall _ _ _ E) as (Hr & added' & Hv & Hadded').
    apply (IH (pages ++ fst r)%list visited0 (snd r ++ [cat])%list out).
    + apply Forall_app. auto.
    + exists (added ++ added' ++ [cat])%list. split.
      * rewrite Hv, <- !app_assoc. reflexivity.
      * repeat (apply Forall_app; split); auto.
    + exact H.
Qed.

Lemma pages_in_category_result request lang fuel :
  forall catname maxdepth token visited out,
    pages_in_category request fuel catname lang maxdepth token visited = Ok out ->
    crawl_result request lang (visited_list visited) out.
Proof.
  induction fuel as [|fuel IH]; intros catname maxdepth token visited out H;
    [discriminate|].
  rewrite pages_in_category_step in H.
  destruct (request catname lang (sent token)) as [res|e] eqn:Hreq;
    cbn [bind] in H; [|discriminate].
  pose proof (member_pages_listed _ _ _ _ _ Hreq) as Hpages.
  pose proof (member_subcats_listed _ _ _ _ _ (visited_list visited) Hreq)
    as Hsub.
  assert (Hst : forall st,
            (if truthy (cm_continue res) then
               r <- pages_in_category request fuel catname lang maxdepth
                      (cm_continue res) (Some (visited_list visited)) ;;
               Ok (member_pages (categorymembers res) ++ fst r, snd r)%list
             else Ok (member_pages (categorymembers res),
                      visited_list visited)) = Ok st ->
            crawl_result request lang (visited_list visited) st).
  { intros st Hs. destruct (truthy (cm_continue res)).
    - destruct (pages_in_category request fuel catname lang maxdepth
                  (cm_continue res) (Some (visited_list visited)))
        as [r|e] eqn:E; cbn [bind] in Hs; [|discriminate].
      injection Hs as <-. destruct (IH _ _ _ _ _ E) as (Hr & added & Hv & Ha).
      split; [apply Forall_app; auto|]. exists added. auto.
    - injection Hs as <-. split; [exact Hpages|].
      exists []. rewrite app_nil_r. auto. }
  destruct (if truthy (cm_continue res) then _ else _) as [st|e];
    cbn [bind] in H; [|discriminate].
  destruct (Hst st eq_refl) as (Hp & added & Hv & Ha).
  destruct (0 <=? maxdepth - 1)%Z.
  - refine (each_subcat_result request lang _ _ _ Hsub
              (fst st) (visited_list visited) (snd st) out Hp _ H).
    + intros cat v out' E. apply (IH _ _ _ _ _ E).
    + exists added. auto.
  - injection H as <-. split; [exact Hp|]. exists added. auto.
Qed.

(** X18: whatever the API answers and however deep the crawl goes, every
    element that [pages_in_category] returns is the UTF-8 encoded title of
    a member in namespace 0 of some answer; and the list of visited
    categories that it leaves is the one it was given, with names of
    members in namespace 14 (underscores for spaces) added at its end. *)
Theorem category_crawl_returns_listed_pages :
  forall (request : string -> string -> option string -> result category_listing)
         (fuel : nat) (catname lang : string) (maxdepth : Z)
         (cmcontinue : option string) (visitedcats : option (list string))
         (pages visited : list string),
    pages_in_category request fuel catname lang maxdepth cmcontinue visitedcats
    = Ok (pages, visited) ->
    Forall (listed request lang) pages
    /\ exists added,
         visited = (visited_list visitedcats ++ added)%list
         /\ Forall (listed_subcat request lang) added.
Proof.
  intros request fuel catname lang maxdepth token visitedcats pages visited H.
  apply (pages_in_category_result _ _ _ _ _ _ _ _ H).
Qed.

Lemma category_crawl_returns_listed_pages_witness :
  Forall (listed (one_category [mk_member "Rome" 0; mk_member "Cat:Q" 14]) "it")
         ["Rome"]
  /\ exists added,
       ["Old"] = (visited_list (Some ["Old"]) ++ added)%list
       /\ Forall (listed_subcat
                    (one_category [mk_member "Rome" 0; mk_member "Cat:Q" 14])
                    "it") added.
Proof.
  apply (category_crawl_returns_listed_pages
           (one_category [mk_member "Rome" 0; mk_member "Cat:Q" 14])
           1 "Cat:P" "it" 0 None (Some ["Old"]) ["Rome"] ["Old"]).
  reflexivity.
Defined.

Lemma no_descent request catname lang maxdepth token visitedcats listings fuel :
  (maxdepth <= 0)%Z ->
  category_chain request catname lang token listings ->
  List.length listings <= fuel ->
  pages_in_category request fuel catname lang maxdepth token visitedcats
  = Ok (List.concat (List.map member_pages listings),
        visited_list visitedcats).
Proof.
  intros Hd Hchain.
  assert (Hno : (0 <=? maxdepth - 1)%Z = false) by (apply Z.leb_gt; lia).
  revert fuel visitedcats.
  induction Hchain as [token members next Hreq Hnext
                      | token members next rest Hreq Hnext Hrest IH];
    intros fuel visitedcats Hfuel;
    (destruct fuel as [|fuel]; [simpl in Hfuel; lia|]);
    rewrite pages_in_category_step, Hreq;
    cbn [bind categorymembers cm_continue]; rewrite Hnext.
  - cbn [bind]. rewrite Hno. cbn [List.map List.concat].
    rewrite app_nil_r. reflexivity.
  - rewrite IH by (simpl in Hfuel; lia). cbn [bind fst snd visited_list].
    rewrite Hno. reflexivity.
Qed.

Lemma each_one_level request lang fuel next answer cats :
  truthy next = false ->
  Forall (fun c => exists after,
            request c lang None = Ok (mk_category_listing (answer c) after)
            /\ truthy after = false) cats ->
  forall pages visited,
    each_subcat
      (fun cat v => pages_in_category request (S fuel) cat lang 0 next v)
      cats pages visited
    = Ok (pages ++ List.concat (List.map (fun c => member_pages (answer c)) cats),
          visited ++ cats)%list.
Proof.
  intros Hnext Hcats. induction Hcats as [|c rest (after & Hc & Hafter) _ IH];
    intros pages visited.
  - cbn [each_subcat List.map List.concat]. rewrite !app_nil_r. reflexivity.
  - cbn [each_subcat].
    rewrite (no_descent request c lang 0 next (Some visited) [answer c] (S fuel)).
    + cbn [bind fst snd List.map List.concat visited_list].
      rewrite IH, app_nil_r, <- !app_assoc. reflexivity.
    + apply Z.le_refl.
    + apply cat_chain_last with (next := after); [|exact Hafter].
      unfold sent. rewrite Hnext. exact Hc.
    + simpl. lia.
Qed.

(** X19: with a depth bound of zero or less, [pages_in_category] asks for
    the category itself only.  When the API answers for it with a chain of
    member lists, each but the last with a continuation token, and the
    recursion may go as deep as the chain is long, the result is the
    namespace-0 titles of all the lists in order, and the list of visited
    categories is left as it was. *)
Theorem category_crawl_without_descent :
  forall (request : string -> string -> option string -> result category_listing)
         (catname lang : string) (maxdepth : Z) (cmcontinue : option string)
         (visitedcats : option (list string))
         (listings : list (list member)) (fuel : nat),
    (maxdepth <= 0)%Z ->
    category_chain request catname lang cmcontinue listings ->
    List.length listings <= fuel ->
    pages_in_category request fuel catname lang maxdepth cmcontinue visitedcats
    = Ok (List.concat (List.map member_pages listings),
          visited_list visitedcats).
Proof.
  intros request catname lang maxdepth token visitedcats listings fuel.
  apply no_descent.
Qed.

Lemma category_crawl_without_descent_witness :
  pages_in_category
    (one_category [mk_member "Rome" 0; mk_member "Cat:Q" 14])
    1 "Cat:P" "it" 0 None None
  = Ok (List.concat
          (List.map member_pages [[mk_member "Rome" 0; mk_member "Cat:Q" 14]]),
        visited_list None).
Proof.
  apply (category_crawl_without_descent
           (one_category [mk_member "Rome" 0; mk_member "Cat:Q" 14])
           "Cat:P" "it" 0 None None
           [[mk_member "Rome" 0; mk_member "Cat:Q" 14]] 1).
  - apply Z.le_refl.
  - apply cat_chain_last with (next := None); reflexivity.
  - apply le_n.
Defined.

(** X20: with a depth bound of one, [pages_in_category] descends one level.
    When the category is answered with one member list and no continuation
    token, and so is each of its subcategories that is not yet visited, the
    result is the namespace-0 titles of the category followed by those of
    the subcategories in the order of the member list, and the subcategories
    are added to the visited list in that order.  The subcategories'
    own subcategories are not requested. *)
Theorem category_crawl_one_level :
  forall (request : string -> string -> option string -> result category_listing)
         (catname lang : string) (cmcontinue : option string)
         (visitedcats : option (list string))
         (members : list member) (next : option string)
         (answer : string -> list member) (fuel : nat),
    request catname lang (sent cmcontinue)
    = Ok (mk_category_listing members next) ->
    truthy next = false ->
    Forall (fun c => exists after,
              request c lang None = Ok (mk_category_listing (answer c) after)
              /\ truthy after = false)
           (member_subcats members (visited_list visitedcats)) ->
    2 <= fuel ->
    pages_in_category request fuel catname lang 1 cmcontinue visitedcats
    = Ok (member_pages members
          ++ List.concat
               (List.map (fun c => member_pages (answer c))
                         (member_subcats members (visited_list visitedcats))),
          visited_list visitedcats
          ++ member_subcats members (visited_list visitedcats))%list.
Proof.
  intros request catname lang token visitedcats members next answer fuel
         Hreq Hnext Hsub Hfuel.
  destruct fuel as [|[|fuel]]; [lia | lia |].
  rewrite pages_in_category_step, Hreq.
  cbn [bind categorymembers cm_continue]. rewrite Hnext. cbn [bind fst snd].
  change (1 - 1)%Z with 0%Z. change (0 <=? 0)%Z with true. cbv iota.
  apply each_one_level; assumption.
Qed.

Lemma category_crawl_one_level_witness :
  pages_in_category
    (category_table
       [("Cat:P", [mk_member "Rome" 0; mk_member "Cat:Q R" 14;
                   mk_member "Cat:Old" 14]);
        ("Cat:Q_R", [mk_member "Pisa" 0; mk_member "Cat:S" 14])])
    2 "Cat:P" "it" 1 None (Some ["Cat:Old"])
  = Ok (["Rome"; "Pisa"], ["Cat:Old"; "Cat:Q_R"]).
Proof.
  apply (category_crawl_one_level
           (category_table
              [("Cat:P", [mk_member "Rome" 0; mk_member "Cat:Q R" 14;
                          mk_member "Cat:Old" 14]);
               ("Cat:Q_R", [mk_member "Pisa" 0; mk_member "Cat:S" 14])])
           "Cat:P" "it" None (Some ["Cat:Old"])
           [mk_member "Rome" 0; mk_member "Cat:Q R" 14; mk_member "Cat:Old" 14]
           None
           (fun c => if String.eqb c "Cat:Q_R"
                     then [mk_member "Pisa" 0; mk_member "Cat:S" 14] else [])
           2).
  - reflexivity.
  - reflexivity.
  - repeat constructor. exists None. split; reflexivity.
  - apply le_n.
Defined.

Lemma replace_no_space s :
  Str.contains " " (Str.replace " " "_" s) = false.
Proof.
  induction s as [|c r IH]; [reflexivity|].
  unfold Str.replace in *. cbn [Str.map Str.contains String.prefix].
  rewrite IH.
  destruct (Str.eqb_ascii c " ") eqn:E.
  - reflexivity.
  - destruct (ascii_dec " " c) as [<-|Hne]; [|reflexivity].
    discriminate E.
Qed.

Lemma in_list_In x l : in_list x l = true <-> In x l.
Proof.
  unfold in_list. rewrite existsb_exists. split.
  - intros (y & Hy & E). apply String.eqb_eq in E. subst. exact Hy.
  - intros H. exists x. split; [exact H|apply String.eqb_refl].
Qed.

(** X21: the visited list holds names with underscores while the test of
    line 320 looks for the title as the API gives it.  So the visited list
    that a crawl started without one leaves never holds back a member in
    namespace 14 whose title has a space: it is selected as a subcategory
    again. *)
Theorem spaced_subcategory_selected_again :
  forall (request : string -> string -> option string -> result category_listing)
         (fuel : nat) (catname lang : string) (maxdepth : Z)
         (cmcontinue : option string) (pages visited : list string)
         (members : list member) (x : member),
    pages_in_category request fuel catname lang maxdepth cmcontinue None
    = Ok (pages, visited) ->
    In x members ->
    ns x = 14%Z ->
    Str.contains " " (title x) = true ->
    In (Str.replace " " "_" (title x)) (member_subcats members visited).
Proof.
  intros request fuel catname lang maxdepth token pages visited members x
         H Hx Hns Hspace.
  destruct (pages_in_category_result _ _ _ _ _ _ _ _ H)
    as (_ & added & Hv & Hadded).
  cbn [snd visited_list app] in Hv. subst visited.
  unfold member_subcats.
  apply (in_map (fun y => Str.replace " " "_" (title y))). apply filter_In. split; [exact Hx|].
  rewrite Hns. cbn [Z.eqb Pos.eqb andb].
  destruct (in_list (title x) added) eqn:E; [|reflexivity].
  apply in_list_In in E. rewrite Forall_forall in Hadded.
  destruct (Hadded _ E) as (c & t & res & y & _ & _ & _ & Hy).
  rewrite Hy, replace_no_space in Hspace. discriminate.
Qed.

Lemma spaced_subcategory_selected_again_witness :
  In (Str.replace " " "_" (title (mk_member "Cat:Q R" 14)))
     (member_subcats [mk_member "Rome" 0; mk_member "Cat:Q R" 14]
                     ["Cat:Q_R"]).
Proof.
  apply (spaced_subcategory_selected_again
           (category_table
              [("Cat:P", [mk_member "Rome" 0; mk_member "Cat:Q R" 14]);
               ("Cat:Q_R", [mk_member "Pisa" 0])])
           2 "Cat:P" "it" 1 None ["Rome"; "Pisa"] ["Cat:Q_R"]
           [mk_member "Rome" 0; mk_member "Cat:Q R" 14]
           (mk_member "Cat:Q R" 14)).
  - reflexivity.
  - right. left. reflexivity.
  - reflexivity.
  - reflexivity.
Defined.
